(** * private-vid-ai: transcript parsing, acquisition fallback and view state

    A shallow embedding of the logic of the single-page application:

    - the chat screen, [src/components/VideoChat.tsx]: [loadTranscript],
      [parseTranscriptXML], [parseTranscriptText], [sendMessage],
      [testApiKey] and the effect that takes over the transcript of the
      controller;
    - the page component [Index], which is the view-state controller: its
      mount effect, [handleKeysSet], [searchVideos], [handlePlayVideo],
      [handleChatWithVideo], [handleBackToSearch],
      [handleTranscriptUpdate], what it renders, and its own copies of the
      two parsers;
    - the player screen [VideoPlayer]: [fetchTranscript],
      [extractTranscriptFromPlayer], [createNoteContent], [formatTime],
      [handleSaveNotes] and the two effects that keep the notes in local
      storage;
    - the setup screen, [src/components/ApiKeySetup.tsx]: [handleSubmit];
    - the service worker, [dist/sw.js]: its three listeners.

    The repository holds two versions of [Index] and of [VideoPlayer]; the
    ones modelled are those that handle a transcript.

    Conventions of the embedding.

    - A JavaScript string is a [string]; each [ascii] stands for the code
      unit of the same number, so the strings covered are those over
      U+0000..U+00FF.
    - A JavaScript number is a [number]: [NaN], the two infinities, or a
      finite value kept as an exact rational.  The parsers only compare,
      add and multiply such values; rounding to binary64, overflow and the
      sign of zero are not modelled.
    - The browser platform (the DOM parser, the network, local storage) is
      not code of the repository: the DOM parser and the network are
      parameters, local storage is a finite map.
    - React state setters are recorded in explicit state records; the
      asynchronous handlers are split at their suspension points. *)

From Stdlib Require Import Bool Arith List ZArith QArith Qround Lia.
From Stdlib Require Import Strings.Ascii Strings.String Numbers.DecimalString.
From stdpp Require Import base gmap strings.
Import ListNotations.

Local Open Scope list_scope.
Local Open Scope string_scope.

(* [simpl] unfolds [++] on strings when its first argument starts with a
   character, as in the Standard Library. *)
#[local] Arguments String.append !s1 s2.

(** ** The JavaScript platform *)

Module JS.

(** *** Characters and strings *)

Definition LF : ascii := "010"%char.
Definition DQUOTE : ascii := "034"%char.

Definition str (a : ascii) : string := String a EmptyString.

(** [WhiteSpace] and [LineTerminator] code units below U+0100:
    TAB, LF, VT, FF, CR, SP and NBSP.  This is the class of [\s] and the
    set removed by [trim]. *)
Definition isWhiteSpace (a : ascii) : bool :=
  let n := nat_of_ascii a in
  (Nat.leb 9 n && Nat.leb n 13) || Nat.eqb n 32 || Nat.eqb n 160.

(** [\d] *)
Definition isDigit (a : ascii) : bool :=
  let n := nat_of_ascii a in Nat.leb 48 n && Nat.leb n 57.

Definition digitVal (a : ascii) : Z := Z.of_nat (nat_of_ascii a) - 48.

Fixpoint trimStart (s : string) : string :=
  match s with
  | String a s' => if isWhiteSpace a then trimStart s' else s
  | EmptyString => EmptyString
  end.

(** [trimEnd] drops the trailing run of white space: a character is kept
    when it is not white space or when something is kept after it. *)
Fixpoint trimEnd (s : string) : string :=
  match s with
  | EmptyString => EmptyString
  | String a s' =>
      match trimEnd s' with
      | EmptyString => if isWhiteSpace a then EmptyString else str a
      | r => String a r
      end
  end.

(** [String.prototype.trim] *)
Definition trim (s : string) : string := trimEnd (trimStart s).

(** Truthiness of a string: [!s] is true exactly for the empty string. *)
Definition truthy (s : string) : bool :=
  match s with EmptyString => false | _ => true end.

(** [s || d] for strings *)
Definition orElse (s d : string) : string := if truthy s then s else d.

(** [hay.includes(needle)] *)
Fixpoint includes (needle hay : string) : bool :=
  String.prefix needle hay ||
  match hay with
  | EmptyString => false
  | String _ hay' => includes needle hay'
  end.

(** [s.split(sep)] for a one-character separator: always at least one
    piece, and a trailing separator gives a trailing empty piece. *)
Fixpoint split (sep : ascii) (s : string) : list string :=
  match s with
  | EmptyString => [EmptyString]
  | String a s' =>
      if Ascii.eqb a sep then EmptyString :: split sep s'
      else match split sep s' with
           | piece :: rest => String a piece :: rest
           | [] => [str a]
           end
  end.

(** [pieces.join(sep)] *)
Definition join (sep : string) (pieces : list string) : string :=
  String.concat sep pieces.

(** [s.padStart(2, '0')] *)
Definition padStart2 (s : string) : string :=
  match String.length s with
  | 0 => "00"
  | 1 => "0" ++ s
  | _ => s
  end.

(** Longest prefix whose characters satisfy [p], and the rest. *)
Fixpoint span (p : ascii -> bool) (s : string) : string * string :=
  match s with
  | String a s' =>
      if p a then let '(l, r) := span p s' in (String a l, r)
      else (EmptyString, s)
  | EmptyString => (EmptyString, EmptyString)
  end.

(** *** Numbers *)

Inductive number : Type :=
| NaN
| Infinity (negative : bool)
| Num (q : Q).

Definition ofZ (z : Z) : number := Num (inject_Z z).

Definition zero : number := ofZ 0.

Definition add (x y : number) : number :=
  match x, y with
  | NaN, _ | _, NaN => NaN
  | Infinity a, Infinity b => if Bool.eqb a b then Infinity a else NaN
  | Infinity a, Num _ | Num _, Infinity a => Infinity a
  | Num p, Num q => Num (Qred (p + q))
  end.

Definition Qsign_neg (q : Q) : bool := (Qnum q <? 0)%Z.
Definition Qis_zero (q : Q) : bool := (Qnum q =? 0)%Z.

Definition mul (x y : number) : number :=
  match x, y with
  | NaN, _ | _, NaN => NaN
  | Infinity a, Infinity b => Infinity (xorb a b)
  | Infinity a, Num q | Num q, Infinity a =>
      if Qis_zero q then NaN else Infinity (xorb a (Qsign_neg q))
  | Num p, Num q => Num (Qred (p * q))
  end.

(** [x / y] *)
Definition div (x y : number) : number :=
  match x, y with
  | NaN, _ | _, NaN => NaN
  | Infinity _, Infinity _ => NaN
  | Infinity a, Num q => Infinity (xorb a (Qsign_neg q))
  | Num _, Infinity _ => zero
  | Num p, Num q =>
      if Qis_zero q
      then (if Qis_zero p then NaN else Infinity (Qsign_neg p))
      else Num (Qred (p / q))
  end.

(** Integer part towards zero. *)
Definition Qtrunc (q : Q) : Z := Z.quot (Qnum q) (Zpos (Qden q)).

(** [x % y]: the remainder has the sign of the dividend. *)
Definition rem (x y : number) : number :=
  match x, y with
  | NaN, _ | _, NaN => NaN
  | Infinity _, _ => NaN
  | Num p, Infinity _ => Num p
  | Num p, Num q =>
      if Qis_zero q then NaN
      else Num (Qred (p - q * inject_Z (Qtrunc (p / q))))
  end.

(** [Math.floor] *)
Definition floor (x : number) : number :=
  match x with
  | Num q => ofZ (Qfloor q)
  | _ => x
  end.

(** [x <= y]; every comparison with [NaN] is false. *)
Definition le (x y : number) : bool :=
  match x, y with
  | NaN, _ | _, NaN => false
  | Infinity a, Infinity b => implb b a
  | Infinity a, Num _ => a
  | Num _, Infinity b => negb b
  | Num p, Num q => Qle_bool p q
  end.

(** Decimal representation of an integer. *)
Definition showZ (z : Z) : string :=
  match z with
  | Zneg p => "-" ++ NilEmpty.string_of_uint (Pos.to_uint p)
  | _ => NilEmpty.string_of_uint (N.to_uint (Z.to_N z))
  end.

(** [Number.prototype.toString].  The source only prints results of
    [Math.floor], hence integers, [NaN] or an infinity; an integer is
    printed in full (JavaScript switches to exponent notation from 1e21
    on), and of a value with a fractional part only the integer part is
    shown. *)
Definition toString (x : number) : string :=
  match x with
  | NaN => "NaN"
  | Infinity false => "Infinity"
  | Infinity true => "-Infinity"
  | Num q => showZ (Qtrunc q)
  end.

(** Value of a run of decimal digits, most significant first. *)
Definition digitsVal (ds : string) : Z :=
  fold_left (fun acc a => (10 * acc + digitVal a)%Z) (list_ascii_of_string ds) 0%Z.

Definition isHexDigit (a : ascii) : bool :=
  let n := nat_of_ascii a in
  isDigit a || (Nat.leb 65 n && Nat.leb n 70) || (Nat.leb 97 n && Nat.leb n 102).

Definition hexVal (a : ascii) : Z :=
  let n := Z.of_nat (nat_of_ascii a) in
  if isDigit a then (n - 48)%Z
  else if (n <=? 70)%Z then (n - 55)%Z else (n - 87)%Z.

Definition hexDigitsVal (ds : string) : Z :=
  fold_left (fun acc a => (16 * acc + hexVal a)%Z) (list_ascii_of_string ds) 0%Z.

(** An optional sign: [(negative, rest)]. *)
Definition takeSign (s : string) : bool * string :=
  match s with
  | String "-" s' => (true, s')
  | String "+" s' => (false, s')
  | _ => (false, s)
  end.

Definition signed (neg : bool) (z : Z) : Z := if neg then (- z)%Z else z.

(** [parseInt(s)] without a radix: leading white space, a sign, a [0x]
    prefix selecting base 16, then the longest run of digits; [NaN] when
    that run is empty. *)
Definition parseInt (s : string) : number :=
  let '(neg, s1) := takeSign (trimStart s) in
  match s1 with
  | String "0" (String x s2) =>
      if Ascii.eqb x "x" || Ascii.eqb x "X" then
        match fst (span isHexDigit s2) with
        | EmptyString => NaN
        | ds => ofZ (signed neg (hexDigitsVal ds))
        end
      else ofZ (signed neg (digitsVal (fst (span isDigit s1))))
  | _ =>
      match fst (span isDigit s1) with
      | EmptyString => NaN
      | ds => ofZ (signed neg (digitsVal ds))
      end
  end.

(** The exponent part of a decimal literal: [e] or [E], a sign, and at
    least one digit; [0] when there is none. *)
Definition exponentPart (s : string) : Z :=
  match s with
  | String e s' =>
      if Ascii.eqb e "e" || Ascii.eqb e "E" then
        let '(neg, s2) := takeSign s' in
        match fst (span isDigit s2) with
        | EmptyString => 0%Z
        | ds => signed neg (digitsVal ds)
        end
      else 0%Z
  | EmptyString => 0%Z
  end.

Definition pow10 (e : Z) : Q :=
  match e with
  | Zneg p => 1 # (10 ^ p)
  | _ => inject_Z (10 ^ e)
  end.

(** [parseFloat(s)]: leading white space, a sign, then [Infinity] or the
    longest prefix that is a decimal literal (digits, a point, digits, an
    exponent); [NaN] when there is no digit. *)
Definition parseFloat (s : string) : number :=
  let '(neg, s1) := takeSign (trimStart s) in
  if String.prefix "Infinity" s1 then Infinity neg
  else
    let '(ip, s2) := span isDigit s1 in
    let '(fp, s3) :=
      match s2 with
      | String "." s2' => span isDigit s2'
      | _ => (EmptyString, s2)
      end in
    match ip ++ fp with
    | EmptyString => NaN
    | ds =>
        let m := inject_Z (signed neg (digitsVal ds)) in
        let e := (exponentPart s3 - Z.of_nat (String.length fp))%Z in
        Num (Qred (m * pow10 e))
    end.

End JS.

(** ** Regular expressions

    The two patterns of the source are sequences of character classes, each
    with a greedy bounded or unbounded repetition, some of them captured.
    [exec] is the backtracking search of [RegExp.prototype.exec] for a
    pattern without the global flag: the leftmost position at which the
    pattern matches, the greediest match there. *)

Module Regex.

Record item : Type := Item {
  cls : ascii -> bool;
  lo : nat;
  hi : option nat;
  captured : bool
}.

Definition one (c : ascii -> bool) : item := Item c 1 (Some 1) false.
Definition between (c : ascii -> bool) (m n : nat) : item := Item c m (Some n) false.
Definition star (c : ascii -> bool) : item := Item c 0 None false.
Definition group (i : item) : item := Item (cls i) (lo i) (hi i) true.

Definition anyOf (cs : string) (a : ascii) : bool :=
  existsb (Ascii.eqb a) (list_ascii_of_string cs).

Definition mayTakeMore (h : option nat) : bool :=
  match h with Some 0 => false | _ => true end.

(** Greedy repetition of one class: take one more character when allowed
    and possible and go on; give the characters back one at a time while
    the rest of the pattern, [k], fails. *)
Fixpoint rep {A : Type} (c : ascii -> bool) (l : nat) (h : option nat)
    (taken s : string) (k : string -> string -> option A) : option A :=
  let stop := match l with 0 => k taken s | S _ => None end in
  match s with
  | String a s' =>
      if mayTakeMore h && c a then
        match rep c (Nat.pred l) (option_map Nat.pred h) (taken ++ JS.str a) s' k with
        | Some r => Some r
        | None => stop
        end
      else stop
  | EmptyString => stop
  end.

(** Match the whole pattern at the start of [s]: the captures and what
    follows the match. *)
Fixpoint matchHere (re : list item) (caps : list string) (s : string)
    : option (list string * string) :=
  match re with
  | [] => Some (caps, s)
  | i :: re' =>
      rep (cls i) (lo i) (hi i) EmptyString s
        (fun m rest => matchHere re' (if captured i then caps ++ [m] else caps) rest)
  end.

Record found : Type := Found {
  before : string;
  groups : list string;
  after : string
}.

Fixpoint search (re : list item) (pre s : string) : option found :=
  match matchHere re [] s with
  | Some (caps, rest) => Some (Found pre caps rest)
  | None =>
      match s with
      | String a s' => search re (pre ++ JS.str a) s'
      | EmptyString => None
      end
  end.

Definition exec (re : list item) (s : string) : option found :=
  search re EmptyString s.

(** [s.match(re)]: the capture groups of the first match, if any. *)
Definition matchGroups (re : list item) (s : string) : option (list string) :=
  option_map groups (exec re s).

(** [s.replace(re, '')]: the first match is removed. *)
Definition removeFirst (re : list item) (s : string) : string :=
  match exec re s with
  | Some f => before f ++ after f
  | None => s
  end.

End Regex.

(** ** The DOM as the parsers use it *)

Module Dom.

#[warnings="-register-all"]
Inductive Node : Type :=
| Element (tagName : string) (attributes : list (string * string)) (childNodes : list Node)
| Text (data : string).

(** [element.getAttribute(name)]: [None] stands for [null]. *)
Definition getAttribute (n : Node) (name : string) : option string :=
  match n with
  | Element _ attrs _ =>
      option_map snd (List.find (fun kv => String.eqb (fst kv) name) attrs)
  | Text _ => None
  end.

(** [node.textContent]: the text of all descendants, in document order. *)
Fixpoint textContent (n : Node) : string :=
  match n with
  | Text d => d
  | Element _ _ cs => String.concat EmptyString (List.map textContent cs)
  end.

(** [document.getElementsByTagName(tag)] on the document whose root is [n]:
    the elements with that name, the root included, in document order. *)
Fixpoint getElementsByTagName (n : Node) (tag : string) : list Node :=
  match n with
  | Text _ => []
  | Element t _ cs =>
      (if String.eqb t tag then [n] else []) ++
      List.flat_map (fun c => getElementsByTagName c tag) cs
  end.

End Dom.

(** ** Transcript parsing ([VideoChat.tsx], [Index.tsx], [VideoPlayer.tsx]) *)

Module Transcript.

Record TranscriptEntry : Type := Entry {
  text : string;
  duration : JS.number;
  offset : JS.number
}.

(** [/[\[\(](\d{1,2}):(\d{2})[\]\)]/] *)
Definition timestampRe : list Regex.item :=
  [ Regex.one (Regex.anyOf "[(");
    Regex.group (Regex.between JS.isDigit 1 2);
    Regex.one (Regex.anyOf ":");
    Regex.group (Regex.between JS.isDigit 2 2);
    Regex.one (Regex.anyOf "])") ].

(** [/[\[\(]\d{1,2}:\d{2}[\]\)]\s*/] *)
Definition stripRe : list Regex.item :=
  [ Regex.one (Regex.anyOf "[(");
    Regex.between JS.isDigit 1 2;
    Regex.one (Regex.anyOf ":");
    Regex.between JS.isDigit 2 2;
    Regex.one (Regex.anyOf "])");
    Regex.star JS.isWhiteSpace ].

(** [x || d] where [x] may be [null] *)
Definition attrOr (x : option string) (d : string) : string :=
  match x with
  | Some s => JS.orElse s d
  | None => d
  end.

(** The body of the loop of [parseTranscriptXML] for one element. *)
Definition entryOfElement (element : Dom.Node) : TranscriptEntry :=
  let start := JS.parseFloat (attrOr (Dom.getAttribute element "start") "0") in
  let dur := JS.parseFloat (attrOr (Dom.getAttribute element "dur") "0") in
  {| text := JS.orElse (Dom.textContent element) EmptyString;
     duration := dur;
     offset := start |}.

(** [for (let i = 0; i < textElements.length; i++) entries.push(...)];
    [todo] is the number of iterations left. *)
Fixpoint xmlLoop (textElements : list Dom.Node) (todo i : nat)
    (entries : list TranscriptEntry) : list TranscriptEntry :=
  match todo with
  | 0 => entries
  | S todo' =>
      match nth_error textElements i with
      | Some element =>
          xmlLoop textElements todo' (S i) (entries ++ [entryOfElement element])
      | None => entries
      end
  end.

(** The body of the loop of [parseTranscriptText] for one line: the
    entries pushed, none or one. *)
Definition lineEntries (line : string) : list TranscriptEntry :=
  match Regex.matchGroups timestampRe line with
  | Some [m1; m2] =>
      let minutes := JS.parseInt m1 in
      let seconds := JS.parseInt m2 in
      let offset := JS.add (JS.mul minutes (JS.ofZ 60)) seconds in
      let textContent := JS.trim (Regex.removeFirst stripRe line) in
      if JS.truthy textContent
      then [ {| text := textContent; duration := JS.zero; offset := offset |} ]
      else []
  | _ => []
  end.

Section Parsers.

(** [new DOMParser().parseFromString(xmlText, "text/xml")], given as the
    root of the resulting document. *)
Variable parseFromString : string -> Dom.Node.

Definition parseTranscriptXML (xmlText : string) : list TranscriptEntry :=
  let xmlDoc := parseFromString xmlText in
  let textElements := Dom.getElementsByTagName xmlDoc "text" in
  xmlLoop textElements (List.length textElements) 0 [].

Definition parseTranscriptText (text : string) : list TranscriptEntry :=
  if JS.includes "<transcript>" text then parseTranscriptXML text
  else
    let lines := JS.split JS.LF text in
    fold_left (fun entries line => (entries ++ lineEntries line)%list) lines [].

End Parsers.

End Transcript.

(** ** Handlers with effects

    An asynchronous handler is a computation that logs, in order, what it
    does to the outside (requests awaited, state setters called, toasts
    shown) and either returns or throws an [Error] with a message.
    [tryCatch] and [finally] are the statements of the same name. *)

Module Eff.

Inductive outcome (A : Type) : Type :=
| Return (a : A)
| Throw (message : string).
Arguments Return {A} a.
Arguments Throw {A} message.

Definition M (E A : Type) : Type := (list E * outcome A)%type.

Definition ret {E A} (a : A) : M E A := ([], Return a).
Definition throw {E A} (message : string) : M E A := ([], Throw message).
Definition emit {E} (e : E) : M E unit := ([e], Return tt).

Definition bind {E A B} (f : A -> M E B) (m : M E A) : M E B :=
  match m with
  | (l, Return a) => let '(l', r) := f a in ((l ++ l')%list, r)
  | (l, Throw e) => (l, Throw e)
  end.

#[global] Instance M_ret {E} : MRet (M E) := fun A => @ret E A.
#[global] Instance M_bind {E} : MBind (M E) := fun A B => @bind E A B.

Definition tryCatch {E A} (m : M E A) (handler : string -> M E A) : M E A :=
  match m with
  | (l, Throw e) => let '(l', r) := handler e in ((l ++ l')%list, r)
  | (l, Return a) => (l, Return a)
  end.

Definition finally {E A} (m : M E A) (cleanup : M E unit) : M E A :=
  let '(l, r) := m in
  match cleanup with
  | (l', Return _) => ((l ++ l')%list, r)
  | (l', Throw e) => ((l ++ l')%list, Throw e)
  end.

Definition log {E A} (m : M E A) : list E := fst m.
Definition result {E A} (m : M E A) : outcome A := snd m.

Definition returns {E A} (m : M E A) : bool :=
  match result m with Return _ => true | Throw _ => false end.

End Eff.

(** ** The network *)

Module Net.

(** What [response.text()] and [response.json()] give: the body may fail
    to arrive, may be text that is not JSON, or may be JSON of which the
    handler reads the part [value]. *)
Inductive Body (J : Type) : Type :=
| Unreadable
| Opaque (raw : string)
| Parsed (raw : string) (value : J).
Arguments Unreadable {J}.
Arguments Opaque {J} raw.
Arguments Parsed {J} raw value.

(** What [await fetch(...)] gives: a rejection (no response at all) or a
    response with a status. *)
Inductive Response (J : Type) : Type :=
| Rejected (message : string)
| Resolved (status : N) (body : Body J).
Arguments Rejected {J} message.
Arguments Resolved {J} status body.

(** [response.ok] *)
Definition ok (status : N) : bool := (200 <=? status)%N && (status <=? 299)%N.

Section Calls.
Context {E J : Type}.

(** [await fetch(...)], logged as [rq]. *)
Definition fetch (rq : E) (r : Response J) : Eff.M E (N * Body J) :=
  Eff.emit rq ;;
  match r with
  | Rejected msg => Eff.throw msg
  | Resolved status body => mret (status, body)
  end.

(** [await response.text()] *)
Definition text (b : Body J) : Eff.M E string :=
  match b with
  | Unreadable => Eff.throw "Failed to fetch"
  | Opaque raw | Parsed raw _ => mret raw
  end.

(** [await response.json()] *)
Definition json (b : Body J) : Eff.M E J :=
  match b with
  | Unreadable => Eff.throw "Failed to fetch"
  | Opaque _ => Eff.throw "Unexpected token"
  | Parsed _ value => mret value
  end.

End Calls.

End Net.

(** ** The generative endpoint *)

Module Gemini.

(** The parsed body [data] of an answer, as the handlers read it: the JSON
    value [null], or any other value, with the text of its first
    candidate when it has one. *)
Inductive Data : Type :=
| Null
| Value (text : option string).

(** [data.candidates?.[0]?.content?.parts?.[0]?.text]: every step but the
    first is optional, so the expression throws on [null] only, with the
    [TypeError] of the engine. *)
Definition candidateText {E} (data : Data) : Eff.M E (option string) :=
  match data with
  | Null => Eff.throw "Cannot read properties of null (reading 'candidates')"
  | Value text => mret text
  end.

End Gemini.

(** ** The three transcript loaders *)

Module Pipeline.

Import Transcript.

Record VideoData : Type := Video {
  id : string;
  title : string;
  thumbnail : string;
  description : string;
  summary : option string
}.

(** The retrieval methods of the specification. *)
Inductive Method : Type :=
| CaptionListing   (* 1: captions of the video, then the first track *)
| TimedText        (* 2: the public timed-text endpoint *)
| PlayerEmbed.     (* 3: the embedded player *)

Inductive Request : Type :=
| GetCaptions (videoId key : string)
| GetCaption (captionId key : string)
| GetTimedText (videoId : string)
| QueryPlayerFrame.

Definition methodOf (rq : Request) : Method :=
  match rq with
  | GetCaptions _ _ | GetCaption _ _ => CaptionListing
  | GetTimedText _ => TimedText
  | QueryPlayerFrame => PlayerEmbed
  end.

Inductive Effect : Type :=
| Await (rq : Request)
| SetIsLoadingTranscript (b : bool)
| SetTranscript (t : list TranscriptEntry)
| SetShowTranscript (b : bool)
| RewriteWelcome
| OnTranscriptUpdate (t : list TranscriptEntry)
| Toast (title description : string) (destructive : bool).

(** The remote endpoints and the page, as the loaders see them.  The body
    of the caption listing is read through [captionsData.items]: absent, or
    the identifiers of the tracks. *)
Record World : Type := {
  captions : string -> string -> Net.Response (option (list string));
  caption : string -> string -> Net.Response unit;
  timedtext : string -> Net.Response unit;
  playerFrame : bool
}.

Abbreviation M := (Eff.M Effect).

(** The methods attempted, in order, and the transcript set last. *)
Definition attempts {A} (m : M A) : list Method :=
  flat_map (fun e => match e with Await rq => [methodOf rq] | _ => [] end) (Eff.log m).

Definition transcriptSet {A} (m : M A) : option (list TranscriptEntry) :=
  fold_left (fun acc e => match e with SetTranscript t => Some t | _ => acc end)
            (Eff.log m) None.

Section Loaders.

Variable parseFromString : string -> Dom.Node.
Variable world : World.

Definition welcomeToast (description : string) : Effect :=
  Toast "Transcript Loaded" description false.

(** [VideoChat.tsx], [loadTranscript].  [youtubeKey] is
    [localStorage.getItem("youtube_api_key")].  The inner block yields
    [true] when it ends in the [return] of the source. *)
Definition loadTranscript (video : VideoData)
    (currentTranscript : list TranscriptEntry) (youtubeKey : option string) : M unit :=
  if (0 <? List.length currentTranscript)%nat then mret tt
  else
    Eff.emit (SetIsLoadingTranscript true) ;;
    Eff.finally
      (Eff.tryCatch
         (returned ←
            match youtubeKey with
            | Some key =>
                if JS.truthy key then
                  Eff.tryCatch
                    ('(status, body) ← Net.fetch (Await (GetCaptions (id video) key))
                                         (captions world (id video) key);
                     if Net.ok status then
                       items ← Net.json body;
                       match items with
                       | Some (captionId :: _) =>
                           '(status', body') ← Net.fetch (Await (GetCaption captionId key))
                                                 (caption world captionId key);
                           if Net.ok status' then
                             transcriptText ← Net.text body';
                             let transcriptData :=
                               parseTranscriptText parseFromString transcriptText in
                             Eff.emit (SetTranscript transcriptData) ;;
                             Eff.emit RewriteWelcome ;;
                             Eff.emit (welcomeToast
                               "Video transcript loaded via YouTube API for better AI responses.") ;;
                             mret true
                           else mret false
                       | _ => mret false
                       end
                     else mret false)
                    (fun apiError => mret false)
                else mret false
            | None => mret false
            end;
          if returned : bool then mret tt
          else
            '(status, body) ← Net.fetch (Await (GetTimedText (id video)))
                                (timedtext world (id video));
            if Net.ok status then
              xmlText ← Net.text body;
              let transcriptData := parseTranscriptXML parseFromString xmlText in
              Eff.emit (SetTranscript transcriptData) ;;
              Eff.emit RewriteWelcome ;;
              Eff.emit (welcomeToast "Video transcript loaded via fallback method.")
            else Eff.throw "No transcript available")
         (fun error =>
            Eff.emit (Toast "Transcript Error"
              "Could not load transcript. This video may not have captions enabled. Chat will work with limited context."
              true)))
      (Eff.emit (SetIsLoadingTranscript false)).

(** [VideoPlayer.tsx], [extractTranscriptFromPlayer]: both branches give
    the empty list. *)
Definition extractTranscriptFromPlayer : M (list TranscriptEntry) :=
  Eff.emit (Await QueryPlayerFrame) ;;
  if playerFrame world then mret [] else mret [].

(** [VideoPlayer.tsx], [fetchTranscript]; [hasCallback] tells whether the
    parent passed [onTranscriptUpdate]. *)
Definition fetchTranscript (video : VideoData) (hasCallback : bool) : M unit :=
  Eff.emit (SetIsLoadingTranscript true) ;;
  Eff.finally
    (Eff.tryCatch
       ('(status, body) ← Net.fetch (Await (GetTimedText (id video)))
                           (timedtext world (id video));
        if Net.ok status then
          xmlText ← Net.text body;
          let transcriptData := parseTranscriptXML parseFromString xmlText in
          Eff.emit (SetTranscript transcriptData) ;;
          Eff.emit (SetShowTranscript true) ;;
          (if hasCallback then Eff.emit (OnTranscriptUpdate transcriptData) else mret tt) ;;
          Eff.emit (welcomeToast "Video transcript has been loaded successfully.")
        else
          fallbackTranscript ← extractTranscriptFromPlayer;
          if (0 <? List.length fallbackTranscript)%nat then
            Eff.emit (SetTranscript fallbackTranscript) ;;
            Eff.emit (SetShowTranscript true) ;;
            (if hasCallback then Eff.emit (OnTranscriptUpdate fallbackTranscript) else mret tt) ;;
            Eff.emit (welcomeToast "Video transcript extracted from player.")
          else Eff.throw "No transcript available")
       (fun error =>
          Eff.emit (Toast "Transcript Error"
            "Could not load transcript. Not all videos have transcripts available."
            true)))
    (Eff.emit (SetIsLoadingTranscript false)).

(** [Index.tsx], [handleChatWithVideo] after its two synchronous setters;
    [youtube] is [apiKeys?.youtube]. *)
Definition autoLoadTranscript (video : VideoData) (youtube : option string) : M unit :=
  match youtube with
  | Some key =>
      if JS.truthy key then
        Eff.tryCatch
          ('(status, body) ← Net.fetch (Await (GetCaptions (id video) key))
                               (captions world (id video) key);
           if Net.ok status then
             items ← Net.json body;
             match items with
             | Some (captionId :: _) =>
                 '(status', body') ← Net.fetch (Await (GetCaption captionId key))
                                       (caption world captionId key);
                 if Net.ok status' then
                   transcriptText ← Net.text body';
                   let transcriptData :=
                     parseTranscriptText parseFromString transcriptText in
                   Eff.emit (SetTranscript transcriptData)
                 else mret tt
             | _ => mret tt
             end
           else mret tt)
          (fun error =>
             Eff.tryCatch
               ('(status, body) ← Net.fetch (Await (GetTimedText (id video)))
                                   (timedtext world (id video));
                if Net.ok status then
                  xmlText ← Net.text body;
                  let transcriptData := parseTranscriptXML parseFromString xmlText in
                  Eff.emit (SetTranscript transcriptData)
                else mret tt)
               (fun fallbackError => mret tt))
      else mret tt
  | None => mret tt
  end.

End Loaders.

End Pipeline.

(** ** The controller ([Index.tsx]) *)

Module Index.

Import Transcript Pipeline.

Inductive AppView : Type := setup | search | player | chat.

Record ApiKeys : Type := Keys { youtube : string; gemini : string }.

Record State : Type := {
  currentView : AppView;
  apiKeys : option ApiKeys;
  videos : list VideoData;
  selectedVideo : option VideoData;
  videoTranscript : list TranscriptEntry;
  isLoading : bool
}.

(** The initial values of the [useState] hooks. *)
Definition initial : State :=
  {| currentView := setup; apiKeys := None; videos := [];
     selectedVideo := None; videoTranscript := []; isLoading := false |}.

Definition setCurrentView (v : AppView) (st : State) : State :=
  {| currentView := v; apiKeys := apiKeys st; videos := videos st;
     selectedVideo := selectedVideo st; videoTranscript := videoTranscript st;
     isLoading := isLoading st |}.

Definition setApiKeys (k : option ApiKeys) (st : State) : State :=
  {| currentView := currentView st; apiKeys := k; videos := videos st;
     selectedVideo := selectedVideo st; videoTranscript := videoTranscript st;
     isLoading := isLoading st |}.

Definition setVideos (vs : list VideoData) (st : State) : State :=
  {| currentView := currentView st; apiKeys := apiKeys st; videos := vs;
     selectedVideo := selectedVideo st; videoTranscript := videoTranscript st;
     isLoading := isLoading st |}.

Definition setSelectedVideo (v : option VideoData) (st : State) : State :=
  {| currentView := currentView st; apiKeys := apiKeys st; videos := videos st;
     selectedVideo := v; videoTranscript := videoTranscript st;
     isLoading := isLoading st |}.

Definition setVideoTranscript (t : list TranscriptEntry) (st : State) : State :=
  {| currentView := currentView st; apiKeys := apiKeys st; videos := videos st;
     selectedVideo := selectedVideo st; videoTranscript := t;
     isLoading := isLoading st |}.

(** The effect run once after the first render: with both keys stored the
    application starts on the search screen. *)
Definition mount (localStorage : gmap string string) (st : State) : State :=
  match localStorage !! "youtube_api_key", localStorage !! "gemini_api_key" with
  | Some youtubeKey, Some geminiKey =>
      if JS.truthy youtubeKey && JS.truthy geminiKey
      then setCurrentView search (setApiKeys (Some (Keys youtubeKey geminiKey)) st)
      else st
  | _, _ => st
  end.

Definition handleKeysSet (youtubeKey geminiKey : string) (st : State) : State :=
  setCurrentView search (setApiKeys (Some (Keys youtubeKey geminiKey)) st).

Definition handlePlayVideo (video : VideoData) (st : State) : State :=
  setCurrentView player (setVideoTranscript [] (setSelectedVideo (Some video) st)).

(** [handleChatWithVideo] up to its first [await]; what follows is
    [Pipeline.autoLoadTranscript], whose [SetTranscript] is
    [setVideoTranscript]. *)
Definition handleChatWithVideo (video : VideoData) (st : State) : State :=
  setCurrentView chat (setSelectedVideo (Some video) st).

Definition handleBackToSearch (st : State) : State :=
  setVideoTranscript [] (setSelectedVideo None (setCurrentView search st)).

Definition handleTranscriptUpdate (transcript : list TranscriptEntry) (st : State) : State :=
  setVideoTranscript transcript st.

(** What the component renders. *)
Inductive Screen : Type :=
| SetupScreen
| PlayerScreen (video : VideoData)
| ChatScreen (video : VideoData) (transcript : list TranscriptEntry)
| SearchScreen (cards : list VideoData).

Definition render (st : State) : Screen :=
  match currentView st, selectedVideo st with
  | setup, _ => SetupScreen
  | player, Some video => PlayerScreen video
  | chat, Some video => ChatScreen video (videoTranscript st)
  | _, _ => SearchScreen (videos st)
  end.

(** *** Searching *)

(** An item of the search result, as the video platform returns it; the
    medium thumbnail may be missing, the default one is there. *)
Record SearchItem : Type := {
  videoId : string;
  itemTitle : string;
  mediumUrl : option string;
  defaultUrl : string;
  itemDescription : string
}.

Inductive SearchEffect : Type :=
| SetIsLoading (b : bool)
| AwaitSearch (query key : string)
| AwaitSummary (key prompt : string)
| SetVideos (vs : list VideoData)
| SearchToast (title description : string) (destructive : bool).

Definition dq : string := JS.str JS.DQUOTE.

Definition summaryPrompt (item : SearchItem) : string :=
  "Please provide a 3-5 sentence summary of this YouTube video based on its title and description. Title: " ++
  dq ++ itemTitle item ++ dq ++ " Description: " ++ dq ++ itemDescription item ++ dq.

Section Search.

(** The search endpoint (its body read through [searchData.items]) and
    the generative endpoint. *)
Variable searchApi : string -> string -> Net.Response (option (list SearchItem)).
Variable summarize : string -> string -> Net.Response Gemini.Data.

(** The callback of [searchData.items.map]: the video of an item, with a
    summary when the generative endpoint gives one. *)
Definition summarized (keys : ApiKeys) (item : SearchItem) : Eff.M SearchEffect VideoData :=
  let thumb :=
    match mediumUrl item with
    | Some u => JS.orElse u (defaultUrl item)
    | None => defaultUrl item
    end in
  s ← Eff.tryCatch
        ('(status, body) ← Net.fetch (AwaitSummary (gemini keys) (summaryPrompt item))
                             (summarize (gemini keys) (summaryPrompt item));
         if Net.ok status then
           summaryData ← Net.json body;
           text ← Gemini.candidateText summaryData;
           mret (Some match text with
                      | Some t => JS.orElse t (itemDescription item)
                      | None => itemDescription item
                      end)
         else mret None)
        (fun error => mret None);
  mret {| id := videoId item; title := itemTitle item; thumbnail := thumb;
          description := itemDescription item; summary := s |}.

(** [Promise.all(items.map(...))]: the callbacks do not depend on one
    another, and the result lists their videos in the order of the
    items. *)
Fixpoint allSummarized (keys : ApiKeys) (items : list SearchItem)
    : Eff.M SearchEffect (list VideoData) :=
  match items with
  | [] => mret []
  | item :: items' =>
      v ← summarized keys item;
      vs ← allSummarized keys items';
      mret (v :: vs)
  end.

Definition searchVideos (query : string) (keys : option ApiKeys) : Eff.M SearchEffect unit :=
  match keys with
  | None => mret tt
  | Some k =>
      Eff.emit (SetIsLoading true) ;;
      Eff.finally
        (Eff.tryCatch
           ('(status, body) ← Net.fetch (AwaitSearch query (youtube k))
                                (searchApi query (youtube k));
            if negb (Net.ok status) then Eff.throw "Failed to search videos"
            else
              searchData ← Net.json body;
              match searchData with
              | Some items =>
                  videoResults ← allSummarized k items;
                  Eff.emit (SetVideos videoResults)
              | None => Eff.throw "Cannot read properties of undefined (reading 'map')"
              end)
           (fun error =>
              Eff.emit (SearchToast "Search Error"
                          "Failed to search videos. Please check your API keys." true)))
        (Eff.emit (SetIsLoading false))
  end.

End Search.

Definition setIsLoading (b : bool) (st : State) : State :=
  {| currentView := currentView st; apiKeys := apiKeys st; videos := videos st;
     selectedVideo := selectedVideo st; videoTranscript := videoTranscript st;
     isLoading := b |}.

(** What the setters logged by [searchVideos] do to the controller. *)
Definition applySearch (e : SearchEffect) (st : State) : State :=
  match e with
  | SetIsLoading b => setIsLoading b st
  | SetVideos vs => setVideos vs st
  | AwaitSearch _ _ | AwaitSummary _ _ | SearchToast _ _ _ => st
  end.

End Index.

(** ** The setup screen ([ApiKeySetup.tsx]) *)

Module ApiKeySetup.

Record Notice : Type := Notify {
  noticeTitle : string;
  noticeDescription : string;
  destructive : bool
}.

(** The page: local storage, the toasts shown so far, and the state of the
    controller that passed [onKeysSet = handleKeysSet]. *)
Record Page : Type := {
  localStorage : gmap string string;
  toasts : list Notice;
  app : Index.State
}.

Definition handleSubmit (youtubeKey geminiKey : string) (p : Page) : Page :=
  if negb (JS.truthy (JS.trim youtubeKey)) || negb (JS.truthy (JS.trim geminiKey)) then
    {| localStorage := localStorage p;
       toasts := toasts p ++
         [Notify "Missing API Keys" "Please enter both YouTube and Gemini API keys." true];
       app := app p |}
  else
    {| localStorage :=
         <["gemini_api_key" := JS.trim geminiKey]>
           (<["youtube_api_key" := JS.trim youtubeKey]> (localStorage p));
       toasts := toasts p ++
         [Notify "API Keys Saved" "Your API keys have been securely stored locally." false];
       app := Index.handleKeysSet (JS.trim youtubeKey) (JS.trim geminiKey) (app p) |}.

(** The page after the first render and its mount effect. *)
Definition start (stored : gmap string string) : Page :=
  {| localStorage := stored; toasts := []; app := Index.mount stored Index.initial |}.

End ApiKeySetup.

(** ** The application as a transition system

    User actions are enabled by what is rendered; a handler that awaits
    the network leaves a task in flight, which settles at any later
    moment, whatever is on screen by then. *)

Module App.

Import Transcript Pipeline Index.

Inductive Task : Type :=
| ChatAutoLoad (video : VideoData) (youtube : option string)
| PlayerFetch (video : VideoData).

Record Config : Type := {
  page : ApiKeySetup.Page;
  inflight : list Task
}.

Inductive Event : Type :=
| SubmitKeys (youtubeKey geminiKey : string)
| SearchSettled (results : list VideoData)
| ClickPlay (video : VideoData)
| ClickChat (video : VideoData)
| ClickBack
| ClickLoadTranscript
| Settle (i : nat).

Definition VideoData_eqb (a b : VideoData) : bool :=
  String.eqb (id a) (id b) && String.eqb (title a) (title b) &&
  String.eqb (thumbnail a) (thumbnail b) && String.eqb (description a) (description b).

Definition onPage (f : State -> State) (c : Config) : Config :=
  {| page := {| ApiKeySetup.localStorage := ApiKeySetup.localStorage (page c);
                ApiKeySetup.toasts := ApiKeySetup.toasts (page c);
                ApiKeySetup.app := f (ApiKeySetup.app (page c)) |};
     inflight := inflight c |}.

Definition spawn (t : Task) (c : Config) : Config :=
  {| page := page c; inflight := (inflight c ++ [t])%list |}.

Definition state (c : Config) : State := ApiKeySetup.app (page c).

Section Run.

Variable parseFromString : string -> Dom.Node.
Variable world : World.

(** The setters a settled task calls on the controller. *)
Definition deliver (t : Task) (st : State) : State :=
  match t with
  | ChatAutoLoad video youtube =>
      fold_left (fun s e => match e with SetTranscript tr => setVideoTranscript tr s | _ => s end)
                (Eff.log (autoLoadTranscript parseFromString world video youtube)) st
  | PlayerFetch video =>
      fold_left (fun s e => match e with OnTranscriptUpdate tr => handleTranscriptUpdate tr s | _ => s end)
                (Eff.log (fetchTranscript parseFromString world video true)) st
  end.

Definition step (c : Config) (ev : Event) : option Config :=
  match ev, render (state c) with
  | SubmitKeys y g, SetupScreen =>
      Some {| page := ApiKeySetup.handleSubmit y g (page c); inflight := inflight c |}
  | SearchSettled results, _ =>
      match apiKeys (state c) with
      | Some _ => Some (onPage (setVideos results) c)
      | None => None
      end
  | ClickPlay video, SearchScreen cards =>
      if existsb (VideoData_eqb video) cards
      then Some (onPage (handlePlayVideo video) c) else None
  | ClickChat video, SearchScreen cards =>
      if existsb (VideoData_eqb video) cards
      then Some (spawn (ChatAutoLoad video (option_map youtube (apiKeys (state c))))
                       (onPage (handleChatWithVideo video) c))
      else None
  | ClickBack, PlayerScreen _ | ClickBack, ChatScreen _ _ =>
      Some (onPage handleBackToSearch c)
  | ClickLoadTranscript, PlayerScreen video => Some (spawn (PlayerFetch video) c)
  | Settle i, _ =>
      match nth_error (inflight c) i with
      | Some t =>
          Some {| page := page (onPage (deliver t) c);
                  inflight := (firstn i (inflight c) ++ skipn (S i) (inflight c))%list |}
      | None => None
      end
  | _, _ => None
  end.

Fixpoint run (c : Config) (evs : list Event) : option Config :=
  match evs with
  | [] => Some c
  | ev :: evs' =>
      match step c ev with
      | Some c' => run c' evs'
      | None => None
      end
  end.

Definition boot (stored : gmap string string) : Config :=
  {| page := ApiKeySetup.start stored; inflight := [] |}.

End Run.

End App.

(** ** The chat screen ([VideoChat.tsx], [sendMessage]) *)

Module VideoChat.

Import Transcript Pipeline.

Inductive Sender : Type := user | ai.

Record Message : Type := {
  mid : string;
  content : string;
  sender : Sender
}.

Record State : Type := {
  messages : list Message;
  input : string;
  isLoading : bool;
  currentTranscript : list TranscriptEntry
}.

(** The body of the POST: [contents], each with its [parts], each a text. *)
Definition RequestBody : Type := list (list string).

Inductive Effect : Type :=
| AppendMessage (m : Message)
| SetInput (s : string)
| SetIsLoading (b : bool)
| PostGenerateContent (key : string) (body : RequestBody)
| Toast (title description : string) (destructive : bool).

Abbreviation M := (Eff.M Effect).

Definition nl : string := JS.str JS.LF.
Definition dq : string := JS.str JS.DQUOTE.

(** The initial values of the [useState] hooks: the welcome message and
    the transcript passed by the controller. *)
Definition welcome (video : VideoData) (transcript : list TranscriptEntry) : Message :=
  {| mid := "welcome";
     content :=
       "Hello! I'm ready to discuss " ++ dq ++ title video ++ dq ++ ". " ++
       (if (0 <? List.length transcript)%nat
        then "I have access to the video transcript and can answer detailed questions about the content."
        else "I can answer general questions about this video based on its title and description.");
     sender := ai |}.

Definition initial (video : VideoData) (transcript : list TranscriptEntry) : State :=
  {| messages := [welcome video transcript]; input := EmptyString;
     isLoading := false; currentTranscript := transcript |}.

Definition setInput (s : string) (st : State) : State :=
  {| messages := messages st; input := s; isLoading := isLoading st;
     currentTranscript := currentTranscript st |}.

Definition setMessages (ms : list Message) (st : State) : State :=
  {| messages := ms; input := input st; isLoading := isLoading st;
     currentTranscript := currentTranscript st |}.

(** [let context = ...] and the conditional [context += ...] *)
Definition buildContext (video : VideoData) (currentTranscript : list TranscriptEntry) : string :=
  let context :=
    "YouTube Video: " ++ dq ++ title video ++ dq ++ nl ++
    "Description: " ++ description video in
  if (0 <? List.length currentTranscript)%nat then
    let transcriptText := JS.join " " (List.map text currentTranscript) in
    context ++ nl ++ nl ++ "Video Transcript: " ++ transcriptText
  else context.

Definition buildPrompt (context question : string) : string :=
  "You are an AI assistant helping someone understand a YouTube video. " ++ nl ++
  nl ++
  "Context:" ++ nl ++
  context ++ nl ++
  nl ++
  "User Question: " ++ question ++ nl ++
  nl ++
  "Please provide a helpful, accurate response based on the video content. If the question is about specific details and you have transcript access, use that information. If not, answer based on the title and description. Be conversational and helpful.".

(** The message chosen from the status of a response that is not ok. *)
Definition statusMessage (status : N) : string :=
  if (status =? 400)%N then
    "Invalid request to Gemini API. Please check your API key format."
  else if (status =? 401)%N then
    "Unauthorized. Your Gemini API key is invalid or expired."
  else if (status =? 403)%N then
    "Access denied. Your Gemini API key may not have the required permissions."
  else if (status =? 429)%N then
    "Rate limit exceeded. Please wait a moment and try again."
  else if (status =? 500)%N then
    "Gemini API server error. Please try again later."
  else "Failed to get AI response".

Definition showStatus (status : N) : string := JS.showZ (Z.of_N status).

(** The [catch] block: the description of the toast for an [Error]. *)
Definition describeError (message : string) : string :=
  if JS.includes "API key" message then message
  else if JS.includes "fetch" message then
    "Network error. Please check your internet connection."
  else message.

Section Send.

(** The generative endpoint. *)
Variable generateContent : string -> RequestBody -> Net.Response Gemini.Data.

(** [geminiKey] is [localStorage.getItem("gemini_api_key")]; [now] and
    [now1] are the two identifiers taken from the clock. *)
Definition sendMessage (video : VideoData) (st : State)
    (geminiKey : option string) (now now1 : string) : M unit :=
  if negb (JS.truthy (JS.trim (input st))) || isLoading st then mret tt
  else
    let userMessage := {| mid := now; content := JS.trim (input st); sender := user |} in
    Eff.emit (AppendMessage userMessage) ;;
    Eff.emit (SetInput EmptyString) ;;
    Eff.emit (SetIsLoading true) ;;
    Eff.finally
      (Eff.tryCatch
         (key ←
            match geminiKey with
            | Some k =>
                if negb (JS.truthy k) then
                  Eff.throw "Gemini API key not found in localStorage. Please go back to setup and enter your API key."
                else if negb (JS.truthy (JS.trim k)) then
                  Eff.throw "Gemini API key is empty. Please go back to setup and enter a valid API key."
                else mret k
            | None =>
                Eff.throw "Gemini API key not found in localStorage. Please go back to setup and enter your API key."
            end;
          let context := buildContext video (currentTranscript st) in
          let prompt := buildPrompt context (JS.trim (input st)) in
          '(status, body) ← Net.fetch (PostGenerateContent key [[prompt]])
                              (generateContent key [[prompt]]);
          if negb (Net.ok status) then
            errorText ← Net.text body;
            let errorMessage := statusMessage status in
            Eff.throw (errorMessage ++ " (Status: " ++ showStatus status ++ ")")
          else
            data ← Net.json body;
            text ← Gemini.candidateText data;
            let aiResponse :=
              match text with
              | Some t => JS.orElse t "I couldn't generate a response. Please try again."
              | None => "I couldn't generate a response. Please try again."
              end in
            Eff.emit (AppendMessage {| mid := now1; content := aiResponse; sender := ai |}))
         (fun message => Eff.emit (Toast "Chat Error" (describeError message) true)))
      (Eff.emit (SetIsLoading false)).

End Send.

(** The requests a run of a handler sends, and the toasts it shows. *)
Definition requests {A} (m : M A) : list (string * RequestBody) :=
  flat_map (fun e => match e with PostGenerateContent k b => [(k, b)] | _ => [] end)
           (Eff.log m).

Definition toastsShown {A} (m : M A) : list (string * string) :=
  flat_map (fun e => match e with Toast t d _ => [(t, d)] | _ => [] end) (Eff.log m).

(** *** The rest of the chat screen *)

Definition setIsLoading (b : bool) (st : State) : State :=
  {| messages := messages st; input := input st; isLoading := b;
     currentTranscript := currentTranscript st |}.

(** What the setters logged by a handler do to the state of the component:
    [setMessages(prev => [...prev, m])], [setInput], [setIsLoading]. *)
Definition applyEffect (e : Effect) (st : State) : State :=
  match e with
  | AppendMessage m => setMessages (messages st ++ [m])%list st
  | SetInput s => setInput s st
  | SetIsLoading b => setIsLoading b st
  | PostGenerateContent _ _ | Toast _ _ _ => st
  end.

(** The state once the handler has finished. *)
Definition settled {A} (m : M A) (st : State) : State :=
  fold_left (fun s e => applyEffect e s) (Eff.log m) st.

(** The content the welcome message gets once a transcript is there. *)
Definition welcomeWithTranscript (video : VideoData) : string :=
  "Hello! I'm ready to discuss " ++ dq ++ title video ++ dq ++
  ". I now have access to the video transcript and can answer detailed questions about the content.".

(** [setMessages(prev => prev.map(msg => msg.id === "welcome" ? {...msg, content} : msg))] *)
Definition rewriteWelcome (video : VideoData) (ms : list Message) : list Message :=
  List.map (fun msg =>
              if String.eqb (mid msg) "welcome"
              then {| mid := mid msg; content := welcomeWithTranscript video;
                      sender := sender msg |}
              else msg) ms.

(** The effect on [[transcript, video.title]]: a transcript property that
    is not empty replaces the local transcript and rewrites the welcome
    message; an empty one changes nothing. *)
Definition syncTranscript (video : VideoData) (transcript : list TranscriptEntry)
    (st : State) : State :=
  if (0 <? List.length transcript)%nat then
    {| messages := rewriteWelcome video (messages st); input := input st;
       isLoading := isLoading st; currentTranscript := transcript |}
  else st.

Section Probe.

Variable generateContent : string -> RequestBody -> Net.Response Gemini.Data.

(** [testApiKey]; [statusText] is [response.statusText]. *)
Definition testApiKey (geminiKey : option string) (statusText : string) : M unit :=
  Eff.emit (SetIsLoading true) ;;
  Eff.finally
    (Eff.tryCatch
       (key ←
          match geminiKey with
          | Some k =>
              if negb (JS.truthy k) then
                Eff.throw "Gemini API key not found in localStorage. Please go back to setup and enter your API key."
              else if negb (JS.truthy (JS.trim k)) then
                Eff.throw "Gemini API key is empty. Please go back to setup and enter a valid API key."
              else mret k
          | None =>
              Eff.throw "Gemini API key not found in localStorage. Please go back to setup and enter your API key."
          end;
        '(status, body) ← Net.fetch (PostGenerateContent key [["Hello, Gemini!"]])
                            (generateContent key [["Hello, Gemini!"]]);
        if Net.ok status then
          Eff.emit (Toast "API Key Test Successful"
                      "Your Gemini API key is working correctly!" false)
        else
          errorText ← Net.text body;
          Eff.throw ("API Key Test Failed: " ++ showStatus status ++ " - " ++ statusText))
       (fun message => Eff.emit (Toast "API Key Test Failed" message true)))
    (Eff.emit (SetIsLoading false)).

End Probe.

End VideoChat.

(** ** The notes file ([VideoPlayer.tsx]) *)

Module VideoPlayer.

Import Transcript Pipeline.

Definition nl : string := JS.str JS.LF.
Definition rule : string := "================================".

Definition sixty : JS.number := JS.ofZ 60.

Definition formatTime (seconds : JS.number) : string :=
  let minutes := JS.floor (JS.div seconds sixty) in
  let remainingSeconds := JS.floor (JS.rem seconds sixty) in
  JS.toString minutes ++ ":" ++ JS.padStart2 (JS.toString remainingSeconds).

(** The callback of [transcript.forEach] in [createNoteContent]. *)
Definition appendEntry (content : string) (entry : TranscriptEntry) : string :=
  let minutes := JS.floor (JS.div (offset entry) sixty) in
  let seconds := JS.floor (JS.rem (offset entry) sixty) in
  let timestamp := JS.toString minutes ++ ":" ++ JS.padStart2 (JS.toString seconds) in
  content ++ ("[" ++ timestamp ++ "] " ++ text entry ++ nl).

(** [currentDate] is the formatted date of the moment of the export. *)
Definition createNoteContent (video : VideoData) (notes : string)
    (transcript : list TranscriptEntry) (currentDate : string) : string :=
  let videoUrl := "https://www.youtube.com/watch?v=" ++ id video in
  let content :=
    "NOTES ON YOUTUBE VIDEO" ++ nl ++
    rule ++ nl ++
    nl ++
    "Video Title: " ++ title video ++ nl ++
    "Video URL: " ++ videoUrl ++ nl ++
    "Date Notes Taken: " ++ currentDate ++ nl ++
    nl ++
    rule ++ nl ++
    nl in
  let content :=
    if JS.truthy (JS.trim notes) then
      content ++ ("YOUR NOTES:" ++ nl ++ notes ++ nl ++ nl ++ rule ++ nl ++ nl)
    else content in
  let content :=
    if (0 <? List.length transcript)%nat then
      let content := content ++ ("VIDEO TRANSCRIPT:" ++ nl) in
      let content := fold_left appendEntry transcript content in
      content ++ (nl ++ rule ++ nl)
    else content in
  content ++ "Generated by PrivateTube AI".

(** *** Notes kept in local storage *)

Definition notesKey (video : VideoData) : string := "video_notes_" ++ id video.

(** The effect on [[video.id]]: stored notes, when there are some, replace
    the notes on screen. *)
Definition loadNotes (video : VideoData) (localStorage : gmap string string)
    (notes : string) : string :=
  match localStorage !! notesKey video with
  | Some savedNotes => if JS.truthy savedNotes then savedNotes else notes
  | None => notes
  end.

(** The callback of the timer set one second after each change of the
    notes. *)
Definition autoSave (video : VideoData) (notes : string)
    (localStorage : gmap string string) : gmap string string :=
  if JS.truthy (JS.trim notes) then <[notesKey video := notes]> localStorage
  else localStorage.

(** *** Saving the notes to a file *)

Inductive SaveEffect : Type :=
| SetIsSaving (b : bool)
| Download (fileName content : string)
| SaveToast (title description : string) (destructive : bool).

(** [new Date().toISOString().split('T')[0]] *)
Definition isoDay (isoString : string) : string :=
  match JS.split "T" isoString with
  | day :: _ => day
  | [] => EmptyString
  end.

(** [handleSaveNotes].  [currentDate] is the date as [createNoteContent]
    formats it, [isoString] is [new Date().toISOString()], and [failure]
    is the error, if any, that the browser raises while it builds and
    clicks the download link. *)
Definition handleSaveNotes (video : VideoData) (notes : string)
    (transcript : list TranscriptEntry) (currentDate isoString : string)
    (failure : option string) : Eff.M SaveEffect unit :=
  if negb (JS.truthy (JS.trim notes)) && (List.length transcript =? 0)%nat then
    Eff.emit (SaveToast "No Content"
                "Please write some notes or load a transcript before saving." true)
  else
    Eff.emit (SetIsSaving true) ;;
    Eff.finally
      (Eff.tryCatch
         (let noteContent := createNoteContent video notes transcript currentDate in
          match failure with
          | Some message => Eff.throw message
          | None =>
              Eff.emit (Download ("notes_" ++ id video ++ "_" ++ isoDay isoString ++ ".txt")
                                 noteContent)
          end ;;
          Eff.emit (SaveToast "Notes Saved"
                      "Your notes and transcript have been saved to your device." false))
         (fun error =>
            Eff.emit (SaveToast "Save Error" "Failed to save notes. Please try again." true)))
      (Eff.emit (SetIsSaving false)).

End VideoPlayer.

(** ** The addresses requested

    The template literals the handlers pass to [fetch]. *)

Module Urls.

Import Pipeline.

(** [loadTranscript], [handleChatWithVideo] and [fetchTranscript]; the
    embedded player is looked up in the document, not fetched. *)
Definition requestUrl (rq : Request) : option string :=
  match rq with
  | GetCaptions videoId key =>
      Some ("https://www.googleapis.com/youtube/v3/captions?part=snippet&videoId=" ++
            videoId ++ "&key=" ++ key)
  | GetCaption captionId key =>
      Some ("https://www.googleapis.com/youtube/v3/captions/" ++ captionId ++
            "?key=" ++ key)
  | GetTimedText videoId =>
      Some ("https://www.youtube.com/api/timedtext?v=" ++ videoId ++ "&lang=en")
  | QueryPlayerFrame => None
  end.

(** [sendMessage], [testApiKey] and the summaries of [searchVideos]. *)
Definition generateContentUrl (key : string) : string :=
  "https://generativelanguage.googleapis.com/v1beta/models/gemini-1.5-flash:generateContent?key=" ++
  key.

(** [searchVideos]; [encodedQuery] is [encodeURIComponent(query)]. *)
Definition searchUrl (encodedQuery key : string) : string :=
  "https://www.googleapis.com/youtube/v3/search?part=snippet&type=video&maxResults=3&q=" ++
  encodedQuery ++ "&key=" ++ key.

End Urls.

(** ** The service worker ([dist/sw.js]) *)

Module ServiceWorker.

Definition CACHE_NAME : string := "private-tube-cache-v1".

Definition STATIC_ASSETS : list string :=
  [ "/private-vid-ai/";
    "/private-vid-ai/index.html";
    "/private-vid-ai/manifest.json";
    "/private-vid-ai/favicon.ico";
    "/private-vid-ai/robots.txt";
    "/private-vid-ai/placeholder.svg";
    "/private-vid-ai/assets/index-mpu01gA7.css";
    "/private-vid-ai/assets/index-CvqN2Jd1.js" ].

Section Caches.

(** Responses. *)
Context {R : Type}.

(** The cache storage: the caches by name, in the order of their
    creation; a cache maps the URL of a request to the response kept for
    it. *)
Abbreviation Storage := (list (string * gmap string R)).

(** [caches.keys()] *)
Definition keys (caches : Storage) : list string := List.map fst caches.

(** [caches.delete(name)] *)
Definition delete (name : string) (caches : Storage) : Storage :=
  List.filter (fun entry => negb (String.eqb (fst entry) name)) caches.

(** [caches.open(name)]: the cache is created, empty, when there is
    none. *)
Definition open (name : string) (caches : Storage) : Storage :=
  if existsb (String.eqb name) (keys caches) then caches
  else (caches ++ [(name, ∅)])%list.

(** [caches.match(request)]: the first cache that knows the URL. *)
Fixpoint cachesMatch (url : string) (caches : Storage) : option R :=
  match caches with
  | [] => None
  | (_, cache) :: rest =>
      match cache !! url with
      | Some response => Some response
      | None => cachesMatch url rest
      end
  end.

(** [cache.put] for each of [entries], in the cache called [name]. *)
Definition putAll (name : string) (entries : list (string * R)) (caches : Storage) : Storage :=
  List.map (fun entry =>
              if String.eqb (fst entry) name
              then (fst entry,
                    fold_left (fun cache kv => <[fst kv := snd kv]> cache) entries (snd entry))
              else entry) caches.

(** The responses of all of [urls], or nothing when one of them fails. *)
Fixpoint fetchAll (network : string -> option R) (urls : list string)
    : option (list (string * R)) :=
  match urls with
  | [] => Some []
  | url :: urls' =>
      match network url, fetchAll network urls' with
      | Some response, Some rest => Some ((url, response) :: rest)
      | _, _ => None
      end
  end.

(** The [install] listener: [cache.addAll] stores the static assets, all
    of them or none.  [resolve path] is the address of [path] relative to
    the location of the worker, and [network url] is the response fetched
    for [url] when it is ok. *)
Definition onInstall (resolve : string -> string) (network : string -> option R)
    (caches : Storage) : Storage :=
  let opened := open CACHE_NAME caches in
  match fetchAll network (List.map resolve STATIC_ASSETS) with
  | Some entries => putAll CACHE_NAME entries opened
  | None => opened
  end.

(** The [activate] listener: every cache with another name is deleted. *)
Definition onActivate (caches : Storage) : Storage :=
  fold_left (fun cs cacheName => delete cacheName cs)
    (List.filter (fun cacheName => negb (String.eqb cacheName CACHE_NAME)) (keys caches))
    caches.

(** What the [fetch] listener does with a request. *)
Inductive Handling : Type :=
| NotHandled               (* the listener returns, the browser goes on *)
| FromCache (response : R) (* [respondWith] the cached response *)
| FromNetwork.             (* [respondWith] [fetch(event.request)] *)

Definition onFetch (caches : Storage) (method url : string) : Handling :=
  if negb (String.eqb method "GET") then NotHandled
  else if JS.includes "googleapis.com" url || JS.includes "youtube.com" url then NotHandled
  else
    match cachesMatch url caches with
    | Some response => FromCache response
    | None => FromNetwork
    end.

End Caches.

End ServiceWorker.

(** * Properties *)

(** ** Setup screen: submitting the credentials *)

Module SetupFacts.

Import ApiKeySetup.

Lemma truthy_false_iff (s : string) : JS.truthy s = false <-> s = EmptyString.
Proof. destruct s; simpl; split; congruence. Qed.

Lemma truthy_true_iff (s : string) : JS.truthy s = true <-> s <> EmptyString.
Proof. destruct s; simpl; split; congruence. Qed.

(** The validation message of [handleSubmit]. *)
Definition missingKeys : Notice :=
  Notify "Missing API Keys" "Please enter both YouTube and Gemini API keys." true.

(** C5.  On the setup screen, a submission leads to the search screen if
    and only if both strings are non-empty after trimming.  In that case
    both trimmed values are in local storage under their two keys and are
    the keys of the controller, and a later start of the application finds
    them and opens on the search screen.  Otherwise the validation
    message is shown, the view is still the setup view, and local storage
    and the controller state are unchanged. *)
Theorem C5_submit_credentials (youtubeKey geminiKey : string) (p : Page) :
  Index.currentView (app p) = Index.setup ->
  let p' := handleSubmit youtubeKey geminiKey p in
  (Index.currentView (app p') = Index.search <->
     JS.trim youtubeKey <> EmptyString /\ JS.trim geminiKey <> EmptyString) /\
  (JS.trim youtubeKey <> EmptyString /\ JS.trim geminiKey <> EmptyString ->
     localStorage p' !! "youtube_api_key" = Some (JS.trim youtubeKey) /\
     localStorage p' !! "gemini_api_key" = Some (JS.trim geminiKey) /\
     Index.apiKeys (app p') =
       Some (Index.Keys (JS.trim youtubeKey) (JS.trim geminiKey)) /\
     Index.currentView (Index.mount (localStorage p') Index.initial) = Index.search) /\
  (JS.trim youtubeKey = EmptyString \/ JS.trim geminiKey = EmptyString ->
     toasts p' = (toasts p ++ [missingKeys])%list /\
     Index.currentView (app p') = Index.setup /\
     localStorage p' = localStorage p /\
     app p' = app p).
Proof.
  intros Hsetup p'. subst p'. unfold handleSubmit.
  destruct (JS.truthy (JS.trim youtubeKey)) eqn:Hy;
    destruct (JS.truthy (JS.trim geminiKey)) eqn:Hg; simpl.
  - apply truthy_true_iff in Hy as Hy'. apply truthy_true_iff in Hg as Hg'.
    split; [tauto |]. split.
    + intros _. rewrite lookup_insert_ne by discriminate.
      rewrite !lookup_insert_eq. repeat split; try reflexivity.
      unfold Index.mount.
      rewrite lookup_insert_ne by discriminate.
      rewrite !lookup_insert_eq. rewrite Hy, Hg. reflexivity.
    + intros [H | H]; contradiction.
  - apply truthy_false_iff in Hg.
    split; [rewrite Hsetup; split; [discriminate | tauto] |].
    split; [tauto |]. intros _. auto.
  - apply truthy_false_iff in Hy.
    split; [rewrite Hsetup; split; [discriminate | tauto] |].
    split; [tauto |]. intros _. auto.
  - apply truthy_false_iff in Hy.
    split; [rewrite Hsetup; split; [discriminate | tauto] |].
    split; [tauto |]. intros _. auto.
Qed.

(** The two scenarios of the specification: empty credentials on a fresh
    page, then "yt123" and "gm456". *)
Lemma C5_submit_credentials_witness :
  Index.currentView (app (start ∅)) = Index.setup /\
  (let p' := handleSubmit "yt123" "gm456" (start ∅) in
   Index.currentView (app p') = Index.search /\
   localStorage p' !! "youtube_api_key" = Some "yt123" /\
   localStorage p' !! "gemini_api_key" = Some "gm456") /\
  (let p' := handleSubmit EmptyString EmptyString (start ∅) in
   toasts p' = [missingKeys] /\ Index.currentView (app p') = Index.setup /\
   localStorage p' = ∅).
Proof.
  assert (Hfresh : Index.currentView (app (start ∅)) = Index.setup)
    by (vm_compute; reflexivity).
  split; [exact Hfresh |]. split.
  - destruct (C5_submit_credentials "yt123" "gm456" (start ∅) Hfresh)
      as (Hiff & Hstored & _).
    assert (Hne : JS.trim "yt123" <> EmptyString /\ JS.trim "gm456" <> EmptyString)
      by (split; discriminate).
    destruct (Hstored Hne) as (Hy & Hg & _).
    split; [apply Hiff, Hne |]. split; assumption.
  - destruct (C5_submit_credentials EmptyString EmptyString (start ∅) Hfresh)
      as (_ & _ & Hrej).
    destruct (Hrej (or_introl eq_refl)) as (Ht & Hv & Hs & _).
    split; [exact Ht |]. split; [exact Hv | exact Hs].
Defined.

End SetupFacts.

(** ** The controller: what the chat screen shows after a switch of video *)

Module ControllerFacts.

Import Transcript Pipeline Index App.

Definition videoA : VideoData := Video "vidA" "First video" "a.jpg" "About A" None.
Definition videoB : VideoData := Video "vidB" "Second video" "b.jpg" "About B" None.

(** A network on which only video A has a caption track. *)
Definition onlyA : World :=
  {| captions := fun videoId _ =>
       if String.eqb videoId "vidA"
       then Net.Resolved 200 (Net.Parsed "{..}" (Some ["trackA"]))
       else Net.Resolved 200 (Net.Parsed "{..}" (Some []));
     caption := fun _ _ => Net.Resolved 200 (Net.Opaque "[0:01] spoken in A");
     timedtext := fun _ => Net.Resolved 404 (Net.Opaque "not found");
     playerFrame := true |}.

Definition noDocument (_ : string) : Dom.Node := Dom.Text EmptyString.

Definition transcriptA : list TranscriptEntry :=
  [ {| text := "spoken in A"; duration := JS.zero; offset := JS.ofZ 1 |} ].

(** Chat with A, back, A's transcript arrives on the search screen, chat
    with B. *)
Definition lateArrival : list Event :=
  [ SubmitKeys "yt" "gm"; SearchSettled [videoA; videoB];
    ClickChat videoA; ClickBack; Settle 0; ClickChat videoB ].

(** Chat with A, back, chat with B, and only then A's transcript arrives
    (slot 0 of the tasks in flight is the one started for A). *)
Definition overtaken : list Event :=
  [ SubmitKeys "yt" "gm"; SearchSettled [videoA; videoB];
    ClickChat videoA; ClickBack; ClickChat videoB; Settle 0 ].

Definition screenAfter (evs : list Event) : option Screen :=
  option_map (fun c => render (state c)) (run noDocument onlyA (boot ∅) evs).

(** C1 (the code departs from the claim).  [handleChatWithVideo] selects
    the video and the chat view and leaves [videoTranscript] as it is,
    where [handlePlayVideo] resets it.  On a network where only video A has
    captions, both sequences of events above end on the chat screen of
    video B showing the transcript acquired for A, and a question asked
    there sends A's text to the chat endpoint. *)
Theorem C1_chat_shows_stale_transcript :
  (forall video st,
     videoTranscript (handleChatWithVideo video st) = videoTranscript st) /\
  (forall video st, videoTranscript (handlePlayVideo video st) = []) /\
  transcriptSet (autoLoadTranscript noDocument onlyA videoA (Some "yt")) = Some transcriptA /\
  transcriptSet (autoLoadTranscript noDocument onlyA videoB (Some "yt")) = None /\
  screenAfter lateArrival = Some (ChatScreen videoB transcriptA) /\
  screenAfter overtaken = Some (ChatScreen videoB transcriptA) /\
  JS.includes "spoken in A"
    (VideoChat.buildContext videoB
       (VideoChat.currentTranscript (VideoChat.initial videoB transcriptA))) = true.
Proof.
  split; [reflexivity |]. split; [reflexivity |].
  repeat split; vm_compute; reflexivity.
Qed.

End ControllerFacts.

(** ** The transcript loaders: which methods are tried *)

Module PipelineFacts.

Import Transcript Pipeline.

Abbreviation noDocument := ControllerFacts.noDocument.

#[local] Arguments parseTranscriptText : simpl never.
#[local] Arguments parseTranscriptXML : simpl never.

Ltac unfold_loader :=
  unfold loadTranscript, fetchTranscript, autoLoadTranscript,
    extractTranscriptFromPlayer, attempts, transcriptSet, Eff.returns,
    Eff.result, Eff.log, Net.fetch, Net.json, Net.text, welcomeToast.

(** The notifications a run shows: title, and whether it is the
    destructive variant. *)
Definition shown {A} (m : M A) : list (string * bool) :=
  flat_map (fun e => match e with Toast t _ d => [(t, d)] | _ => [] end) (Eff.log m).


Ltac run_loader :=
  repeat (simpl;
          match goal with
          | |- context [match ?x with _ => _ end] =>
              lazymatch x with
              | context [match _ with _ => _ end] => fail
              | _ => destruct x eqn:?
              end
          end);
  simpl.

Section Loaders.

Variable parseFromString : string -> Dom.Node.
Variable world : World.
Variable video : VideoData.

















End Loaders.


Definition someVideo : VideoData := Video "vid" "A video" "v.jpg" "About it" None.





End PipelineFacts.

(** ** Strings *)

Module StringFacts.

Lemma append_nil_r (s : string) : s ++ EmptyString = s.
Proof. induction s as [| a s IH]; simpl; [reflexivity | now rewrite IH]. Qed.

Lemma append_assoc (s t u : string) : (s ++ t) ++ u = s ++ (t ++ u).
Proof. induction s as [| a s IH]; simpl; [reflexivity | now rewrite IH]. Qed.

(** [forallb] on the characters of a string. *)
Fixpoint all (p : ascii -> bool) (s : string) : bool :=
  match s with
  | EmptyString => true
  | String a s' => p a && all p s'
  end.

Lemma all_append p s t : all p (s ++ t) = all p s && all p t.
Proof.
  induction s as [| a s IH]; simpl; [reflexivity |].
  now rewrite IH, andb_assoc.
Qed.

Lemma all_impl (p q : ascii -> bool) s :
  (forall a, p a = true -> q a = true) -> all p s = true -> all q s = true.
Proof.
  intros Hpq. induction s as [| a s IH]; simpl; [reflexivity |].
  intros [Ha Hs]%andb_true_iff. rewrite (Hpq a Ha). simpl. now apply IH.
Qed.

(** A needle that starts with a character absent from the haystack is not
    found. *)
Lemma includes_absent (c : ascii) (needle hay : string) :
  all (fun a => negb (Ascii.eqb c a)) hay = true ->
  JS.includes (String c needle) hay = false.
Proof.
  induction hay as [| a hay IH]; simpl; [reflexivity |].
  intros [Ha Hs]%andb_true_iff.
  destruct (ascii_dec c a) as [-> | Hne].
  - rewrite Ascii.eqb_refl in Ha. discriminate.
  - simpl. now apply IH.
Qed.

(** The digits of a number are digits. *)
Lemma all_digits_uint (u : Decimal.uint) :
  all JS.isDigit (NilEmpty.string_of_uint u) = true.
Proof. induction u; simpl; auto. Qed.

Lemma all_digits_showN (n : N) :
  all JS.isDigit (JS.showZ (Z.of_N n)) = true.
Proof.
  unfold JS.showZ. destruct n as [| p]; simpl; [reflexivity |].
  apply all_digits_uint.
Qed.

End StringFacts.

(** ** The notes file: transcript lines *)

Module NotesFacts.

Import Transcript Pipeline VideoPlayer StringFacts.

(** One exported line: [[formatTime(offset)] text]. *)
Definition transcriptLine (entry : TranscriptEntry) : string :=
  "[" ++ formatTime (offset entry) ++ "] " ++ text entry.

(** What [createNoteContent] writes before the transcript. *)
Definition noteHead (video : VideoData) (notes currentDate : string) : string :=
  ("NOTES ON YOUTUBE VIDEO" ++ nl ++ rule ++ nl ++ nl ++
   "Video Title: " ++ title video ++ nl ++
   "Video URL: " ++ "https://www.youtube.com/watch?v=" ++ id video ++ nl ++
   "Date Notes Taken: " ++ currentDate ++ nl ++ nl ++ rule ++ nl ++ nl) ++
  (if JS.truthy (JS.trim notes)
   then "YOUR NOTES:" ++ nl ++ notes ++ nl ++ nl ++ rule ++ nl ++ nl
   else EmptyString).

Example formatTime_65 : formatTime (JS.ofZ 65) = "1:05".
Proof. reflexivity. Qed.

Example formatTime_fraction : formatTime (JS.parseFloat "754.9") = "12:34".
Proof. reflexivity. Qed.

Example formatTime_NaN : formatTime JS.NaN = "NaN:NaN".
Proof. reflexivity. Qed.

Lemma appendEntry_line content entry :
  appendEntry content entry = content ++ (transcriptLine entry ++ nl).
Proof.
  unfold appendEntry, transcriptLine, formatTime.
  now rewrite !append_assoc.
Qed.

Lemma forEach_appendEntry transcript content :
  fold_left appendEntry transcript content
    = content ++ String.concat EmptyString
                   (List.map (fun e => transcriptLine e ++ nl) transcript).
Proof.
  revert content. induction transcript as [| e t IH]; intros content.
  - simpl. now rewrite append_nil_r.
  - cbn [fold_left List.map]. rewrite IH, appendEntry_line, append_assoc.
    f_equal. destruct t as [| e' t]; simpl.
    + now rewrite append_nil_r.
    + reflexivity.
Qed.

(** Terminating every line is joining the lines and terminating the last. *)
Lemma lines_joined (lines : list string) :
  lines <> [] ->
  String.concat EmptyString (List.map (fun l => l ++ nl) lines)
    = JS.join nl lines ++ nl.
Proof.
  unfold JS.join. induction lines as [| l ls IH]; [congruence |]. intros _.
  destruct ls as [| l' ls].
  - reflexivity.
  - cbn [List.map String.concat] in *.
    rewrite IH by discriminate. simpl. now rewrite !append_assoc.
Qed.

Lemma createNoteContent_sections video notes transcript currentDate :
  createNoteContent video notes transcript currentDate
    = noteHead video notes currentDate ++
      match transcript with
      | [] => EmptyString
      | _ => "VIDEO TRANSCRIPT:" ++ nl ++
             JS.join nl (List.map transcriptLine transcript) ++ nl ++
             nl ++ rule ++ nl
      end ++
      "Generated by PrivateTube AI".
Proof.
  unfold createNoteContent, noteHead.
  destruct transcript as [| e t].
  - cbn [List.length Nat.ltb Nat.leb]. destruct (JS.truthy (JS.trim notes)).
    + now rewrite !append_assoc.
    + now rewrite !append_assoc.
  - change (0 <? List.length (e :: t))%nat with true. cbv iota.
    rewrite forEach_appendEntry.
    rewrite <- (List.map_map transcriptLine (fun l => l ++ nl)).
    rewrite lines_joined by discriminate.
    destruct (JS.truthy (JS.trim notes)); now rewrite !append_assoc.
Qed.

(** C6.  For a transcript produced by the XML parser, the exported file
    is the head of the file, then (when the transcript is not empty) the
    title of the transcript section, the lines
    [[formatTime(offset)] text] of the segments in sequence order, joined
    and ended by a line feed, and the closing rule, then the signature. *)
Theorem C6_exported_transcript_lines
    (parseFromString : string -> Dom.Node) (xmlText : string)
    (video : VideoData) (notes currentDate : string) :
  let transcript := parseTranscriptXML parseFromString xmlText in
  createNoteContent video notes transcript currentDate
    = noteHead video notes currentDate ++
      match transcript with
      | [] => EmptyString
      | _ => "VIDEO TRANSCRIPT:" ++ nl ++
             JS.join nl (List.map transcriptLine transcript) ++ nl ++
             nl ++ rule ++ nl
      end ++
      "Generated by PrivateTube AI".
Proof. intros transcript. apply createNoteContent_sections. Qed.

End NotesFacts.

(** ** The chat screen: the prompt and the error messages *)

Module ChatFacts.

Import Transcript Pipeline VideoChat StringFacts.

#[local] Arguments buildPrompt : simpl never.
#[local] Arguments buildContext : simpl never.
#[local] Arguments describeError : simpl never.
#[local] Arguments statusMessage : simpl never.
#[local] Arguments showStatus : simpl never.

Lemma trim_truthy (k : string) : JS.truthy (JS.trim k) = true -> JS.truthy k = true.
Proof. destruct k; [discriminate | reflexivity]. Qed.

(** The guards of [sendMessage]: something to send, no request pending, and
    a stored key that is not blank. *)
Definition ready (st : State) (geminiKey : option string) (key : string) : Prop :=
  JS.truthy (JS.trim (input st)) = true /\
  isLoading st = false /\
  geminiKey = Some key /\
  JS.truthy (JS.trim key) = true.

Definition promptOf (video : VideoData) (st : State) : string :=
  buildPrompt (buildContext video (currentTranscript st)) (JS.trim (input st)).

Section Send.

Variable generateContent : string -> RequestBody -> Net.Response Gemini.Data.
Variable video : VideoData.
Variable st : State.
Variables now now1 : string.

Ltac start_send Hready :=
  destruct Hready as (Hin & Hload & -> & Hkey);
  pose proof (trim_truthy _ Hkey) as Hkey';
  unfold sendMessage, requests, toastsShown, Eff.log, Net.fetch, Net.text, Net.json,
    Gemini.candidateText;
  rewrite Hin, Hload, Hkey, Hkey'; simpl.

Lemma requests_ready geminiKey key :
  ready st geminiKey key ->
  requests (sendMessage generateContent video st geminiKey now now1)
    = [(key, [[promptOf video st]])].
Proof.
  intros Hready. start_send Hready. fold (promptOf video st).
  destruct (generateContent key [[promptOf video st]]) as [msg | status body];
    simpl; [reflexivity |].
  destruct (Net.ok status); simpl; destruct body as [| ? | ? []]; reflexivity.
Qed.

Lemma requests_any geminiKey :
  forall rq,
    In rq (requests (sendMessage generateContent video st geminiKey now now1)) ->
    snd rq = [[promptOf video st]].
Proof.
  intros rq.
  unfold sendMessage, requests, Eff.log, Net.fetch, Net.text, Net.json,
    Gemini.candidateText.
  fold (promptOf video st).
  destruct (negb (JS.truthy (JS.trim (input st))) || isLoading st);
    simpl; [tauto |].
  destruct geminiKey as [k |]; simpl; [| tauto].
  destruct (JS.truthy k); simpl; [| tauto].
  destruct (JS.truthy (JS.trim k)); simpl; [| tauto].
  destruct (generateContent k [[promptOf video st]]) as [msg | status body]; simpl.
  - intros [<- | []]. reflexivity.
  - destruct (Net.ok status); simpl; destruct body as [| ? | ? []]; simpl;
      intros [<- | []]; reflexivity.
Qed.

Lemma toast_not_ok geminiKey key status body :
  ready st geminiKey key ->
  generateContent key [[promptOf video st]] = Net.Resolved status body ->
  Net.ok status = false ->
  body <> Net.Unreadable ->
  toastsShown (sendMessage generateContent video st geminiKey now now1)
    = [("Chat Error",
        describeError (statusMessage status ++ " (Status: " ++ showStatus status ++ ")"))].
Proof.
  intros Hready Hresp Hok Hbody. start_send Hready. fold (promptOf video st).
  rewrite Hresp. simpl. rewrite Hok. simpl.
  destruct body; [congruence | reflexivity | reflexivity].
Qed.

(** The body of an answer that is not ok is read before the message is
    chosen: when the read fails, its error is the one shown. *)
Lemma toast_unreadable geminiKey key status :
  ready st geminiKey key ->
  generateContent key [[promptOf video st]] = Net.Resolved status Net.Unreadable ->
  Net.ok status = false ->
  toastsShown (sendMessage generateContent video st geminiKey now now1)
    = [("Chat Error", "Network error. Please check your internet connection.")].
Proof.
  intros Hready Hresp Hok. start_send Hready. fold (promptOf video st).
  rewrite Hresp. simpl. rewrite Hok. reflexivity.
Qed.

End Send.

(** The context starts with the title and the description and ends with
    the transcript section exactly when there is a transcript. *)
Lemma buildContext_shape (video : VideoData) (transcript : list TranscriptEntry) :
  buildContext video transcript
    = "YouTube Video: " ++ dq ++ title video ++ dq ++ nl ++
      "Description: " ++ description video ++
      match transcript with
      | [] => EmptyString
      | _ => nl ++ nl ++ "Video Transcript: " ++ JS.join " " (List.map text transcript)
      end.
Proof.
  unfold buildContext. destruct transcript as [| e t].
  - simpl. now rewrite ?append_assoc, ?append_nil_r.
  - change (0 <? List.length (e :: t))%nat with true. cbv iota.
    now rewrite ?append_assoc.
Qed.

(** C7.  Every request a chat turn sends has one content with one part,
    the prompt; a turn that passes the guards sends exactly one request.
    The prompt is the fixed instructions around the context and the
    trimmed question; the context is the title and the description,
    followed, exactly when the transcript is not empty, by the section
    "Video Transcript: " with the texts of the segments in order, joined
    by single spaces.  The messages of the conversation are not read. *)
Theorem C7_prompt_contents
    (generateContent : string -> RequestBody -> Net.Response Gemini.Data)
    (video : VideoData) (st : State) (geminiKey : option string)
    (now now1 : string) :
  let context :=
    "YouTube Video: " ++ dq ++ title video ++ dq ++ nl ++
    "Description: " ++ description video ++
    match currentTranscript st with
    | [] => EmptyString
    | _ => nl ++ nl ++ "Video Transcript: " ++
           JS.join " " (List.map text (currentTranscript st))
    end in
  let prompt :=
    "You are an AI assistant helping someone understand a YouTube video. " ++ nl ++
    nl ++ "Context:" ++ nl ++ context ++ nl ++
    nl ++ "User Question: " ++ JS.trim (input st) ++ nl ++
    nl ++ "Please provide a helpful, accurate response based on the video content. If the question is about specific details and you have transcript access, use that information. If not, answer based on the title and description. Be conversational and helpful." in
  (forall rq,
     In rq (requests (sendMessage generateContent video st geminiKey now now1)) ->
     snd rq = [[prompt]]) /\
  (forall key,
     ready st geminiKey key ->
     requests (sendMessage generateContent video st geminiKey now now1)
       = [(key, [[prompt]])]) /\
  (forall history,
     requests (sendMessage generateContent video (setMessages history st) geminiKey now now1)
       = requests (sendMessage generateContent video st geminiKey now now1)).
Proof.
  intros context prompt.
  assert (Hprompt : promptOf video st = prompt).
  { unfold promptOf, prompt, context. rewrite buildContext_shape. reflexivity. }
  rewrite <- Hprompt. split; [| split].
  - apply requests_any.
  - intros key Hready. now apply requests_ready.
  - intros history. reflexivity.
Qed.

Definition asking (question : string) (transcript : list TranscriptEntry) : State :=
  setInput question (initial ControllerFacts.videoA transcript).

Definition twoSegments : list TranscriptEntry :=
  [ {| text := "good morning"; duration := JS.ofZ 2; offset := JS.zero |};
    {| text := "everyone"; duration := JS.ofZ 1; offset := JS.ofZ 2 |} ].

(** A turn with a transcript of two segments, and one without. *)
Lemma C7_prompt_contents_witness :
  ready (asking "what is said?" twoSegments) (Some "gm") "gm" /\
  (exists body,
     requests (sendMessage (fun _ _ => Net.Rejected "Failed to fetch")
                 ControllerFacts.videoA (asking " what is said? " twoSegments)
                 (Some "gm") "1" "2") = [("gm", [[body]])] /\
     JS.includes "Video Transcript: good morning everyone" body = true /\
     JS.includes "User Question: what is said?" body = true) /\
  (exists body,
     requests (sendMessage (fun _ _ => Net.Rejected "Failed to fetch")
                 ControllerFacts.videoA (asking "what is said?" [])
                 (Some "gm") "1" "2") = [("gm", [[body]])] /\
     JS.includes "Video Transcript" body = false).
Proof.
  split; [repeat split; reflexivity |]. split.
  - pose proof (C7_prompt_contents (fun _ _ => Net.Rejected "Failed to fetch")
                  ControllerFacts.videoA (asking " what is said? " twoSegments)
                  (Some "gm") "1" "2") as H.
    cbv zeta in H. destruct H as (_ & Hsend & _).
    eexists. split.
    + apply Hsend. repeat split; reflexivity.
    + split; vm_compute; reflexivity.
  - pose proof (C7_prompt_contents (fun _ _ => Net.Rejected "Failed to fetch")
                  ControllerFacts.videoA (asking "what is said?" [])
                  (Some "gm") "1" "2") as H.
    cbv zeta in H. destruct H as (_ & Hsend & _).
    eexists. split.
    + apply Hsend. repeat split; reflexivity.
    + vm_compute; reflexivity.
Defined.

(** The description of the toast for a response that is not ok. *)
Definition chatError (status : N) : string :=
  statusMessage status ++ " (Status: " ++ showStatus status ++ ")".

Lemma statusMessage_other (status : N) :
  status <> 400%N -> status <> 401%N -> status <> 403%N ->
  status <> 429%N -> status <> 500%N ->
  statusMessage status = "Failed to get AI response".
Proof.
  intros H1 H2 H3 H4 H5. unfold statusMessage.
  apply N.eqb_neq in H1, H2, H3, H4, H5.
  now rewrite H1, H2, H3, H4, H5.
Qed.

Lemma no_f_in_status (status : N) :
  all (fun a => negb (Ascii.eqb "f" a)) (showStatus status) = true.
Proof.
  unfold showStatus. eapply all_impl; [| apply all_digits_showN].
  intros a Ha. destruct (Ascii.eqb_spec "f" a) as [<- | _]; [discriminate | reflexivity].
Qed.

(** The [catch] block shows the message thrown for the status as it is:
    three of the messages mention the API key, and none of the others, nor
    the digits of a status, contains "fetch". *)
Lemma describeError_status (status : N) :
  describeError (chatError status) = chatError status.
Proof.
  destruct (N.eq_dec status 400%N) as [-> | H1]; [reflexivity |].
  destruct (N.eq_dec status 401%N) as [-> | H2]; [reflexivity |].
  destruct (N.eq_dec status 403%N) as [-> | H3]; [reflexivity |].
  destruct (N.eq_dec status 429%N) as [-> | H4]; [reflexivity |].
  destruct (N.eq_dec status 500%N) as [-> | H5]; [reflexivity |].
  unfold chatError. rewrite (statusMessage_other status H1 H2 H3 H4 H5).
  unfold describeError.
  match goal with |- (if ?c then _ else _) = _ => destruct c; [reflexivity |] end.
  rewrite includes_absent; [reflexivity |].
  rewrite !all_append, no_f_in_status. reflexivity.
Qed.

(** The message of the claim: the one chosen by the status. *)
Definition claimedToast (status : N) : string * string :=
  ("Chat Error", statusMessage status ++ " (Status: " ++ showStatus status ++ ")").

(** An endpoint that answers with [status] and a body that cannot be
    read. *)
Definition unreadable (status : N) (key : string) (body : RequestBody)
    : Net.Response Gemini.Data :=
  Net.Resolved status Net.Unreadable.

(** C9, as stated, fails.  [sendMessage] awaits [response.text()] before it
    chooses the message; when the body of an answer that is not ok cannot
    be read, the toast shows the failure of the read, the same for 429 and
    for 500, and not the message of the status. *)
Lemma C9_counterexample :
  toastsShown (sendMessage (unreadable 429) ControllerFacts.videoA
                 (asking "what is said?" []) (Some "gm") "1" "2")
    = [("Chat Error", "Network error. Please check your internet connection.")] /\
  toastsShown (sendMessage (unreadable 500) ControllerFacts.videoA
                 (asking "what is said?" []) (Some "gm") "1" "2")
    = [("Chat Error", "Network error. Please check your internet connection.")] /\
  claimedToast 429
    = ("Chat Error", "Rate limit exceeded. Please wait a moment and try again. (Status: 429)") /\
  toastsShown (sendMessage (unreadable 429) ControllerFacts.videoA
                 (asking "what is said?" []) (Some "gm") "1" "2")
    <> [claimedToast 429].
Proof.
  split; [reflexivity |]. split; [reflexivity |]. split; [reflexivity |].
  vm_compute. discriminate.
Qed.

(** C9, amended.  When the endpoint answers with a status that is not
    2xx, the chat shows one toast, "Chat Error".  When the body of the
    answer can be read, its description is the message chosen by the
    status and the status itself; when the body cannot be read, it is the
    message for a failed fetch, whatever the status.  The messages for
    400, 401, 403, 429 and 500 and the message for every other status are
    six different texts. *)
Theorem C9_error_message_by_status
    (generateContent : string -> RequestBody -> Net.Response Gemini.Data)
    (video : VideoData) (st : State) (geminiKey : option string) (key : string)
    (now now1 : string) (status : N) (body : Net.Body Gemini.Data) :
  ready st geminiKey key ->
  generateContent key [[promptOf video st]] = Net.Resolved status body ->
  Net.ok status = false ->
  toastsShown (sendMessage generateContent video st geminiKey now now1)
    = [("Chat Error",
        match body with
        | Net.Unreadable => "Network error. Please check your internet connection."
        | _ => statusMessage status ++ " (Status: " ++ showStatus status ++ ")"
        end)] /\
  statusMessage 400 = "Invalid request to Gemini API. Please check your API key format." /\
  statusMessage 401 = "Unauthorized. Your Gemini API key is invalid or expired." /\
  statusMessage 403 =
    "Access denied. Your Gemini API key may not have the required permissions." /\
  statusMessage 429 = "Rate limit exceeded. Please wait a moment and try again." /\
  statusMessage 500 = "Gemini API server error. Please try again later." /\
  (status <> 400%N -> status <> 401%N -> status <> 403%N ->
   status <> 429%N -> status <> 500%N ->
   statusMessage status = "Failed to get AI response") /\
  List.NoDup [statusMessage 400; statusMessage 401; statusMessage 403;
              statusMessage 429; statusMessage 500; "Failed to get AI response"].
Proof.
  intros Hready Hresp Hok. split.
  - assert (Hread : body <> Net.Unreadable ->
              toastsShown (sendMessage generateContent video st geminiKey now now1)
                = [("Chat Error", chatError status)]).
    { intros Hbody.
      rewrite (toast_not_ok generateContent video st now now1 geminiKey key status body)
        by assumption.
      fold (chatError status). now rewrite describeError_status. }
    destruct body as [| raw | raw value].
    + now apply (toast_unreadable generateContent video st now now1 geminiKey key status).
    + apply Hread. discriminate.
    + apply Hread. discriminate.
  - repeat (split; [reflexivity |]). split; [apply statusMessage_other |].
    repeat (apply List.NoDup_cons; [vm_compute; intuition discriminate |]).
    apply List.NoDup_nil.
Qed.

(** A rate-limited answer, with a body and with a body that cannot be
    read. *)
Lemma C9_error_message_by_status_witness :
  ready (asking "what is said?" []) (Some "gm") "gm" /\
  Net.ok 429 = false /\
  toastsShown (sendMessage (fun _ _ => Net.Resolved 429 (Net.Opaque "quota"))
                 ControllerFacts.videoA (asking "what is said?" []) (Some "gm") "1" "2")
    = [("Chat Error",
        "Rate limit exceeded. Please wait a moment and try again. (Status: 429)")] /\
  toastsShown (sendMessage (unreadable 429)
                 ControllerFacts.videoA (asking "what is said?" []) (Some "gm") "1" "2")
    = [("Chat Error", "Network error. Please check your internet connection.")].
Proof.
  assert (Hready : ready (asking "what is said?" []) (Some "gm") "gm")
    by (repeat split; reflexivity).
  split; [exact Hready |]. split; [reflexivity |]. split.
  - pose proof (C9_error_message_by_status
                  (fun _ _ => Net.Resolved 429 (Net.Opaque "quota"))
                  ControllerFacts.videoA (asking "what is said?" []) (Some "gm") "gm"
                  "1" "2" 429%N (Net.Opaque "quota") Hready eq_refl eq_refl) as (H & _).
    exact H.
  - pose proof (C9_error_message_by_status (unreadable 429)
                  ControllerFacts.videoA (asking "what is said?" []) (Some "gm") "gm"
                  "1" "2" 429%N Net.Unreadable Hready eq_refl eq_refl) as (H & _).
    exact H.
Defined.

End ChatFacts.

(** ** The parsers: one segment per fragment, in the order of the payload *)

Module ParserFacts.

Import Transcript StringFacts.

(** The loop over the elements pushes the entry of each element, in order. *)
Lemma xmlLoop_map (seen rest : list Dom.Node) (entries : list TranscriptEntry) :
  xmlLoop (seen ++ rest) (List.length rest) (List.length seen) entries
    = (entries ++ List.map entryOfElement rest)%list.
Proof.
  revert seen entries. induction rest as [| element rest IH]; intros seen entries.
  - simpl. now rewrite List.app_nil_r.
  - cbn [List.length xmlLoop].
    rewrite List.nth_error_app2 by lia. rewrite Nat.sub_diag. cbn [nth_error].
    replace (seen ++ element :: rest)%list with ((seen ++ [element]) ++ rest)%list
      by now rewrite <- List.app_assoc.
    replace (S (List.length seen)) with (List.length (seen ++ [element])%list)
      by (rewrite List.length_app; simpl; lia).
    rewrite IH. now rewrite <- List.app_assoc.
Qed.

Lemma parseTranscriptXML_map (parseFromString : string -> Dom.Node) (xmlText : string) :
  parseTranscriptXML parseFromString xmlText
    = List.map entryOfElement
        (Dom.getElementsByTagName (parseFromString xmlText) "text").
Proof.
  unfold parseTranscriptXML.
  exact (xmlLoop_map [] _ []).
Qed.

(** The loop over the lines pushes the entries of each line, in order. *)
Lemma forOf_lines (lines : list string) (entries : list TranscriptEntry) :
  fold_left (fun entries line => (entries ++ lineEntries line)%list) lines entries
    = (entries ++ List.flat_map lineEntries lines)%list.
Proof.
  revert entries. induction lines as [| line lines IH]; intros entries; simpl.
  - now rewrite List.app_nil_r.
  - rewrite IH. now rewrite <- List.app_assoc.
Qed.

Lemma parseTranscriptText_plain (parseFromString : string -> Dom.Node) (text : string) :
  JS.includes "<transcript>" text = false ->
  parseTranscriptText parseFromString text
    = List.flat_map lineEntries (JS.split JS.LF text).
Proof.
  intros Hplain. unfold parseTranscriptText. rewrite Hplain.
  exact (forOf_lines _ []).
Qed.

(** A line: a string without line feed. *)
Definition isLine (s : string) : Prop :=
  all (fun a => negb (Ascii.eqb a JS.LF)) s = true.

Lemma split_line (line : string) : isLine line -> JS.split JS.LF line = [line].
Proof.
  unfold isLine. induction line as [| a line IH]; simpl; [reflexivity |].
  intros [Ha Hl]%andb_true_iff. apply negb_true_iff in Ha. rewrite Ha.
  now rewrite (IH Hl).
Qed.

Lemma split_line_feed (line rest : string) :
  isLine line ->
  JS.split JS.LF (line ++ String JS.LF rest) = line :: JS.split JS.LF rest.
Proof.
  unfold isLine. induction line as [| a line IH]; simpl; [reflexivity |].
  intros [Ha Hl]%andb_true_iff. apply negb_true_iff in Ha. rewrite Ha.
  now rewrite (IH Hl).
Qed.

(** Splitting the joined lines gives the lines back. *)
Lemma split_join (lines : list string) :
  lines <> [] -> Forall isLine lines ->
  JS.split JS.LF (JS.join (JS.str JS.LF) lines) = lines.
Proof.
  unfold JS.join. induction lines as [| line lines IH]; [congruence |].
  intros _ Hall. inversion Hall as [| ? ? Hline Hlines]; subst.
  destruct lines as [| line' lines].
  - simpl. now apply split_line.
  - cbn [String.concat]. unfold JS.str at 1.
    change (String JS.LF EmptyString ++ ?r) with (String JS.LF r).
    rewrite (split_line_feed _ _ Hline).
    f_equal. apply IH; [discriminate | assumption].
Qed.

Lemma parseTranscriptText_lines (parseFromString : string -> Dom.Node)
    (lines : list string) :
  Forall isLine lines ->
  JS.includes "<transcript>" (JS.join (JS.str JS.LF) lines) = false ->
  parseTranscriptText parseFromString (JS.join (JS.str JS.LF) lines)
    = List.flat_map lineEntries lines.
Proof.
  intros Hlines Hplain. rewrite parseTranscriptText_plain by assumption.
  destruct lines as [| line lines]; [reflexivity |].
  now rewrite split_join.
Qed.

End ParserFacts.

(** ** The XML form: one segment per element *)

Module XmlFacts.

Import Transcript StringFacts ParserFacts.

(** How a numeric field relates to the attribute [name] of the element:
    [0] when the attribute is absent or empty, and the number it
    starts with when there is one. *)
Definition numberOfAttribute (element : Dom.Node) (name : string) (value : JS.number) : Prop :=
  match Dom.getAttribute element name with
  | None | Some EmptyString => value = JS.zero
  | Some s => JS.parseFloat s <> JS.NaN -> value = JS.parseFloat s
  end.

Definition segmentOf (element : Dom.Node) (entry : TranscriptEntry) : Prop :=
  text entry = Dom.textContent element /\
  numberOfAttribute element "start" (offset entry) /\
  numberOfAttribute element "dur" (duration entry).

Lemma orElse_empty (s : string) : JS.orElse s EmptyString = s.
Proof. destruct s; reflexivity. Qed.

Lemma numberOfAttribute_parse (element : Dom.Node) (name : string) :
  numberOfAttribute element name
    (JS.parseFloat (attrOr (Dom.getAttribute element name) "0")).
Proof.
  unfold numberOfAttribute, attrOr.
  destruct (Dom.getAttribute element name) as [[| a s] |];
    first [reflexivity | intros _; reflexivity].
Qed.

Lemma segmentOf_entry (element : Dom.Node) : segmentOf element (entryOfElement element).
Proof.
  unfold segmentOf, entryOfElement. cbn [text offset duration].
  rewrite orElse_empty. split; [reflexivity |].
  split; apply numberOfAttribute_parse.
Qed.

(** The XML rule as the specification words it: a number defaults to [0]
    when the attribute is absent or not numeric, and a segment whose text
    is empty is dropped. *)
Definition claimedNumber (attribute : option string) : JS.number :=
  match attribute with
  | Some s => match JS.parseFloat s with JS.NaN => JS.zero | v => v end
  | None => JS.zero
  end.

Definition claimedXML (xmlDoc : Dom.Node) : list TranscriptEntry :=
  List.filter (fun entry => JS.truthy (text entry))
    (List.map (fun element =>
                 {| text := Dom.textContent element;
                    duration := claimedNumber (Dom.getAttribute element "dur");
                    offset := claimedNumber (Dom.getAttribute element "start") |})
              (Dom.getElementsByTagName xmlDoc "text")).

(** A transcript whose first fragment is silent:
    [<transcript><text start="1" dur="2"></text>
                 <text start="3" dur="1">hello</text></transcript>] *)
Definition silentFirst : Dom.Node :=
  Dom.Element "transcript" []
    [ Dom.Element "text" [("start", "1"); ("dur", "2")] [];
      Dom.Element "text" [("start", "3"); ("dur", "1")] [Dom.Text "hello"] ].

(** C3, as stated, fails: the element without text yields a segment with
    the empty text, which stays in the result. *)
Lemma C3_counterexample :
  parseTranscriptXML (fun _ => silentFirst) "<transcript>..</transcript>"
    = [ {| text := EmptyString; duration := JS.ofZ 2; offset := JS.ofZ 1 |};
        {| text := "hello"; duration := JS.ofZ 1; offset := JS.ofZ 3 |} ] /\
  claimedXML silentFirst
    = [ {| text := "hello"; duration := JS.ofZ 1; offset := JS.ofZ 3 |} ] /\
  parseTranscriptXML (fun _ => silentFirst) "<transcript>..</transcript>"
    <> claimedXML silentFirst.
Proof.
  split; [vm_compute; reflexivity |]. split; [vm_compute; reflexivity |].
  vm_compute. discriminate.
Qed.

(** An attribute that is present and not a number is not replaced by [0]:
    [<text start="soon" dur="2">hi</text>] has the offset [NaN]. *)
Lemma parseTranscriptXML_not_numeric :
  parseTranscriptXML
    (fun _ => Dom.Element "text" [("start", "soon"); ("dur", "2")] [Dom.Text "hi"])
    "<text ..>hi</text>"
    = [ {| text := "hi"; duration := JS.ofZ 2; offset := JS.NaN |} ].
Proof. vm_compute. reflexivity. Qed.

(** C3, amended.  The XML parser produces exactly one segment per element
    named [text], in document order, and drops none: the text of the
    segment is the text content of the element, empty or not; its offset
    and its duration are [0] when the attribute [start], respectively
    [dur], is absent or empty, and the number the attribute starts with
    when there is one. *)
Theorem C3_xml_one_segment_per_element
    (parseFromString : string -> Dom.Node) (xmlText : string) :
  List.length (parseTranscriptXML parseFromString xmlText)
    = List.length (Dom.getElementsByTagName (parseFromString xmlText) "text") /\
  Forall2 segmentOf
    (Dom.getElementsByTagName (parseFromString xmlText) "text")
    (parseTranscriptXML parseFromString xmlText).
Proof.
  rewrite parseTranscriptXML_map. split; [apply List.length_map |].
  induction (Dom.getElementsByTagName (parseFromString xmlText) "text")
    as [| element elements IH]; simpl; constructor.
  - apply segmentOf_entry.
  - exact IH.
Qed.

End XmlFacts.

(** ** Order of the segments *)

Module OrderFacts.

Import Transcript StringFacts ParserFacts.

(** Non-decreasing, with the comparison [<=] of JavaScript. *)
Fixpoint nonDecreasing (l : list JS.number) : bool :=
  match l with
  | x :: (y :: _) as rest => JS.le x y && nonDecreasing rest
  | _ => true
  end.

Definition offsets (t : list TranscriptEntry) : list JS.number := List.map offset t.

Definition outOfOrder : string :=
  "[1:05] second thought" ++ JS.str JS.LF ++ "[0:10] first thought".

(** C8, as stated, fails: the offsets follow the payload, sorted or not. *)
Lemma C8_counterexample :
  offsets (parseTranscriptText ControllerFacts.noDocument outOfOrder)
    = [JS.ofZ 65; JS.ofZ 10] /\
  nonDecreasing (offsets (parseTranscriptText ControllerFacts.noDocument outOfOrder))
    = false.
Proof. split; vm_compute; reflexivity. Qed.

(** C8, amended.  The segments come in the order of the fragments of the
    payload and are not sorted: the XML parser gives the entries of the
    [text] elements in document order, the line parser the entries of the
    lines in line order.  Hence the offsets are non-decreasing exactly
    when those of the payload are. *)
Theorem C8_segments_in_payload_order (parseFromString : string -> Dom.Node) :
  (forall xmlText,
     let elements := Dom.getElementsByTagName (parseFromString xmlText) "text" in
     parseTranscriptXML parseFromString xmlText = List.map entryOfElement elements /\
     nonDecreasing (offsets (parseTranscriptXML parseFromString xmlText))
       = nonDecreasing (List.map (fun element => offset (entryOfElement element)) elements)) /\
  (forall lines,
     Forall isLine lines ->
     JS.includes "<transcript>" (JS.join (JS.str JS.LF) lines) = false ->
     parseTranscriptText parseFromString (JS.join (JS.str JS.LF) lines)
       = List.flat_map lineEntries lines).
Proof.
  split.
  - intros xmlText elements. subst elements.
    rewrite parseTranscriptXML_map. split; [reflexivity |].
    unfold offsets. now rewrite List.map_map.
  - intros lines Hlines Hplain. now apply parseTranscriptText_lines.
Qed.

(** Three lines, the second without a timestamp, the third earlier than
    the first. *)
Lemma C8_segments_in_payload_order_witness :
  Forall isLine ["[1:05] second thought"; "(aside)"; "[0:10] first thought"] /\
  parseTranscriptText ControllerFacts.noDocument
    (JS.join (JS.str JS.LF) ["[1:05] second thought"; "(aside)"; "[0:10] first thought"])
  = [ {| text := "second thought"; duration := JS.zero; offset := JS.ofZ 65 |};
      {| text := "first thought"; duration := JS.zero; offset := JS.ofZ 10 |} ].
Proof.
  assert (Hlines : Forall isLine
            ["[1:05] second thought"; "(aside)"; "[0:10] first thought"])
    by (repeat constructor).
  split; [exact Hlines |].
  destruct (C8_segments_in_payload_order ControllerFacts.noDocument) as (_ & Htext).
  rewrite (Htext _ Hlines eq_refl). vm_compute. reflexivity.
Defined.

End OrderFacts.

(** ** The timestamp pattern *)

Module TimestampFacts.

Import Transcript StringFacts ParserFacts.

#[local] Arguments JS.isDigit : simpl never.
#[local] Arguments JS.isWhiteSpace : simpl never.
#[local] Arguments Regex.anyOf : simpl never.

Definition isOpen (a : ascii) : bool := Regex.anyOf "[(" a.
Definition isClose (a : ascii) : bool := Regex.anyOf "])" a.
Definition isColon (a : ascii) : bool := Regex.anyOf ":" a.

(** *** Repetitions of the two patterns, unfolded *)

Section Rep.
Context {A : Type}.
Variable c : ascii -> bool.
Variable k : string -> string -> option A.

Lemma rep_done taken s : Regex.rep c 0 (Some 0) taken s k = k taken s.
Proof. destruct s; reflexivity. Qed.

Lemma rep_once a s :
  Regex.rep c 1 (Some 1) EmptyString (String a s) k
    = if c a then k (JS.str a) s else None.
Proof.
  cbn [Regex.rep Regex.mayTakeMore andb Nat.pred option_map].
  destruct (c a); [| reflexivity].
  rewrite rep_done. simpl. now destruct (k (JS.str a) s).
Qed.

Lemma rep_twice s :
  Regex.rep c 2 (Some 2) EmptyString s k
    = match s with
      | String a (String b s') =>
          if c a && c b then k (String a (JS.str b)) s' else None
      | _ => None
      end.
Proof.
  destruct s as [| a [| b s']]; cbn [Regex.rep Regex.mayTakeMore andb Nat.pred option_map].
  - reflexivity.
  - now destruct (c a).
  - destruct (c a); [| reflexivity]. destruct (c b); simpl; [| reflexivity].
    rewrite rep_done. simpl. now destruct (k (String a (JS.str b)) s').
Qed.

Lemma rep_once_or_twice a s :
  Regex.rep c 1 (Some 2) EmptyString (String a s) k
    = if c a then
        match s with
        | String b s' =>
            if c b then
              match k (String a (JS.str b)) s' with
              | Some r => Some r
              | None => k (JS.str a) s
              end
            else k (JS.str a) s
        | EmptyString => k (JS.str a) EmptyString
        end
      else None.
Proof.
  cbn [Regex.rep Regex.mayTakeMore andb Nat.pred option_map].
  destruct (c a); [| reflexivity].
  destruct s as [| b s']; cbn [Regex.rep Regex.mayTakeMore andb Nat.pred option_map].
  - simpl. now destruct (k (JS.str a) EmptyString).
  - destruct (c b).
    + rewrite rep_done. simpl.
      destruct (k (String a (JS.str b)) s'); [reflexivity |].
      now destruct (k (JS.str a) (String b s')).
    + simpl. now destruct (k (JS.str a) (String b s')).
Qed.

End Rep.

Lemma rep_white_space {A : Type} (r : A) taken s :
  Regex.rep JS.isWhiteSpace 0 None taken s (fun _ rest => Some (r, rest))
    = Some (r, JS.trimStart s).
Proof.
  revert taken. induction s as [| a s IH]; intros taken; [reflexivity |].
  cbn [Regex.rep Regex.mayTakeMore andb Nat.pred option_map JS.trimStart].
  destruct (JS.isWhiteSpace a); [| reflexivity].
  now rewrite IH.
Qed.

(** *** A timestamp at the start of a string *)

(** What follows the minutes: a colon, two digits and a closing bracket. *)
Definition secondsAt (s : string) : option (string * string) :=
  match s with
  | String colon (String s1 (String s2 (String close rest))) =>
      if isColon colon && (JS.isDigit s1 && JS.isDigit s2) && isClose close
      then Some (String s1 (JS.str s2), rest) else None
  | _ => None
  end.

(** The timestamp at the start of [s]: minutes, seconds and what follows. *)
Definition stampAt (s : string) : option (string * string * string) :=
  match s with
  | String open (String m1 s1) =>
      if isOpen open && JS.isDigit m1 then
        match s1 with
        | String m2 s2 =>
            match (if JS.isDigit m2 then secondsAt s2 else None) with
            | Some (ss, rest) => Some (String m1 (JS.str m2), ss, rest)
            | None =>
                match secondsAt s1 with
                | Some (ss, rest) => Some (JS.str m1, ss, rest)
                | None => None
                end
            end
        | EmptyString => None
        end
      else None
  | _ => None
  end.

Lemma matchHere_seconds (mm : string) (s : string) :
  Regex.rep (Regex.anyOf ":") 1 (Some 1) EmptyString s
    (fun _ rest =>
       Regex.rep JS.isDigit 2 (Some 2) EmptyString rest
         (fun ss rest' =>
            Regex.rep (Regex.anyOf "])") 1 (Some 1) EmptyString rest'
              (fun _ rest'' => Some ([mm; ss], rest''))))
  = option_map (fun '(ss, rest) => ([mm; ss], rest)) (secondsAt s).
Proof.
  destruct s as [| colon s]; [reflexivity |].
  rewrite rep_once. unfold secondsAt, isColon, isClose.
  destruct (Regex.anyOf ":" colon); [| now destruct s as [| ? [| ? [| ? ?]]]].
  rewrite rep_twice.
  destruct s as [| s1 [| s2 s]]; try reflexivity.
  simpl. destruct (JS.isDigit s1 && JS.isDigit s2); [| now destruct s].
  destruct s as [| close s]; [reflexivity |].
  rewrite rep_once. now destruct (Regex.anyOf "])" close).
Qed.

Lemma matchHere_timestamp (s : string) :
  Regex.matchHere timestampRe [] s
    = option_map (fun '(mm, ss, rest) => ([mm; ss], rest)) (stampAt s).
Proof.
  unfold timestampRe.
  cbn [Regex.matchHere Regex.cls Regex.lo Regex.hi Regex.captured
       Regex.one Regex.between Regex.group app].
  destruct s as [| open s]; [reflexivity |].
  rewrite rep_once. unfold stampAt, isOpen.
  destruct (Regex.anyOf "[(" open); [| now destruct s].
  destruct s as [| m1 s]; [reflexivity |].
  rewrite rep_once_or_twice. simpl andb.
  destruct (JS.isDigit m1); [| reflexivity].
  destruct s as [| m2 s].
  - reflexivity.
  - rewrite !matchHere_seconds.
    destruct (JS.isDigit m2).
    + destruct (secondsAt s) as [[ss rest] |]; [reflexivity |].
      cbn [option_map]. now destruct (secondsAt (String m2 s)) as [[ss rest] |].
    + now destruct (secondsAt (String m2 s)) as [[ss rest] |].
Qed.

Lemma matchHere_strip (s : string) :
  Regex.matchHere stripRe [] s
    = option_map (fun '(mm, ss, rest) => ([], JS.trimStart rest)) (stampAt s).
Proof.
  unfold stripRe.
  cbn [Regex.matchHere Regex.cls Regex.lo Regex.hi Regex.captured
       Regex.one Regex.between Regex.star app].
  assert (Hsec : forall t,
    Regex.rep (Regex.anyOf ":") 1 (Some 1) EmptyString t
      (fun _ rest =>
         Regex.rep JS.isDigit 2 (Some 2) EmptyString rest
           (fun _ rest' =>
              Regex.rep (Regex.anyOf "])") 1 (Some 1) EmptyString rest'
                (fun _ rest'' =>
                   Regex.rep JS.isWhiteSpace 0 None EmptyString rest''
                     (fun _ rest3 => Some ([] : list string, rest3)))))
    = option_map (fun '(ss, rest) => ([], JS.trimStart rest)) (secondsAt t)).
  { intros t. destruct t as [| colon t]; [reflexivity |].
    rewrite rep_once. unfold secondsAt, isColon, isClose.
    destruct (Regex.anyOf ":" colon); [| now destruct t as [| ? [| ? [| ? ?]]]].
    rewrite rep_twice.
    destruct t as [| s1 [| s2 t]]; try reflexivity.
    simpl. destruct (JS.isDigit s1 && JS.isDigit s2); [| now destruct t].
    destruct t as [| close t]; [reflexivity |].
    rewrite rep_once. destruct (Regex.anyOf "])" close); [| reflexivity].
    now rewrite rep_white_space. }
  destruct s as [| open s]; [reflexivity |].
  rewrite rep_once. unfold stampAt, isOpen.
  destruct (Regex.anyOf "[(" open); [| now destruct s].
  destruct s as [| m1 s]; [reflexivity |].
  rewrite rep_once_or_twice. simpl andb.
  destruct (JS.isDigit m1); [| reflexivity].
  destruct s as [| m2 s].
  - reflexivity.
  - rewrite !Hsec.
    destruct (JS.isDigit m2).
    + destruct (secondsAt s) as [[ss rest] |]; [reflexivity |].
      cbn [option_map]. now destruct (secondsAt (String m2 s)) as [[ss rest] |].
    + now destruct (secondsAt (String m2 s)) as [[ss rest] |].
Qed.

(** *** The first timestamp of a line *)

(** The leftmost position of [s] at which a timestamp starts: what
    precedes it (after [seen]), its minutes and seconds, what follows. *)
Fixpoint firstStamp (seen s : string) : option (string * string * string * string) :=
  match stampAt s with
  | Some (mm, ss, rest) => Some (seen, mm, ss, rest)
  | None =>
      match s with
      | String a s' => firstStamp (seen ++ JS.str a) s'
      | EmptyString => None
      end
  end.

Lemma search_timestamp (seen s : string) :
  Regex.search timestampRe seen s
    = option_map (fun '(pre, mm, ss, rest) => Regex.Found pre [mm; ss] rest)
        (firstStamp seen s).
Proof.
  revert seen. induction s as [| a s IH]; intros seen;
    cbn [Regex.search firstStamp]; rewrite matchHere_timestamp.
  - now destruct (stampAt EmptyString) as [[[mm ss] rest] |].
  - destruct (stampAt (String a s)) as [[[mm ss] rest] |]; [reflexivity |].
    cbn [option_map]. apply IH.
Qed.

Lemma search_strip (seen s : string) :
  Regex.search stripRe seen s
    = option_map (fun '(pre, mm, ss, rest) => Regex.Found pre [] (JS.trimStart rest))
        (firstStamp seen s).
Proof.
  revert seen. induction s as [| a s IH]; intros seen;
    cbn [Regex.search firstStamp]; rewrite matchHere_strip.
  - now destruct (stampAt EmptyString) as [[[mm ss] rest] |].
  - destruct (stampAt (String a s)) as [[[mm ss] rest] |]; [reflexivity |].
    cbn [option_map]. apply IH.
Qed.

(** The entries of a line, from its first timestamp. *)
Lemma lineEntries_firstStamp (line : string) :
  lineEntries line
    = match firstStamp EmptyString line with
      | Some (pre, mm, ss, post) =>
          let textContent := JS.trim (pre ++ JS.trimStart post) in
          if JS.truthy textContent then
            [ {| text := textContent; duration := JS.zero;
                 offset := JS.add (JS.mul (JS.parseInt mm) (JS.ofZ 60)) (JS.parseInt ss) |} ]
          else []
      | None => []
      end.
Proof.
  unfold lineEntries, Regex.matchGroups, Regex.removeFirst, Regex.exec.
  rewrite search_timestamp, search_strip.
  now destruct (firstStamp EmptyString line) as [[[[pre mm] ss] post] |].
Qed.

(** *** The shape of a timestamp *)

(** [s] starts with a timestamp: an opening square or round bracket, one
    or two digits [mm], a colon, exactly two digits [ss], a closing square
    or round bracket; [rest] follows. *)
Definition StampAt (s mm ss rest : string) : Prop :=
  exists open close : ascii,
    s = String open (mm ++ ":" ++ ss ++ String close rest) /\
    isOpen open = true /\ isClose close = true /\
    all JS.isDigit mm = true /\ (String.length mm = 1 \/ String.length mm = 2) /\
    all JS.isDigit ss = true /\ String.length ss = 2.

Lemma isColon_eq (a : ascii) : isColon a = true -> a = ":"%char.
Proof.
  unfold isColon, Regex.anyOf. simpl. rewrite orb_false_r.
  now intros H%Ascii.eqb_eq.
Qed.

Lemma digit_not_colon (a : ascii) : JS.isDigit a = true -> isColon a = false.
Proof.
  destruct (isColon a) eqn:H; [| reflexivity].
  apply isColon_eq in H. subst a. intros H. discriminate H.
Qed.

Lemma secondsAt_Some (s ss rest : string) :
  secondsAt s = Some (ss, rest) <->
  exists s1 s2 close,
    s = String ":" (String s1 (String s2 (String close rest))) /\
    ss = String s1 (JS.str s2) /\
    JS.isDigit s1 = true /\ JS.isDigit s2 = true /\ isClose close = true.
Proof.
  split.
  - destruct s as [| colon [| s1 [| s2 [| close rest']]]]; try discriminate.
    unfold secondsAt.
    destruct (isColon colon) eqn:Hcolon; [| discriminate].
    destruct (JS.isDigit s1) eqn:H1; [| discriminate].
    destruct (JS.isDigit s2) eqn:H2; [| discriminate].
    destruct (isClose close) eqn:Hclose; [| discriminate].
    simpl. intros [= <- <-]. apply isColon_eq in Hcolon. subst colon.
    exists s1, s2, close. auto.
  - intros (s1 & s2 & close & -> & -> & H1 & H2 & Hclose).
    unfold secondsAt. rewrite H1, H2, Hclose. reflexivity.
Qed.

Lemma stampAt_StampAt (s mm ss rest : string) :
  stampAt s = Some (mm, ss, rest) <-> StampAt s mm ss rest.
Proof.
  split.
  - destruct s as [| open [| m1 s]]; try discriminate.
    unfold stampAt.
    destruct (isOpen open) eqn:Hopen; [| discriminate].
    destruct (JS.isDigit m1) eqn:Hm1; [| discriminate].
    cbn [andb]. destruct s as [| m2 s]; [discriminate |].
    destruct (JS.isDigit m2) eqn:Hm2.
    + destruct (secondsAt s) as [[ss' rest'] |] eqn:Hsec.
      * intros [= <- <- <-].
        apply secondsAt_Some in Hsec as (s1 & s2 & close & -> & -> & H1 & H2 & Hc).
        exists open, close. simpl. rewrite Hm1, Hm2, H1, H2. auto 10.
      * destruct (secondsAt (String m2 s)) as [[ss' rest'] |] eqn:Hsec'; [| discriminate].
        apply secondsAt_Some in Hsec' as (s1 & s2 & close & [= -> ->] & _).
        discriminate Hm2.
    + destruct (secondsAt (String m2 s)) as [[ss' rest'] |] eqn:Hsec; [| discriminate].
      intros [= <- <- <-].
      apply secondsAt_Some in Hsec as (s1 & s2 & close & [= -> ->] & -> & H1 & H2 & Hc).
      exists open, close. simpl. rewrite Hm1, H1, H2. auto 10.
  - intros (open & close & -> & Hopen & Hclose & Hmm & Hlen & Hss & Hlen2).
    destruct ss as [| s1 [| s2 [| ? ?]]]; try discriminate Hlen2.
    simpl in Hss. apply andb_true_iff in Hss as [H1 Hss].
    apply andb_true_iff in Hss as [H2 _].
    assert (Hsec : forall r,
              secondsAt (String ":" (String s1 (String s2 (String close r))))
                = Some (String s1 (JS.str s2), r)).
    { intros r. apply secondsAt_Some. exists s1, s2, close. auto. }
    destruct Hlen as [Hlen | Hlen].
    + destruct mm as [| m1 [| ? ?]]; try discriminate Hlen.
      simpl in Hmm. apply andb_true_iff in Hmm as [Hm1 _].
      simpl. unfold stampAt. rewrite Hopen, Hm1. cbn [andb].
      change (JS.isDigit ":") with false. cbv iota.
      first [rewrite Hsec | unfold secondsAt, isColon; rewrite H1, H2, Hclose]; reflexivity.
    + destruct mm as [| m1 [| m2 [| ? ?]]]; try discriminate Hlen.
      simpl in Hmm. apply andb_true_iff in Hmm as [Hm1 Hmm].
      apply andb_true_iff in Hmm as [Hm2 _].
      simpl. unfold stampAt. rewrite Hopen, Hm1, Hm2. cbn [andb].
      first [rewrite Hsec | unfold secondsAt, isColon; rewrite H1, H2, Hclose]; reflexivity.
Qed.

(** [pre], then the first timestamp of [line], then [post]: a timestamp
    starts after [pre], and none starts inside [pre]. *)
Definition FirstStamp (line pre mm ss post : string) : Prop :=
  exists s,
    line = pre ++ s /\ StampAt s mm ss post /\
    forall p1 p2 mm' ss' post',
      pre = p1 ++ p2 -> p2 <> EmptyString -> ~ StampAt (p2 ++ s) mm' ss' post'.

(** No timestamp starts anywhere in [line]. *)
Definition NoStamp (line : string) : Prop :=
  forall p s mm ss post, line = p ++ s -> ~ StampAt s mm ss post.

Lemma firstStamp_found (seen line pre mm ss post : string) :
  FirstStamp line pre mm ss post ->
  firstStamp seen line = Some (seen ++ pre, mm, ss, post).
Proof.
  intros (s & -> & Hstamp & Hleft). revert seen Hleft.
  induction pre as [| a pre IH]; intros seen Hleft.
  - simpl. apply stampAt_StampAt in Hstamp.
    destruct s; cbn [firstStamp]; rewrite Hstamp, append_nil_r; reflexivity.
  - change (String a pre ++ s) with (String a (pre ++ s)). cbn [firstStamp].
    destruct (stampAt (String a (pre ++ s))) as [[[mm' ss'] post'] |] eqn:Hhere.
    + apply stampAt_StampAt in Hhere.
      exfalso. apply (Hleft EmptyString (String a pre) mm' ss' post');
        [reflexivity | discriminate | exact Hhere].
    + rewrite IH.
      * now rewrite append_assoc.
      * intros p1 p2 mm' ss' post' -> Hp2.
        apply (Hleft (String a p1) p2); [reflexivity | exact Hp2].
Qed.

Lemma firstStamp_sound (seen line p mm ss post : string) :
  firstStamp seen line = Some (p, mm, ss, post) ->
  exists pre, p = seen ++ pre /\ FirstStamp line pre mm ss post.
Proof.
  revert seen. induction line as [| a line IH]; intros seen; cbn [firstStamp].
  - destruct (stampAt EmptyString) as [[[mm' ss'] post'] |] eqn:Hhere; [discriminate Hhere | discriminate].
  - destruct (stampAt (String a line)) as [[[mm' ss'] post'] |] eqn:Hhere.
    + intros [= <- <- <- <-]. exists EmptyString. split; [now rewrite append_nil_r |].
      exists (String a line). split; [reflexivity |].
      split; [now apply stampAt_StampAt |].
      intros p1 p2 ? ? ? Hsplit Hp2. destruct p1; simpl in Hsplit; congruence.
    + intros Hrest. apply IH in Hrest as (pre & -> & s & -> & Hstamp & Hleft).
      exists (String a pre). split; [now rewrite append_assoc |].
      exists s. split; [reflexivity |]. split; [exact Hstamp |].
      intros p1 p2 mm' ss' post' Hsplit Hp2.
      destruct p1 as [| b p1]; simpl in Hsplit.
      * subst p2. intros Hbad%stampAt_StampAt.
        change (String a pre ++ s) with (String a (pre ++ s)) in Hbad. congruence.
      * injection Hsplit as <- ->. exact (Hleft p1 p2 mm' ss' post' eq_refl Hp2).
Qed.

Lemma firstStamp_none (seen line : string) :
  firstStamp seen line = None <-> NoStamp line.
Proof.
  split.
  - revert seen. induction line as [| a line IH]; intros seen; cbn [firstStamp].
    + intros _ p s mm ss post Hsplit Hbad.
      destruct p; [| discriminate]. simpl in Hsplit. subst s.
      apply stampAt_StampAt in Hbad. discriminate Hbad.
    + destruct (stampAt (String a line)) as [[[mm' ss'] post'] |] eqn:Hhere;
        [discriminate |].
      intros Hrest p s mm ss post Hsplit Hbad.
      destruct p as [| b p]; simpl in Hsplit.
      * subst s. apply stampAt_StampAt in Hbad. congruence.
      * injection Hsplit as <- ->. exact (IH _ Hrest p s mm ss post eq_refl Hbad).
  - intros Hno. destruct (firstStamp seen line) as [[[[p mm] ss] post] |] eqn:Hfirst;
      [| reflexivity].
    apply firstStamp_sound in Hfirst as (pre & _ & s & -> & Hstamp & _).
    exfalso. exact (Hno pre s mm ss post eq_refl Hstamp).
Qed.

(** *** Minutes and seconds *)

Lemma isDigit_cases (a : ascii) :
  JS.isDigit a = true ->
  In a ["0"; "1"; "2"; "3"; "4"; "5"; "6"; "7"; "8"; "9"]%char.
Proof.
  destruct a as [[] [] [] [] [] [] [] []]; intros H;
    try discriminate H; simpl; auto 12.
Qed.

Lemma digit_not_open (a : ascii) : JS.isDigit a = true -> isOpen a = false.
Proof.
  intros H%isDigit_cases. simpl in H.
  repeat (destruct H as [<- | H]; [reflexivity |]). contradiction.
Qed.

(** [parseInt] on what the groups [\d{1,2}] and [\d{2}] capture. *)
Lemma parseInt_digits (ds : string) :
  all JS.isDigit ds = true ->
  String.length ds = 1 \/ String.length ds = 2 ->
  JS.parseInt ds = JS.ofZ (JS.digitsVal ds).
Proof.
  intros Hds [Hlen | Hlen].
  - destruct ds as [| d1 [| ? ?]]; try discriminate Hlen.
    simpl in Hds. apply andb_true_iff in Hds as [H1%isDigit_cases _].
    simpl in H1.
    repeat (destruct H1 as [<- | H1]; [reflexivity |]). contradiction.
  - destruct ds as [| d1 [| d2 [| ? ?]]]; try discriminate Hlen.
    simpl in Hds. apply andb_true_iff in Hds as [H1%isDigit_cases Hds].
    apply andb_true_iff in Hds as [H2%isDigit_cases _].
    simpl in H1, H2.
    repeat (destruct H1 as [<- | H1];
            [repeat (destruct H2 as [<- | H2]; [reflexivity |]); contradiction |]).
    contradiction.
Qed.

Lemma Qred_inject_Z (z : Z) : Qred (inject_Z z) = inject_Z z.
Proof.
  unfold Qred, inject_Z.
  pose proof (Z.ggcd_gcd z 1) as Hg.
  pose proof (Z.ggcd_correct_divisors z 1) as Hd.
  destruct (Z.ggcd z 1) as [g [aa bb]]. simpl in Hg, Hd.
  rewrite Z.gcd_1_r in Hg. subst g. destruct Hd as [Ha Hb].
  rewrite Z.mul_1_l in Ha, Hb. subst aa bb. reflexivity.
Qed.

(** [minutes * 60 + seconds] on integers. *)
Lemma offset_of_minutes_seconds (m s : Z) :
  JS.add (JS.mul (JS.ofZ m) (JS.ofZ 60)) (JS.ofZ s) = JS.ofZ (m * 60 + s).
Proof.
  unfold JS.add, JS.mul, JS.ofZ. f_equal.
  rewrite <- (Qred_inject_Z (m * 60 + s)). apply Qred_complete.
  rewrite Qred_correct, inject_Z_plus, inject_Z_mult. reflexivity.
Qed.

Lemma trimStart_idem (s : string) : JS.trimStart (JS.trimStart s) = JS.trimStart s.
Proof.
  induction s as [| a s IH]; [reflexivity |].
  simpl. destruct (JS.isWhiteSpace a) eqn:Ha; [exact IH |].
  simpl. now rewrite Ha.
Qed.

(** The segment of a line with a timestamp: [text] is what remains of the
    line, [mm] and [ss] are the digits of the timestamp. *)
Definition segment (textContent mm ss : string) : list TranscriptEntry :=
  if JS.truthy textContent then
    [ {| text := textContent; duration := JS.zero;
         offset := JS.ofZ (JS.digitsVal mm * 60 + JS.digitsVal ss) |} ]
  else [].

Lemma lineEntries_FirstStamp (line pre mm ss post : string) :
  FirstStamp line pre mm ss post ->
  lineEntries line = segment (JS.trim (pre ++ JS.trimStart post)) mm ss.
Proof.
  intros Hfirst. rewrite lineEntries_firstStamp.
  rewrite (firstStamp_found EmptyString line pre mm ss post Hfirst).
  destruct Hfirst as (s & _ & (open & close & _ & _ & _ & Hmm & Hlen & Hss & Hlen2) & _).
  cbn [append]. cbv zeta. unfold segment.
  rewrite (parseInt_digits mm Hmm Hlen), (parseInt_digits ss Hss (or_intror Hlen2)).
  now rewrite offset_of_minutes_seconds.
Qed.

Lemma lineEntries_leading (line mm ss post : string) :
  StampAt line mm ss post ->
  lineEntries line = segment (JS.trim post) mm ss.
Proof.
  intros Hstamp.
  rewrite (lineEntries_FirstStamp line EmptyString mm ss post).
  - cbn [append]. unfold JS.trim. now rewrite trimStart_idem.
  - exists line. split; [reflexivity |]. split; [exact Hstamp |].
    intros p1 p2 ? ? ? Hsplit Hp2. destruct p1; simpl in Hsplit; congruence.
Qed.

Lemma lineEntries_NoStamp (line : string) : NoStamp line -> lineEntries line = [].
Proof.
  intros Hno. rewrite lineEntries_firstStamp.
  now rewrite (proj2 (firstStamp_none EmptyString line) Hno).
Qed.

Lemma lineEntries_inv (line : string) :
  lineEntries line <> [] ->
  exists pre mm ss post, FirstStamp line pre mm ss post.
Proof.
  rewrite lineEntries_firstStamp.
  destruct (firstStamp EmptyString line) as [[[[p mm] ss] post] |] eqn:Hfirst;
    [| congruence].
  intros _. apply firstStamp_sound in Hfirst as (pre & _ & Hfirst).
  now exists pre, mm, ss, post.
Qed.

(** Every line either has a first timestamp or has none at all. *)
Lemma stamp_or_none (line : string) :
  NoStamp line \/ exists pre mm ss post, FirstStamp line pre mm ss post.
Proof.
  destruct (firstStamp EmptyString line) as [[[[p mm] ss] post] |] eqn:Hfirst.
  - right. apply firstStamp_sound in Hfirst as (pre & _ & Hfirst).
    now exists pre, mm, ss, post.
  - left. now apply (firstStamp_none EmptyString).
Qed.

Lemma lineEntries_at_most_one (line : string) : List.length (lineEntries line) <= 1.
Proof.
  rewrite lineEntries_firstStamp.
  destruct (firstStamp EmptyString line) as [[[[p mm] ss] post] |]; [| simpl; lia].
  cbv zeta. destruct (JS.truthy _); simpl; lia.
Qed.

(** *** Minutes of three digits *)

Definition notOpen (a : ascii) : bool := negb (isOpen a).

Lemma secondsAt_not_colon (a : ascii) (s : string) :
  isColon a = false -> secondsAt (String a s) = None.
Proof.
  intros Ha. unfold secondsAt. rewrite Ha.
  now destruct s as [| ? [| ? [| ? ?]]].
Qed.

Lemma stampAt_not_open (a : ascii) (s : string) :
  isOpen a = false -> stampAt (String a s) = None.
Proof. intros Ha. unfold stampAt. rewrite Ha. now destruct s. Qed.

Lemma firstStamp_no_open (seen s : string) :
  all notOpen s = true -> firstStamp seen s = None.
Proof.
  revert seen. induction s as [| a s IH]; intros seen; [reflexivity |].
  cbn [all]. intros [Ha Hs]%andb_true_iff. apply negb_true_iff in Ha.
  cbn [firstStamp]. rewrite (stampAt_not_open a s Ha). now apply IH.
Qed.

Lemma firstStamp_step (seen : string) (a : ascii) (s : string) :
  firstStamp seen (String a s)
    = match stampAt (String a s) with
      | Some (mm, ss, rest) => Some (seen, mm, ss, rest)
      | None => firstStamp (seen ++ JS.str a) s
      end.
Proof. reflexivity. Qed.

Lemma lineEntries_three_digits (m1 m2 m3 : ascii) (rest : string) :
  JS.isDigit m1 = true -> JS.isDigit m2 = true -> JS.isDigit m3 = true ->
  all notOpen rest = true ->
  lineEntries (String "[" (String m1 (String m2 (String m3 rest)))) = [].
Proof.
  intros H1 H2 H3 Hrest. rewrite lineEntries_firstStamp.
  assert (Hhere : stampAt (String "[" (String m1 (String m2 (String m3 rest)))) = None).
  { unfold stampAt. change (isOpen "[") with true. rewrite H1, H2. cbn [andb].
    rewrite (secondsAt_not_colon m3 rest (digit_not_colon m3 H3)).
    now rewrite (secondsAt_not_colon m2 _ (digit_not_colon m2 H2)). }
  rewrite firstStamp_step, Hhere. rewrite firstStamp_no_open; [reflexivity |].
  cbn [all]. unfold notOpen at 1 2 3.
  now rewrite (digit_not_open m1 H1), (digit_not_open m2 H2), (digit_not_open m3 H3).
Qed.

End TimestampFacts.

(** ** The line parser *)

Module LineFacts.

Import Transcript StringFacts ParserFacts TimestampFacts.

(** The line rule as the specification words it: the line starts with a
    timestamp in square brackets or in round brackets, the text is the
    rest of the line, trimmed, and a line without such a timestamp, or
    with nothing after it, gives no segment. *)
Definition squareRe : list Regex.item :=
  [ Regex.one (Regex.anyOf "[");
    Regex.group (Regex.between JS.isDigit 1 2);
    Regex.one (Regex.anyOf ":");
    Regex.group (Regex.between JS.isDigit 2 2);
    Regex.one (Regex.anyOf "]") ].

Definition roundRe : list Regex.item :=
  [ Regex.one (Regex.anyOf "(");
    Regex.group (Regex.between JS.isDigit 1 2);
    Regex.one (Regex.anyOf ":");
    Regex.group (Regex.between JS.isDigit 2 2);
    Regex.one (Regex.anyOf ")") ].

Definition claimedLineEntries (line : string) : list TranscriptEntry :=
  let leading :=
    match Regex.matchHere squareRe [] line with
    | Some r => Some r
    | None => Regex.matchHere roundRe [] line
    end in
  match leading with
  | Some ([mm; ss], rest) => segment (JS.trim rest) mm ss
  | _ => []
  end.

Definition helloThere (seconds : Z) : list TranscriptEntry :=
  [ {| text := "hello there"; duration := JS.zero; offset := JS.ofZ seconds |} ].

(** C4, as stated, fails.  A timestamp that is not at the start of the
    line, and one whose brackets are of two kinds, give a segment as
    well. *)
Lemma C4_counterexample :
  claimedLineEntries "[1:05] hello there" = helloThere 65 /\
  parseTranscriptText ControllerFacts.noDocument "hello [1:05] there" = helloThere 65 /\
  claimedLineEntries "hello [1:05] there" = [] /\
  parseTranscriptText ControllerFacts.noDocument "[1:05) hello there" = helloThere 65 /\
  claimedLineEntries "[1:05) hello there" = [].
Proof. repeat split; vm_compute; reflexivity. Qed.

(** C4, amended.  For a plain-text payload (one without the marker
    [<transcript>]) the segments are those of its lines, in order, and a
    line gives at most one.
    - A line in which a timestamp occurs, at its start or further on,
      gives the segment of its first timestamp: an opening square or round
      bracket, one or two digits MM, a colon, two digits SS, a closing
      square or round bracket (the two brackets need not be of one kind).
      The offset is MM*60+SS, the duration is 0, and the text is the line
      without that timestamp and the white space after it, trimmed; when
      that text is empty the line gives no segment.
    - When the line starts with the timestamp, the text is the rest of
      the line, trimmed.
    - A line in which no timestamp occurs gives no segment.
    - "[1:05] hello there" gives text "hello there", offset 65 and
      duration 0; "[1:05]   " and "hello there" give nothing. *)
Theorem C4_line_parser (parseFromString : string -> Dom.Node) :
  (forall lines,
     Forall isLine lines ->
     JS.includes "<transcript>" (JS.join (JS.str JS.LF) lines) = false ->
     parseTranscriptText parseFromString (JS.join (JS.str JS.LF) lines)
       = List.flat_map lineEntries lines) /\
  (forall line pre mm ss post,
     FirstStamp line pre mm ss post ->
     lineEntries line = segment (JS.trim (pre ++ JS.trimStart post)) mm ss) /\
  (forall line mm ss post,
     StampAt line mm ss post ->
     lineEntries line = segment (JS.trim post) mm ss) /\
  (forall line, NoStamp line -> lineEntries line = []) /\
  (forall line, NoStamp line \/ exists pre mm ss post, FirstStamp line pre mm ss post) /\
  (forall line, List.length (lineEntries line) <= 1) /\
  parseTranscriptText parseFromString "[1:05] hello there" = helloThere 65 /\
  parseTranscriptText parseFromString "[1:05]   " = [] /\
  parseTranscriptText parseFromString "hello there" = [].
Proof.
  split; [intros; now apply parseTranscriptText_lines |].
  split; [intros; now apply lineEntries_FirstStamp |].
  split; [intros; now apply lineEntries_leading |].
  split; [intros; now apply lineEntries_NoStamp |].
  split; [apply stamp_or_none |].
  split; [apply lineEntries_at_most_one |].
  repeat split; vm_compute; reflexivity.
Qed.

Lemma stamp_1_05 (post : string) :
  StampAt ("[1:05]" ++ post) "1" "05" post.
Proof. exists "["%char, "]"%char. repeat split; auto. Qed.

(** The line of the specification, and a line whose timestamp comes after
    a word. *)
Lemma C4_line_parser_witness :
  StampAt "[1:05] hello there" "1" "05" " hello there" /\
  lineEntries "[1:05] hello there" = helloThere 65 /\
  FirstStamp "hello [1:05] there" "hello " "1" "05" " there" /\
  lineEntries "hello [1:05] there" = helloThere 65.
Proof.
  destruct (C4_line_parser ControllerFacts.noDocument)
    as (_ & Hfirst & Hleading & _).
  assert (H1 : StampAt "[1:05] hello there" "1" "05" " hello there")
    by exact (stamp_1_05 " hello there").
  assert (H2 : FirstStamp "hello [1:05] there" "hello " "1" "05" " there").
  { destruct (firstStamp_sound EmptyString "hello [1:05] there"
                "hello " "1" "05" " there" eq_refl) as (pre & Hpre & H).
    simpl in Hpre. subst pre. exact H. }
  split; [exact H1 |].
  split; [exact (Hleading _ _ _ _ H1) |].
  split; [exact H2 |].
  exact (Hfirst _ _ _ _ _ H2).
Defined.

(** A timed line from 100 minutes on, as the claim has it: the line
    starts with an opening bracket and three digits of minutes. *)
Definition lateLine (line : string) : Prop :=
  exists open m1 m2 m3 rest,
    line = String open (String m1 (String m2 (String m3 rest))) /\
    isOpen open = true /\
    JS.isDigit m1 = true /\ JS.isDigit m2 = true /\ JS.isDigit m3 = true.

Definition seeLater : list TranscriptEntry :=
  [ {| text := "[100:00] see later"; duration := JS.zero; offset := JS.ofZ 65 |} ].

(** C10, as stated, fails.  The pattern is searched in the whole line: a
    line timed at 100 minutes in which a well-formed timestamp occurs
    further on is not dropped, it gives the segment of that timestamp. *)
Lemma C10_counterexample :
  lateLine "[100:00] see (1:05) later" /\
  lineEntries "[100:00] see (1:05) later" = seeLater /\
  ~ (forall line, lateLine line -> lineEntries line = []).
Proof.
  assert (Hlate : lateLine "[100:00] see (1:05) later").
  { exists "["%char, "1"%char, "0"%char, "0"%char, ":00] see (1:05) later".
    repeat split; reflexivity. }
  assert (Hkept : lineEntries "[100:00] see (1:05) later" = seeLater)
    by (vm_compute; reflexivity).
  split; [exact Hlate |]. split; [exact Hkept |].
  intros Hdropped. specialize (Hdropped _ Hlate). rewrite Hkept in Hdropped.
  discriminate Hdropped.
Qed.

(** The search goes over characters that open no timestamp. *)
Lemma firstStamp_skip (pre seen s : string) :
  all notOpen pre = true ->
  firstStamp seen (pre ++ s) = firstStamp (seen ++ pre) s.
Proof.
  revert seen. induction pre as [| a pre IH]; intros seen.
  - intros _. cbn [append]. now rewrite append_nil_r.
  - cbn [all]. intros [Ha Hpre]%andb_true_iff. apply negb_true_iff in Ha.
    change (String a pre ++ s) with (String a (pre ++ s)).
    rewrite firstStamp_step, (stampAt_not_open a (pre ++ s) Ha), (IH _ Hpre).
    now rewrite append_assoc.
Qed.

(** No timestamp starts at a bracket that is followed by three digits. *)
Lemma stampAt_three_digits (open m1 m2 m3 : ascii) (rest : string) :
  JS.isDigit m1 = true -> JS.isDigit m2 = true -> JS.isDigit m3 = true ->
  stampAt (String open (String m1 (String m2 (String m3 rest)))) = None.
Proof.
  intros H1 H2 H3. unfold stampAt. rewrite H1, H2.
  destruct (isOpen open); [| reflexivity]. cbn [andb].
  rewrite (secondsAt_not_colon m3 rest (digit_not_colon m3 H3)).
  now rewrite (secondsAt_not_colon m2 _ (digit_not_colon m2 H2)).
Qed.

Lemma stampAt_none (s : string) :
  (forall mm ss post, ~ StampAt s mm ss post) -> stampAt s = None.
Proof.
  intros Hno. destruct (stampAt s) as [[[mm ss] post] |] eqn:Hhere; [| reflexivity].
  apply stampAt_StampAt in Hhere. now apply Hno in Hhere.
Qed.

(** A line with one opening bracket, at which no timestamp starts. *)
Lemma lineEntries_one_bracket (pre : string) (open : ascii) (tail : string) :
  all notOpen pre = true -> all notOpen tail = true ->
  stampAt (String open tail) = None ->
  lineEntries (pre ++ String open tail) = [].
Proof.
  intros Hpre Htail Hhere. rewrite lineEntries_firstStamp.
  rewrite (firstStamp_skip pre EmptyString _ Hpre), firstStamp_step, Hhere.
  now rewrite (firstStamp_no_open _ tail Htail).
Qed.

(** A timestamp that comes after a bracket with three digits and
    characters that open no timestamp is the first of the line. *)
Lemma FirstStamp_after_late (open m1 m2 m3 : ascii) (mid s mm ss post : string) :
  JS.isDigit m1 = true -> JS.isDigit m2 = true -> JS.isDigit m3 = true ->
  all notOpen mid = true ->
  StampAt s mm ss post ->
  FirstStamp (String open (String m1 (String m2 (String m3 mid))) ++ s)
             (String open (String m1 (String m2 (String m3 mid)))) mm ss post.
Proof.
  intros H1 H2 H3 Hmid Hstamp.
  set (pre := String open (String m1 (String m2 (String m3 mid)))).
  assert (Hfirst : firstStamp EmptyString (pre ++ s) = Some (pre, mm, ss, post)).
  { unfold pre.
    change (String open (String m1 (String m2 (String m3 mid))) ++ s)
      with (String open (String m1 (String m2 (String m3 (mid ++ s))))).
    rewrite firstStamp_step, (stampAt_three_digits open m1 m2 m3 _ H1 H2 H3).
    change (String m1 (String m2 (String m3 (mid ++ s))))
      with (String m1 (String m2 (String m3 mid)) ++ s).
    rewrite firstStamp_skip.
    - apply stampAt_StampAt in Hstamp.
      destruct s as [| a s]; cbn [firstStamp]; rewrite Hstamp; reflexivity.
    - cbn [all]. unfold notOpen at 1 2 3.
      now rewrite (digit_not_open m1 H1), (digit_not_open m2 H2), (digit_not_open m3 H3). }
  apply firstStamp_sound in Hfirst as (pre' & Hpre' & Hfirst).
  cbn [append] in Hpre'. now subst pre'.
Qed.

(** A line is dropped exactly when no timestamp occurs in it, or when
    nothing is left of it beside its first timestamp. *)
Lemma lineEntries_dropped (line : string) :
  lineEntries line = [] <->
  NoStamp line \/
  exists pre mm ss post,
    FirstStamp line pre mm ss post /\ JS.trim (pre ++ JS.trimStart post) = EmptyString.
Proof.
  split.
  - intros Hnone. destruct (stamp_or_none line) as [Hno | (pre & mm & ss & post & Hfirst)];
      [now left | right].
    exists pre, mm, ss, post. split; [exact Hfirst |].
    rewrite (lineEntries_FirstStamp _ _ _ _ _ Hfirst) in Hnone. unfold segment in Hnone.
    destruct (JS.trim (pre ++ JS.trimStart post)); [reflexivity | discriminate].
  - intros [Hno | (pre & mm & ss & post & Hfirst & Hempty)].
    + now apply lineEntries_NoStamp.
    + rewrite (lineEntries_FirstStamp _ _ _ _ _ Hfirst), Hempty. reflexivity.
Qed.

(** C10, amended.  A line gives a segment only if it contains a timestamp
    whose minutes have one or two digits and whose seconds have exactly
    two, directly between the brackets; it is dropped exactly when no such
    timestamp occurs anywhere in it, or when nothing is left beside its
    first timestamp.
    - A line with one opening bracket, of either kind, at which no such
      timestamp starts is dropped: so is a line whose opening bracket is
      followed by three digits.  "[100:00] text", "(100:00) text" and
      "[1:5] text" give no segment.
    - A line timed from 100 minutes on is not dropped when a well-formed
      timestamp occurs further on: it gives the segment of that
      timestamp, with the late time left in its text.
      "[100:00] see (1:05) later" gives the text "[100:00] see later" at
      offset 65. *)
Theorem C10_minutes_and_seconds_width :
  (forall line,
     lineEntries line <> [] ->
     exists pre open mm ss close post,
       line = pre ++ String open (mm ++ ":" ++ ss ++ String close post) /\
       isOpen open = true /\ isClose close = true /\
       all JS.isDigit mm = true /\
       (String.length mm = 1 \/ String.length mm = 2) /\
       all JS.isDigit ss = true /\ String.length ss = 2) /\
  (forall line,
     lineEntries line = [] <->
     NoStamp line \/
     exists pre mm ss post,
       FirstStamp line pre mm ss post /\
       JS.trim (pre ++ JS.trimStart post) = EmptyString) /\
  lineEntries "[100:00] text" = [] /\
  lineEntries "(100:00) text" = [] /\
  lineEntries "[1:5] text" = [] /\
  (forall pre open tail,
     all notOpen pre = true -> all notOpen tail = true ->
     (forall mm ss post, ~ StampAt (String open tail) mm ss post) ->
     lineEntries (pre ++ String open tail) = []) /\
  (forall pre open m1 m2 m3 rest,
     all notOpen pre = true ->
     JS.isDigit m1 = true -> JS.isDigit m2 = true -> JS.isDigit m3 = true ->
     all notOpen rest = true ->
     lineEntries (pre ++ String open (String m1 (String m2 (String m3 rest)))) = []) /\
  (forall open m1 m2 m3 mid s mm ss post,
     JS.isDigit m1 = true -> JS.isDigit m2 = true -> JS.isDigit m3 = true ->
     all notOpen mid = true ->
     StampAt s mm ss post ->
     lineEntries (String open (String m1 (String m2 (String m3 mid))) ++ s)
       = segment (JS.trim (String open (String m1 (String m2 (String m3 mid))) ++
                           JS.trimStart post)) mm ss) /\
  lineEntries "[100:00] see (1:05) later" = seeLater.
Proof.
  split.
  { intros line Hsome.
    apply lineEntries_inv in Hsome
      as (pre & mm & ss & post & s & -> & (open & close & -> & Hshape) & _).
    exists pre, open, mm, ss, close, post. split; [reflexivity | exact Hshape]. }
  split; [apply lineEntries_dropped |].
  split; [vm_compute; reflexivity |].
  split; [vm_compute; reflexivity |].
  split; [vm_compute; reflexivity |].
  split.
  { intros pre open tail Hpre Htail Hno.
    apply lineEntries_one_bracket; [exact Hpre | exact Htail |].
    now apply stampAt_none. }
  split.
  { intros pre open m1 m2 m3 rest Hpre H1 H2 H3 Hrest.
    apply lineEntries_one_bracket; [exact Hpre | |].
    - cbn [all]. unfold notOpen at 1 2 3.
      now rewrite (digit_not_open m1 H1), (digit_not_open m2 H2), (digit_not_open m3 H3).
    - now apply stampAt_three_digits. }
  split.
  { intros open m1 m2 m3 mid s mm ss post H1 H2 H3 Hmid Hstamp.
    apply lineEntries_FirstStamp. now apply FirstStamp_after_late. }
  vm_compute. reflexivity.
Qed.

(** A line at 123 minutes, a line at 100 minutes with a timestamp further
    on, and the shape found in a line that gives a segment. *)
Lemma C10_minutes_and_seconds_width_witness :
  (JS.isDigit "1" = true /\ JS.isDigit "2" = true /\ JS.isDigit "3" = true /\
   all notOpen ":45] two hours in" = true) /\
  lineEntries "[123:45] two hours in" = [] /\
  (all notOpen ":00] see " = true /\ StampAt "(1:05) later" "1" "05" " later") /\
  lineEntries "[100:00] see (1:05) later" = seeLater /\
  lineEntries "[12:45] in time" <> [] /\
  exists pre open mm ss close post,
    "[12:45] in time" = pre ++ String open (mm ++ ":" ++ ss ++ String close post) /\
    (String.length mm = 1 \/ String.length mm = 2) /\ String.length ss = 2.
Proof.
  destruct C10_minutes_and_seconds_width
    as (Honly & _ & _ & _ & _ & _ & Hthree & Hlater & _).
  assert (Hsome : lineEntries "[12:45] in time" <> []) by (vm_compute; discriminate).
  assert (Hstamp : StampAt "(1:05) later" "1" "05" " later").
  { exists "("%char, ")"%char. repeat split; auto. }
  split; [repeat split; reflexivity |].
  split; [exact (Hthree EmptyString "["%char "1"%char "2"%char "3"%char ":45] two hours in"
                   eq_refl eq_refl eq_refl eq_refl eq_refl) |].
  split; [split; [reflexivity | exact Hstamp] |].
  split.
  { etransitivity;
      [exact (Hlater "["%char "1"%char "0"%char "0"%char ":00] see " "(1:05) later"
                "1" "05" " later" eq_refl eq_refl eq_refl eq_refl Hstamp)
      | vm_compute; reflexivity]. }
  split; [exact Hsome |].
  destruct (Honly _ Hsome)
    as (pre & open & mm & ss & close & post & Hline & _ & _ & _ & Hmm & _ & Hss).
  exists pre, open, mm, ss, close, post. auto.
Defined.

End LineFacts.

(** * Further properties of the code *)

(** ** White space and trimming *)

Module TrimFacts.

Import StringFacts.

#[local] Arguments JS.isWhiteSpace : simpl never.

Lemma trimEnd_cons_kept (a : ascii) (s : string) :
  JS.isWhiteSpace a = false ->
  exists r, JS.trimEnd (String a s) = String a r.
Proof.
  intros Ha. cbn [JS.trimEnd]. destruct (JS.trimEnd s) as [| b r].
  - rewrite Ha. now exists EmptyString.
  - now exists (String b r).
Qed.

Lemma trimEnd_idem (s : string) : JS.trimEnd (JS.trimEnd s) = JS.trimEnd s.
Proof.
  induction s as [| a s IH]; [reflexivity |].
  cbn [JS.trimEnd]. destruct (JS.trimEnd s) as [| b r] eqn:Hs.
  - destruct (JS.isWhiteSpace a) eqn:Ha; [reflexivity |].
    unfold JS.str. cbn [JS.trimEnd]. now rewrite Ha.
  - cbn [JS.trimEnd] in *. now rewrite IH.
Qed.

(** What [trimStart] leaves is empty or starts with a character that is
    not white space. *)
Lemma trimStart_head (s : string) :
  JS.trimStart s = EmptyString \/
  exists a r, JS.trimStart s = String a r /\ JS.isWhiteSpace a = false.
Proof.
  induction s as [| a s IH]; [now left |].
  cbn [JS.trimStart]. destruct (JS.isWhiteSpace a) eqn:Ha; [exact IH |].
  right. now exists a, s.
Qed.

(** [trim] is idempotent. *)
Lemma trim_idem (s : string) : JS.trim (JS.trim s) = JS.trim s.
Proof.
  unfold JS.trim. destruct (trimStart_head s) as [-> | (a & r & -> & Ha)];
    [reflexivity |].
  destruct (trimEnd_cons_kept a r Ha) as (r' & Hr'). rewrite Hr'.
  cbn [JS.trimStart]. rewrite Ha. rewrite <- Hr'. apply trimEnd_idem.
Qed.

Lemma trimEnd_app_space (s : string) (w : ascii) :
  JS.isWhiteSpace w = true -> JS.trimEnd (s ++ JS.str w) = JS.trimEnd s.
Proof.
  intros Hw. induction s as [| a s IH].
  - cbn. now rewrite Hw.
  - change (String a s ++ JS.str w) with (String a (s ++ JS.str w)).
    cbn [JS.trimEnd]. now rewrite IH.
Qed.

(** A white-space character at either end does not change [trim]. *)
Lemma trim_app_space (s : string) (w : ascii) :
  JS.isWhiteSpace w = true -> JS.trim (s ++ JS.str w) = JS.trim s.
Proof.
  intros Hw. unfold JS.trim. induction s as [| a s IH].
  - cbn. now rewrite Hw.
  - change (String a s ++ JS.str w) with (String a (s ++ JS.str w)).
    cbn [JS.trimStart]. destruct (JS.isWhiteSpace a); [exact IH |].
    change (String a (s ++ JS.str w)) with (String a s ++ JS.str w).
    now apply trimEnd_app_space.
Qed.

Lemma trim_cons_space (s : string) (w : ascii) :
  JS.isWhiteSpace w = true -> JS.trim (String w s) = JS.trim s.
Proof. intros Hw. unfold JS.trim. cbn [JS.trimStart]. now rewrite Hw. Qed.

Lemma trimStart_app_space (s : string) (w : ascii) :
  JS.isWhiteSpace w = true ->
  JS.trimStart (s ++ JS.str w) = JS.trimStart s ++ JS.str w \/
  (JS.trimStart (s ++ JS.str w) = EmptyString /\ JS.trimStart s = EmptyString).
Proof.
  intros Hw. induction s as [| a s IH].
  - right. cbn. now rewrite Hw.
  - change (String a s ++ JS.str w) with (String a (s ++ JS.str w)).
    cbn [JS.trimStart]. destruct (JS.isWhiteSpace a); [exact IH |]. now left.
Qed.

Lemma isWhiteSpace_cases (w : ascii) :
  JS.isWhiteSpace w = true ->
  In w ["009"; "010"; "011"; "012"; "013"; " "; "160"]%char.
Proof.
  destruct w as [[] [] [] [] [] [] [] []]; intros H;
    try discriminate H; simpl; auto 12.
Qed.

End TrimFacts.

(** ** The line parser: what every segment looks like *)

Module SegmentFacts.

Import Transcript StringFacts ParserFacts TimestampFacts TrimFacts.

#[local] Arguments JS.isDigit : simpl never.
#[local] Arguments JS.isWhiteSpace : simpl never.
#[local] Arguments Regex.anyOf : simpl never.

Lemma digitVal_range (a : ascii) :
  JS.isDigit a = true -> (0 <= JS.digitVal a <= 9)%Z.
Proof.
  unfold JS.isDigit, JS.digitVal.
  intros [Hlo Hhi]%andb_true_iff.
  apply Nat.leb_le in Hlo, Hhi. lia.
Qed.

(** One or two digits are worth at most 99. *)
Lemma digitsVal_range (ds : string) :
  all JS.isDigit ds = true ->
  String.length ds = 1 \/ String.length ds = 2 ->
  (0 <= JS.digitsVal ds <= 99)%Z.
Proof.
  intros Hds [Hlen | Hlen].
  - destruct ds as [| d1 [| ? ?]]; try discriminate Hlen.
    cbn [all] in Hds. apply andb_true_iff in Hds as [H1%digitVal_range _].
    unfold JS.digitsVal. cbn. lia.
  - destruct ds as [| d1 [| d2 [| ? ?]]]; try discriminate Hlen.
    cbn [all] in Hds. apply andb_true_iff in Hds as [H1%digitVal_range Hds].
    apply andb_true_iff in Hds as [H2%digitVal_range _].
    unfold JS.digitsVal. cbn. lia.
Qed.

(** The shape of a segment of the line parser. *)
Definition wellFormed (entry : TranscriptEntry) : Prop :=
  text entry <> EmptyString /\
  JS.trim (text entry) = text entry /\
  duration entry = JS.zero /\
  exists n : Z, offset entry = JS.ofZ n /\ (0 <= n <= 6039)%Z.

Lemma lineEntries_wellFormed (line : string) (entry : TranscriptEntry) :
  In entry (lineEntries line) -> wellFormed entry.
Proof.
  intros Hin.
  assert (Hsome : lineEntries line <> []) by (intros H; rewrite H in Hin; contradiction).
  apply lineEntries_inv in Hsome as (pre & mm & ss & post & Hfirst).
  rewrite (lineEntries_FirstStamp _ _ _ _ _ Hfirst) in Hin.
  destruct Hfirst as (s & _ & (open & close & _ & _ & _ & Hmm & Hlen & Hss & Hlen2) & _).
  unfold segment in Hin.
  destruct (JS.truthy (JS.trim (pre ++ JS.trimStart post))) eqn:Htext; [| contradiction].
  destruct Hin as [<- | []]. unfold wellFormed. cbn [text duration offset].
  split; [now apply SetupFacts.truthy_true_iff |].
  split; [apply trim_idem |]. split; [reflexivity |].
  exists (JS.digitsVal mm * 60 + JS.digitsVal ss)%Z. split; [reflexivity |].
  pose proof (digitsVal_range mm Hmm Hlen).
  pose proof (digitsVal_range ss Hss (or_intror Hlen2)). lia.
Qed.

(** X1.  Every segment the line parser produces for a plain-text payload
    has a text that is not empty and carries no white space at either end,
    the duration 0, and a whole offset between 0 and 99*60+99 seconds. *)
Theorem plain_text_segments_well_formed
    (parseFromString : string -> Dom.Node) (payload : string) :
  JS.includes "<transcript>" payload = false ->
  Forall wellFormed (parseTranscriptText parseFromString payload).
Proof.
  intros Hplain. rewrite parseTranscriptText_plain by assumption.
  apply List.Forall_forall. intros entry Hin.
  apply List.in_flat_map in Hin as (line & _ & Hin).
  now apply (lineEntries_wellFormed line).
Qed.

Lemma plain_text_segments_well_formed_witness :
  JS.includes "<transcript>" "intro [99:99]  the end  " = false /\
  Forall wellFormed
    (parseTranscriptText ControllerFacts.noDocument "intro [99:99]  the end  ") /\
  parseTranscriptText ControllerFacts.noDocument "intro [99:99]  the end  "
    = [ {| text := "intro the end"; duration := JS.zero; offset := JS.ofZ 6039 |} ].
Proof.
  split; [reflexivity |]. split.
  - apply (plain_text_segments_well_formed ControllerFacts.noDocument
             "intro [99:99]  the end  " eq_refl).
  - vm_compute. reflexivity.
Defined.

(** *** White space around a line *)

Lemma space_not_digit (w : ascii) : JS.isWhiteSpace w = true -> JS.isDigit w = false.
Proof.
  intros H%isWhiteSpace_cases. simpl in H.
  repeat (destruct H as [<- | H]; [reflexivity |]). contradiction.
Qed.

Lemma space_not_open (w : ascii) : JS.isWhiteSpace w = true -> isOpen w = false.
Proof.
  intros H%isWhiteSpace_cases. simpl in H.
  repeat (destruct H as [<- | H]; [reflexivity |]). contradiction.
Qed.

Lemma space_not_close (w : ascii) : JS.isWhiteSpace w = true -> isClose w = false.
Proof.
  intros H%isWhiteSpace_cases. simpl in H.
  repeat (destruct H as [<- | H]; [reflexivity |]). contradiction.
Qed.

Lemma secondsAt_app_space (s : string) (w : ascii) :
  JS.isWhiteSpace w = true ->
  secondsAt (s ++ JS.str w)
    = option_map (fun '(ss, rest) => (ss, rest ++ JS.str w)) (secondsAt s).
Proof.
  intros Hw. pose proof (space_not_close w Hw) as Hclose.
  destruct s as [| colon [| s1 [| s2 [| close rest]]]]; try reflexivity.
  - cbn. rewrite Hclose. now rewrite andb_false_r.
  - cbn [append]. unfold secondsAt.
    now destruct (isColon colon && (JS.isDigit s1 && JS.isDigit s2) && isClose close).
Qed.

Lemma stampAt_app_space (s : string) (w : ascii) :
  JS.isWhiteSpace w = true ->
  stampAt (s ++ JS.str w)
    = option_map (fun '(mm, ss, rest) => (mm, ss, rest ++ JS.str w)) (stampAt s).
Proof.
  intros Hw. pose proof (space_not_digit w Hw) as Hdigit.
  destruct s as [| open [| m1 s]]; try reflexivity.
  - cbn. rewrite Hdigit. now rewrite andb_false_r.
  - cbn [append]. unfold stampAt.
    destruct (isOpen open && JS.isDigit m1); [| reflexivity].
    destruct s as [| m2 s].
    + cbn [append]. unfold JS.str at 1. rewrite Hdigit. reflexivity.
    + cbn [append].
      change (String m2 (s ++ JS.str w)) with (String m2 s ++ JS.str w).
      rewrite !(secondsAt_app_space _ w Hw).
      destruct (JS.isDigit m2).
      * destruct (secondsAt s) as [[ss rest] |]; [reflexivity |].
        cbn [option_map]. now destruct (secondsAt (String m2 s)) as [[ss rest] |].
      * now destruct (secondsAt (String m2 s)) as [[ss rest] |].
Qed.

Lemma firstStamp_app_space (seen s : string) (w : ascii) :
  JS.isWhiteSpace w = true ->
  firstStamp seen (s ++ JS.str w)
    = option_map (fun '(pre, mm, ss, rest) => (pre, mm, ss, rest ++ JS.str w))
        (firstStamp seen s).
Proof.
  intros Hw. revert seen. induction s as [| a s IH]; intros seen.
  - cbn [append]. unfold JS.str. rewrite firstStamp_step.
    change (String w EmptyString) with (EmptyString ++ JS.str w).
    rewrite (stampAt_app_space EmptyString w Hw). reflexivity.
  - change (String a s ++ JS.str w) with (String a (s ++ JS.str w)).
    rewrite !firstStamp_step.
    change (String a (s ++ JS.str w)) with (String a s ++ JS.str w).
    rewrite (stampAt_app_space _ w Hw).
    destruct (stampAt (String a s)) as [[[mm ss] rest] |]; [reflexivity |].
    cbn [option_map]. apply IH.
Qed.

Lemma firstStamp_seen (seen s : string) :
  firstStamp seen s
    = option_map (fun '(pre, mm, ss, rest) => (seen ++ pre, mm, ss, rest))
        (firstStamp EmptyString s).
Proof.
  destruct (firstStamp EmptyString s) as [[[[pre mm] ss] post] |] eqn:Hfirst.
  - apply firstStamp_sound in Hfirst as (pre' & Hpre & Hfirst).
    cbn [append] in Hpre. subst pre'. cbn [option_map].
    now apply firstStamp_found.
  - apply firstStamp_none in Hfirst. now apply firstStamp_none.
Qed.

Lemma trim_after_stamp (pre post : string) (w : ascii) :
  JS.isWhiteSpace w = true ->
  JS.trim (pre ++ JS.trimStart (post ++ JS.str w)) = JS.trim (pre ++ JS.trimStart post).
Proof.
  intros Hw.
  destruct (trimStart_app_space post w Hw) as [-> | [-> ->]]; [| reflexivity].
  rewrite <- append_assoc. now apply trim_app_space.
Qed.

(** X2.  A white-space character before or after a line (an indentation,
    the carriage return of a CR LF line end) does not change the segment
    of the line. *)
Theorem line_ignores_surrounding_space (line : string) (w : ascii) :
  JS.isWhiteSpace w = true ->
  lineEntries (line ++ JS.str w) = lineEntries line /\
  lineEntries (String w line) = lineEntries line.
Proof.
  intros Hw. split.
  - rewrite !lineEntries_firstStamp, (firstStamp_app_space _ _ w Hw).
    destruct (firstStamp EmptyString line) as [[[[pre mm] ss] post] |]; [| reflexivity].
    cbn [option_map]. cbv zeta. now rewrite (trim_after_stamp pre post w Hw).
  - rewrite !lineEntries_firstStamp, firstStamp_step.
    rewrite (stampAt_not_open w line (space_not_open w Hw)).
    rewrite firstStamp_seen.
    destruct (firstStamp EmptyString line) as [[[[pre mm] ss] post] |]; [| reflexivity].
    cbn [option_map append]. cbv zeta. unfold JS.str. cbn [append].
    now rewrite (trim_cons_space _ w Hw).
Qed.

Definition CR : ascii := "013"%char.

Lemma line_ignores_surrounding_space_witness :
  JS.isWhiteSpace CR = true /\
  lineEntries ("[1:05] hello there" ++ JS.str CR) = lineEntries "[1:05] hello there".
Proof.
  split; [reflexivity |].
  exact (proj1 (line_ignores_surrounding_space "[1:05] hello there" CR eq_refl)).
Defined.

End SegmentFacts.

(** ** Time stamps written and read back *)

Module TimeFacts.

Import Transcript Pipeline VideoPlayer StringFacts ParserFacts TimestampFacts TrimFacts.

#[local] Arguments JS.isDigit : simpl never.
#[local] Arguments JS.isWhiteSpace : simpl never.
#[local] Arguments Regex.anyOf : simpl never.

Lemma toString_ofZ (z : Z) : JS.toString (JS.ofZ z) = JS.showZ z.
Proof.
  unfold JS.toString, JS.ofZ, JS.Qtrunc, inject_Z. cbn [Qnum Qden].
  now rewrite Z.quot_1_r.
Qed.

Lemma floor_div_sixty (n : Z) :
  JS.floor (JS.div (JS.ofZ n) sixty) = JS.ofZ (n / 60).
Proof.
  unfold JS.div, sixty, JS.ofZ, JS.floor. cbn [JS.Qis_zero inject_Z Qnum Z.eqb].
  f_equal. f_equal. rewrite (Qfloor_comp _ _ (Qred_correct _)).
  unfold Qfloor, Qdiv, Qmult, Qinv. cbn [Qnum Qden].
  now rewrite Z.mul_1_r.
Qed.

Lemma floor_rem_sixty (n : Z) :
  JS.floor (JS.rem (JS.ofZ n) sixty) = JS.ofZ (Z.rem n 60).
Proof.
  assert (Hq : JS.Qtrunc (inject_Z n / inject_Z 60) = Z.quot n 60).
  { unfold JS.Qtrunc, Qdiv, Qmult, Qinv, inject_Z. cbn [Qnum Qden].
    now rewrite Z.mul_1_r. }
  assert (Heq : inject_Z n - inject_Z 60 * inject_Z (Z.quot n 60)
                == inject_Z (Z.rem n 60)).
  { unfold Qeq, inject_Z. cbn [Qnum Qden Qminus Qplus Qopp Qmult].
    pose proof (Z.quot_rem' n 60). lia. }
  change (JS.rem (JS.ofZ n) sixty)
    with (JS.Num (Qred (inject_Z n - inject_Z 60 *
                        inject_Z (JS.Qtrunc (inject_Z n / inject_Z 60))))).
  cbn [JS.floor].
  now rewrite Hq, (Qfloor_comp _ _ (Qred_correct _)), (Qfloor_comp _ _ Heq), Qfloor_Z.
Qed.

(** [formatTime] and the timestamp of an exported line, on a whole number
    of seconds. *)
Lemma formatTime_whole (n : Z) :
  formatTime (JS.ofZ n)
    = JS.showZ (n / 60) ++ ":" ++ JS.padStart2 (JS.showZ (Z.rem n 60)).
Proof.
  unfold formatTime. now rewrite floor_div_sixty, floor_rem_sixty, !toString_ofZ.
Qed.

(** The decimal writing of the numbers below 100, checked one by one. *)
Definition smallOk (k : nat) : bool :=
  let m := Z.of_nat k in
  let s := JS.showZ m in
  all JS.isDigit s &&
  (Nat.eqb (String.length s) 1 || Nat.eqb (String.length s) 2) &&
  (JS.digitsVal s =? m)%Z &&
  all JS.isDigit (JS.padStart2 s) &&
  Nat.eqb (String.length (JS.padStart2 s)) 2 &&
  (JS.digitsVal (JS.padStart2 s) =? m)%Z.

Lemma small_numbers : forallb smallOk (seq 0 100) = true.
Proof. vm_compute. reflexivity. Qed.

Lemma small_number (m : Z) :
  (0 <= m < 100)%Z ->
  all JS.isDigit (JS.showZ m) = true /\
  (String.length (JS.showZ m) = 1 \/ String.length (JS.showZ m) = 2) /\
  JS.digitsVal (JS.showZ m) = m /\
  all JS.isDigit (JS.padStart2 (JS.showZ m)) = true /\
  String.length (JS.padStart2 (JS.showZ m)) = 2 /\
  JS.digitsVal (JS.padStart2 (JS.showZ m)) = m.
Proof.
  intros Hm.
  assert (Hin : In (Z.to_nat m) (seq 0 100)) by (apply in_seq; lia).
  pose proof (proj1 (forallb_forall smallOk (seq 0 100)) small_numbers _ Hin) as Hok.
  unfold smallOk in Hok. rewrite Z2Nat.id in Hok by lia. cbv zeta in Hok.
  repeat (apply andb_true_iff in Hok as [Hok ?]).
  repeat split; try assumption.
  - match goal with H : _ || _ = true |- _ => apply orb_true_iff in H as [H | H] end;
      [left | right]; now apply Nat.eqb_eq.
  - now apply Z.eqb_eq.
  - now apply Nat.eqb_eq.
  - now apply Z.eqb_eq.
Qed.

(** Below 100 minutes the timestamp written by [formatTime], put between
    square brackets, is a timestamp of the line parser, worth the same
    number of seconds. *)
Lemma formatted_stamp (n : Z) (post : string) :
  (0 <= n < 6000)%Z ->
  exists mm ss,
    StampAt ("[" ++ formatTime (JS.ofZ n) ++ "]" ++ post) mm ss post /\
    (JS.digitsVal mm * 60 + JS.digitsVal ss = n)%Z.
Proof.
  intros Hn. rewrite formatTime_whole, Z.rem_mod_nonneg by lia.
  destruct (small_number (n / 60)) as (Hm1 & Hm2 & Hm3 & _);
    [split; [apply Z.div_pos; lia | apply Z.div_lt_upper_bound; lia] |].
  destruct (small_number (n mod 60)) as (_ & _ & _ & Hs1 & Hs2 & Hs3);
    [pose proof (Z.mod_pos_bound n 60); lia |].
  exists (JS.showZ (n / 60)), (JS.padStart2 (JS.showZ (n mod 60))). split.
  - exists "["%char, "]"%char. split.
    + cbn [append]. f_equal. now rewrite !append_assoc.
    + auto 10.
  - rewrite Hm3, Hs3. pose proof (Z.div_mod n 60). lia.
Qed.

Lemma formatted_line_entries (n : Z) (t : string) :
  (0 <= n < 6000)%Z -> JS.trim t = t -> t <> EmptyString ->
  lineEntries ("[" ++ formatTime (JS.ofZ n) ++ "] " ++ t)
    = [ {| text := t; duration := JS.zero; offset := JS.ofZ n |} ].
Proof.
  intros Hn Htrim Ht.
  destruct (formatted_stamp n (" " ++ t) Hn) as (mm & ss & Hstamp & Hval).
  change ("] " ++ t) with ("]" ++ " " ++ t).
  rewrite (lineEntries_leading _ _ _ _ Hstamp).
  change (" " ++ t) with (String " " t).
  rewrite (trim_cons_space t " " eq_refl), Htrim.
  unfold segment. apply SetupFacts.truthy_true_iff in Ht. rewrite Ht.
  now rewrite Hval.
Qed.

(** X3.  An exported transcript line is read back by the line parser:
    for an offset of a whole number of seconds below 100 minutes and a
    text that is not empty and has no white space at its ends, the line
    [[formatTime(offset)] text] gives exactly one segment, with that
    text, that offset and the duration 0. *)
Theorem exported_line_parses_back (n : Z) (t : string) :
  (0 <= n < 6000)%Z -> JS.trim t = t -> t <> EmptyString ->
  lineEntries ("[" ++ formatTime (JS.ofZ n) ++ "] " ++ t)
    = [ {| text := t; duration := JS.zero; offset := JS.ofZ n |} ].
Proof.
  intros Hn Htrim Ht. now apply formatted_line_entries.
Qed.

Lemma exported_line_parses_back_witness :
  ((0 <= 754 < 6000)%Z /\ JS.trim "and so on" = "and so on") /\
  formatTime (JS.ofZ 754) = "12:34" /\
  lineEntries "[12:34] and so on"
    = [ {| text := "and so on"; duration := JS.zero; offset := JS.ofZ 754 |} ].
Proof.
  split; [split; [lia | reflexivity] |]. split; [reflexivity |].
  apply (exported_line_parses_back 754 "and so on"); [lia | reflexivity | discriminate].
Defined.

(** *** A whole transcript *)

(** A segment that an exported line can carry: a whole offset below 100
    minutes and a one-line text without white space at its ends. *)
Definition exportable (entry : TranscriptEntry) : Prop :=
  (exists n : Z, offset entry = JS.ofZ n /\ (0 <= n < 6000)%Z) /\
  JS.trim (text entry) = text entry /\
  text entry <> EmptyString /\
  isLine (text entry).

Definition withoutDuration (entry : TranscriptEntry) : TranscriptEntry :=
  {| text := text entry; duration := JS.zero; offset := offset entry |}.

Lemma digits_one_line (s : string) : all JS.isDigit s = true -> isLine s.
Proof.
  unfold isLine. apply all_impl. intros a Ha.
  destruct (Ascii.eqb_spec a JS.LF) as [-> | _]; [discriminate Ha | reflexivity].
Qed.

Lemma transcriptLine_one_line (entry : TranscriptEntry) :
  exportable entry -> isLine (NotesFacts.transcriptLine entry).
Proof.
  intros ((n & Hoff & Hn) & _ & _ & Htext).
  unfold NotesFacts.transcriptLine. rewrite Hoff, formatTime_whole.
  rewrite Z.rem_mod_nonneg by lia.
  destruct (small_number (n / 60)) as (Hm & _);
    [split; [apply Z.div_pos; lia | apply Z.div_lt_upper_bound; lia] |].
  destruct (small_number (n mod 60)) as (_ & _ & _ & Hs & _);
    [pose proof (Z.mod_pos_bound n 60); lia |].
  apply digits_one_line in Hm, Hs. unfold isLine in *.
  rewrite !all_append, Hm, Hs, Htext. reflexivity.
Qed.

(** X4.  Export and read back: for a transcript whose segments are all
    exportable, the lines written to the notes file, joined by line feeds,
    are parsed by the text parser into the same segments, in the same
    order, with the duration 0 (the lines carry no duration), provided
    the lines do not contain the marker of the XML form. *)
Theorem exported_transcript_parses_back
    (parseFromString : string -> Dom.Node) (transcript : list TranscriptEntry) :
  Forall exportable transcript ->
  JS.includes "<transcript>"
    (JS.join (JS.str JS.LF) (List.map NotesFacts.transcriptLine transcript)) = false ->
  parseTranscriptText parseFromString
    (JS.join (JS.str JS.LF) (List.map NotesFacts.transcriptLine transcript))
    = List.map withoutDuration transcript.
Proof.
  intros Hall Hplain.
  rewrite parseTranscriptText_lines; [| | exact Hplain].
  - clear Hplain. induction Hall as [| entry rest Hentry _ IH]; [reflexivity |].
    cbn [List.map flat_map]. rewrite IH.
    destruct Hentry as ((n & Hoff & Hn) & Htrim & Htext & _).
    unfold NotesFacts.transcriptLine. rewrite Hoff.
    rewrite (formatted_line_entries n (text entry) Hn Htrim Htext).
    unfold withoutDuration. now rewrite Hoff.
  - clear Hplain. induction Hall as [| entry rest Hentry _ IH]; constructor.
    + now apply transcriptLine_one_line.
    + exact IH.
Qed.

Definition twoLines : list TranscriptEntry :=
  [ {| text := "good morning"; duration := JS.ofZ 2; offset := JS.ofZ 5 |};
    {| text := "and welcome"; duration := JS.ofZ 3; offset := JS.ofZ 125 |} ].

Lemma twoLines_exportable : Forall exportable twoLines.
Proof.
  repeat constructor; try reflexivity; try discriminate.
  - exists 5%Z. split; [reflexivity | lia].
  - exists 125%Z. split; [reflexivity | lia].
Qed.

Lemma exported_transcript_parses_back_witness :
  Forall exportable twoLines /\
  JS.join (JS.str JS.LF) (List.map NotesFacts.transcriptLine twoLines)
    = "[0:05] good morning" ++ JS.str JS.LF ++ "[2:05] and welcome" /\
  parseTranscriptText ControllerFacts.noDocument
    ("[0:05] good morning" ++ JS.str JS.LF ++ "[2:05] and welcome")
    = List.map withoutDuration twoLines.
Proof.
  split; [exact twoLines_exportable |]. split; [reflexivity |].
  exact (exported_transcript_parses_back ControllerFacts.noDocument twoLines
           twoLines_exportable eq_refl).
Defined.

(** *** From 100 minutes on *)

(** The decimal writing of the numbers from 100 to 5999 starts with three
    digits and goes on with digits. *)
Definition longOk (k : nat) : bool :=
  match JS.showZ (Z.of_nat k) with
  | String d1 (String d2 (String d3 rest)) =>
      JS.isDigit d1 && JS.isDigit d2 && JS.isDigit d3 && all JS.isDigit rest
  | _ => false
  end.

Lemma long_numbers : forallb longOk (seq 100 (Z.to_nat 5900)) = true.
Proof. vm_compute. reflexivity. Qed.

Lemma digits_not_open (s : string) : all JS.isDigit s = true -> all notOpen s = true.
Proof.
  apply all_impl. intros a Ha. unfold notOpen. now rewrite (digit_not_open a Ha).
Qed.

(** X5.  An exported line is not read back from 100 minutes on: for a
    whole offset between 100 minutes and 100 hours, the line
    [[formatTime(offset)] text] gives no segment (when the text itself
    has no opening bracket), because its minutes have three digits or
    more. *)
Theorem exported_line_lost_after_100_minutes (n : Z) (t : string) :
  (6000 <= n < 360000)%Z -> all notOpen t = true ->
  lineEntries ("[" ++ formatTime (JS.ofZ n) ++ "] " ++ t) = [].
Proof.
  intros Hn Ht. rewrite formatTime_whole, Z.rem_mod_nonneg by lia.
  destruct (small_number (n mod 60)) as (_ & _ & _ & Hs & _);
    [pose proof (Z.mod_pos_bound n 60); lia |].
  assert (Hm : (100 <= n / 60 < 6000)%Z)
    by (split; [apply Z.div_le_lower_bound; lia | apply Z.div_lt_upper_bound; lia]).
  assert (Hin : In (Z.to_nat (n / 60)) (seq 100 (Z.to_nat 5900))) by (apply in_seq; lia).
  pose proof (proj1 (forallb_forall longOk (seq 100 (Z.to_nat 5900))) long_numbers _ Hin) as Hok.
  unfold longOk in Hok. rewrite Z2Nat.id in Hok by lia.
  destruct (JS.showZ (n / 60)) as [| d1 [| d2 [| d3 rest]]]; try discriminate Hok.
  apply andb_true_iff in Hok as [Hok Hrest].
  apply andb_true_iff in Hok as [Hok H3].
  apply andb_true_iff in Hok as [H1 H2].
  cbn [append]. apply lineEntries_three_digits; try assumption.
  apply digits_not_open in Hs, Hrest.
  rewrite !all_append. cbn [all]. rewrite Hrest, Hs, Ht. reflexivity.
Qed.

Lemma exported_line_lost_after_100_minutes_witness :
  ((6000 <= 6000 < 360000)%Z /\ all notOpen "two hours in" = true) /\
  formatTime (JS.ofZ 6000) = "100:00" /\
  lineEntries "[100:00] two hours in" = [].
Proof.
  split; [split; [lia | reflexivity] |]. split; [reflexivity |].
  apply (exported_line_lost_after_100_minutes 6000 "two hours in"); [lia | reflexivity].
Defined.

End TimeFacts.

(** ** The transcript loaders: flags, notifications, first success *)

Module LoaderFacts.

Import Transcript Pipeline PipelineFacts.

#[local] Arguments parseTranscriptText : simpl never.
#[local] Arguments parseTranscriptXML : simpl never.

(** The values given to [setIsLoadingTranscript], the toasts (title and
    variant), and the transcripts passed to the parent, in order. *)
Definition flags {A} (m : M A) : list bool :=
  flat_map (fun e => match e with SetIsLoadingTranscript b => [b] | _ => [] end)
           (Eff.log m).

Definition notices {A} (m : M A) : list (string * bool) :=
  flat_map (fun e => match e with Toast t _ d => [(t, d)] | _ => [] end) (Eff.log m).

Definition updates {A} (m : M A) : list (list TranscriptEntry) :=
  flat_map (fun e => match e with OnTranscriptUpdate t => [t] | _ => [] end) (Eff.log m).

(** What [response.text()] gives, when it gives something. *)
Definition bodyText {J} (b : Net.Body J) : option string :=
  match b with
  | Net.Unreadable => None
  | Net.Opaque raw | Net.Parsed raw _ => Some raw
  end.

Ltac unfold_observers := unfold flags, notices, updates.

(** X6.  Whatever the network answers, a load started on the chat screen
    or on the player screen switches the loading flag on once and off
    once, in that order, and shows exactly one toast: "Transcript Loaded"
    when a transcript was set, the destructive "Transcript Error"
    otherwise. *)
Theorem loaders_flag_and_notify_once
    (parseFromString : string -> Dom.Node) (world : World) (video : VideoData)
    (youtubeKey : option string) (hasCallback : bool) :
  let chat := loadTranscript parseFromString world video [] youtubeKey in
  let player := fetchTranscript parseFromString world video hasCallback in
  flags chat = [true; false] /\
  flags player = [true; false] /\
  notices chat = match transcriptSet chat with
                 | Some _ => [("Transcript Loaded", false)]
                 | None => [("Transcript Error", true)]
                 end /\
  notices player = match transcriptSet player with
                   | Some _ => [("Transcript Loaded", false)]
                   | None => [("Transcript Error", true)]
                   end.
Proof.
  intros chat player. subst chat player.
  repeat apply conj; unfold_observers; unfold_loader; run_loader; reflexivity.
Qed.

(** X7.  First success wins on the chat screen: with a stored key, a
    caption listing with at least one track and a readable content of the
    first track, the loader reads that track only, sets the transcript
    parsed from it, and does not call the timed-text endpoint. *)
Theorem loadTranscript_first_track_wins
    (parseFromString : string -> Dom.Node) (world : World) (video : VideoData)
    (key raw content : string) (status status' : N)
    (track : string) (others : list string) (body : Net.Body unit) :
  JS.truthy key = true ->
  captions world (id video) key
    = Net.Resolved status (Net.Parsed raw (Some (track :: others))) ->
  Net.ok status = true ->
  caption world track key = Net.Resolved status' body ->
  Net.ok status' = true ->
  bodyText body = Some content ->
  Eff.log (loadTranscript parseFromString world video [] (Some key))
    = [ SetIsLoadingTranscript true;
        Await (GetCaptions (id video) key);
        Await (GetCaption track key);
        SetTranscript (parseTranscriptText parseFromString content);
        RewriteWelcome;
        Toast "Transcript Loaded"
          "Video transcript loaded via YouTube API for better AI responses." false;
        SetIsLoadingTranscript false ].
Proof.
  intros Hkey Hcap Hok Htrack Hok' Hbody. unfold_loader. simpl.
  rewrite Hkey, Hcap. simpl. rewrite Hok. simpl. rewrite Htrack. simpl.
  rewrite Hok'. simpl.
  destruct body; simpl in Hbody; [discriminate | |]; injection Hbody as ->; reflexivity.
Qed.

(** A network with two tracks for every video. *)
Definition twoTracks : World :=
  {| captions := fun _ _ => Net.Resolved 200 (Net.Parsed "{..}" (Some ["en"; "fr"]));
     caption := fun track _ =>
       if String.eqb track "en" then Net.Resolved 200 (Net.Opaque "[0:01] hello")
       else Net.Resolved 200 (Net.Opaque "[0:01] bonjour");
     timedtext := fun _ => Net.Resolved 200 (Net.Opaque "<transcript/>");
     playerFrame := false |}.

Lemma loadTranscript_first_track_wins_witness :
  (JS.truthy "yt" = true /\ Net.ok 200 = true) /\
  attempts (loadTranscript noDocument twoTracks someVideo [] (Some "yt"))
    = [CaptionListing; CaptionListing] /\
  transcriptSet (loadTranscript noDocument twoTracks someVideo [] (Some "yt"))
    = Some [ {| text := "hello"; duration := JS.zero; offset := JS.ofZ 1 |} ].
Proof.
  split; [split; reflexivity |].
  pose proof (loadTranscript_first_track_wins noDocument twoTracks someVideo
                "yt" "{..}" "[0:01] hello" 200 200 "en" ["fr"]
                (Net.Opaque "[0:01] hello")
                eq_refl eq_refl eq_refl eq_refl eq_refl eq_refl) as Hlog.
  unfold attempts, transcriptSet. rewrite Hlog. split; vm_compute; reflexivity.
Defined.

(** X8.  The player screen and its parent stay in step: the parent is
    notified exactly when a callback was passed and a transcript was set,
    once, and with the transcript that was set.  When the timed-text
    endpoint answers 2xx with a readable body, that transcript is the XML
    parse of the body and no other method is tried. *)
Theorem fetchTranscript_parent_in_step
    (parseFromString : string -> Dom.Node) (world : World) (video : VideoData)
    (hasCallback : bool) :
  let run := fetchTranscript parseFromString world video hasCallback in
  updates run = (if hasCallback
                 then match transcriptSet run with Some t => [t] | None => [] end
                 else []) /\
  forall status body content,
    timedtext world (id video) = Net.Resolved status body ->
    Net.ok status = true ->
    bodyText body = Some content ->
    transcriptSet run = Some (parseTranscriptXML parseFromString content) /\
    attempts run = [TimedText].
Proof.
  intros run. subst run. split.
  - unfold_observers; unfold_loader; run_loader; reflexivity.
  - intros status body content Htt Hok Hbody. unfold_loader. simpl.
    rewrite Htt. simpl. rewrite Hok. simpl.
    destruct body; simpl in Hbody; [discriminate | |]; injection Hbody as ->;
      destruct hasCallback; split; reflexivity.
Qed.

Lemma fetchTranscript_parent_in_step_witness :
  (Net.ok 200 = true /\
   bodyText (Net.Opaque "<transcript/>" : Net.Body unit) = Some "<transcript/>") /\
  transcriptSet (fetchTranscript noDocument twoTracks someVideo true)
    = Some (parseTranscriptXML noDocument "<transcript/>") /\
  updates (fetchTranscript noDocument twoTracks someVideo true)
    = [parseTranscriptXML noDocument "<transcript/>"].
Proof.
  split; [split; reflexivity |].
  destruct (fetchTranscript_parent_in_step noDocument twoTracks someVideo true)
    as (Hupdates & Hok).
  destruct (Hok 200%N (Net.Opaque "<transcript/>") "<transcript/>"
              eq_refl eq_refl eq_refl) as (Hset & _).
  split; [exact Hset |]. rewrite Hupdates, Hset. reflexivity.
Defined.

(** The only effects of the controller's automatic load. *)
Definition quiet (e : Effect) : bool :=
  match e with
  | Await _ | SetTranscript _ => true
  | _ => false
  end.

Definition settings {A} (m : M A) : list (list TranscriptEntry) :=
  flat_map (fun e => match e with SetTranscript t => [t] | _ => [] end) (Eff.log m).

(** X9.  The automatic load of the controller is silent (it only awaits
    requests and sets the transcript, no toast, no flag) and sets the
    transcript at most once.  Without a key it sends nothing.  When the
    request for the caption listing is rejected, it turns to the
    timed-text endpoint and sets the XML parse of its body. *)
Theorem autoLoadTranscript_fallback
    (parseFromString : string -> Dom.Node) (world : World) (video : VideoData) :
  (forall youtube,
     forallb quiet (Eff.log (autoLoadTranscript parseFromString world video youtube)) = true /\
     List.length (settings (autoLoadTranscript parseFromString world video youtube)) <= 1) /\
  (forall youtube,
     youtube = None \/ youtube = Some EmptyString ->
     Eff.log (autoLoadTranscript parseFromString world video youtube) = []) /\
  (forall key message status body content,
     JS.truthy key = true ->
     captions world (id video) key = Net.Rejected message ->
     timedtext world (id video) = Net.Resolved status body ->
     Net.ok status = true ->
     bodyText body = Some content ->
     Eff.log (autoLoadTranscript parseFromString world video (Some key))
       = [ Await (GetCaptions (id video) key);
           Await (GetTimedText (id video));
           SetTranscript (parseTranscriptXML parseFromString content) ]).
Proof.
  repeat apply conj.
  - intros youtube. split; unfold settings; unfold_loader; run_loader;
      first [reflexivity | lia].
  - intros youtube [-> | ->]; reflexivity.
  - intros key message status body content Hkey Hcap Htt Hok Hbody.
    unfold_loader. simpl. rewrite Hkey, Hcap. simpl. rewrite Htt. simpl.
    rewrite Hok. simpl.
    destruct body; simpl in Hbody; [discriminate | |]; injection Hbody as ->; reflexivity.
Qed.

(** The caption listing is unreachable, the timed-text endpoint is not. *)
Definition listingDown : World :=
  {| captions := fun _ _ => Net.Rejected "Failed to fetch";
     caption := fun _ _ => Net.Rejected "Failed to fetch";
     timedtext := fun _ => Net.Resolved 200 (Net.Opaque "<transcript/>");
     playerFrame := false |}.

Lemma autoLoadTranscript_fallback_witness :
  (JS.truthy "yt" = true /\ Net.ok 200 = true) /\
  attempts (autoLoadTranscript noDocument listingDown someVideo (Some "yt"))
    = [CaptionListing; TimedText] /\
  transcriptSet (autoLoadTranscript noDocument listingDown someVideo (Some "yt"))
    = Some (parseTranscriptXML noDocument "<transcript/>") /\
  Eff.log (autoLoadTranscript noDocument listingDown someVideo None) = [].
Proof.
  split; [split; reflexivity |].
  destruct (autoLoadTranscript_fallback noDocument listingDown someVideo)
    as (_ & Hnone & Hfall).
  pose proof (Hfall "yt" "Failed to fetch" 200%N (Net.Opaque "<transcript/>")
                "<transcript/>" eq_refl eq_refl eq_refl eq_refl eq_refl) as Hlog.
  unfold attempts, transcriptSet. rewrite Hlog.
  split; [reflexivity |]. split; [reflexivity |].
  exact (Hnone None (or_introl eq_refl)).
Defined.

End LoaderFacts.

(** ** The chat screen: a whole turn, the key, the probe *)

Module TurnFacts.

Import Transcript Pipeline VideoChat ChatFacts.

#[local] Arguments buildPrompt : simpl never.
#[local] Arguments buildContext : simpl never.
#[local] Arguments describeError : simpl never.
#[local] Arguments statusMessage : simpl never.
#[local] Arguments showStatus : simpl never.

Ltac unfold_send :=
  unfold sendMessage, testApiKey, settled, requests, toastsShown, Eff.log,
    Net.fetch, Net.text, Net.json, Gemini.candidateText.

Ltac run_send :=
  repeat (simpl;
          match goal with
          | |- context [match ?x with _ => _ end] =>
              lazymatch x with
              | context [match _ with _ => _ end] => fail
              | _ => destruct x eqn:?
              end
          end);
  simpl.

(** The message appended for the question. *)
Definition question (st : State) (now : string) : Message :=
  {| mid := now; content := JS.trim (input st); sender := user |}.

(** How a turn ends: with one reply of the assistant, or with one toast. *)
Definition turnEnds (st st' : State) (now now1 : string)
    (toasts : list (string * string)) : Prop :=
  (exists reply,
     messages st' = (messages st ++
                     [question st now; {| mid := now1; content := reply; sender := ai |}])%list /\
     toasts = []) \/
  (exists description,
     messages st' = (messages st ++ [question st now])%list /\
     toasts = [("Chat Error", description)]).

Section Turn.

Variable generateContent : string -> RequestBody -> Net.Response Gemini.Data.
Variable video : VideoData.
Variable st : State.
Variable geminiKey : option string.
Variables now now1 : string.

(** X10.  A turn that starts (the input is not blank and no request is
    pending) keeps the earlier messages, appends the trimmed question,
    clears the input, leaves the transcript as it is, ends with the
    loading flag off, and gives exactly one of the two: a reply of the
    assistant and no toast, or no reply and one "Chat Error" toast.  A
    turn that does not start changes nothing. *)
Theorem sendMessage_turn :
  let run := sendMessage generateContent video st geminiKey now now1 in
  (JS.truthy (JS.trim (input st)) = false \/ isLoading st = true ->
   Eff.log run = []) /\
  (JS.truthy (JS.trim (input st)) = true -> isLoading st = false ->
   input (settled run st) = EmptyString /\
   isLoading (settled run st) = false /\
   currentTranscript (settled run st) = currentTranscript st /\
   turnEnds st (settled run st) now now1 (toastsShown run)).
Proof.
  intros run. subst run. split.
  - intros [H | H]; unfold sendMessage; rewrite H; [reflexivity |].
    now rewrite orb_true_r.
  - intros Hin Hload. unfold turnEnds, question. unfold_send.
    rewrite Hin, Hload. run_send;
      (repeat split; try reflexivity);
      first [ left; eexists; split; [rewrite <- ?List.app_assoc; reflexivity | reflexivity]
            | right; eexists; split; reflexivity ].
Qed.

End Turn.

Lemma sendMessage_turn_witness :
  (JS.truthy (JS.trim (input (asking "what is said?" []))) = true /\
   isLoading (asking "what is said?" []) = false) /\
  (let run := sendMessage
                (fun _ _ => Net.Resolved 200 (Net.Parsed "{..}" (Gemini.Value (Some "It says hello."))))
                ControllerFacts.videoA (asking "what is said?" []) (Some "gm") "1" "2" in
   input (settled run (asking "what is said?" [])) = EmptyString /\
   isLoading (settled run (asking "what is said?" [])) = false /\
   List.map content (messages (settled run (asking "what is said?" [])))
     = [ content (welcome ControllerFacts.videoA []); "what is said?"; "It says hello." ]).
Proof.
  split; [split; reflexivity |]. cbv zeta.
  destruct (sendMessage_turn
              (fun _ _ => Net.Resolved 200 (Net.Parsed "{..}" (Gemini.Value (Some "It says hello."))))
              ControllerFacts.videoA (asking "what is said?" []) (Some "gm") "1" "2")
    as (_ & Hturn).
  destruct (Hturn eq_refl eq_refl) as (Hinput & Hload & _ & _).
  split; [exact Hinput |]. split; [exact Hload |]. vm_compute. reflexivity.
Defined.

(** *** The key *)

(** A stored key that is there and not blank. *)
Definition usable (geminiKey : option string) : bool :=
  match geminiKey with
  | Some k => JS.truthy (JS.trim k)
  | None => false
  end.

Definition keyNotFound : string :=
  "Gemini API key not found in localStorage. Please go back to setup and enter your API key.".

Definition keyEmpty : string :=
  "Gemini API key is empty. Please go back to setup and enter a valid API key.".

(** X11.  Nothing is sent to the generative endpoint without a usable
    key: when the stored key is missing, empty or blank, neither a chat
    turn nor the key test sends a request, and the turn shows the toast
    that names the problem; every request that is sent carries the stored
    key. *)
Theorem no_request_without_key
    (generateContent : string -> RequestBody -> Net.Response Gemini.Data)
    (video : VideoData) (st : State) (geminiKey : option string)
    (now now1 statusText : string) :
  let turn := sendMessage generateContent video st geminiKey now now1 in
  let probe := testApiKey generateContent geminiKey statusText in
  (usable geminiKey = false ->
   requests turn = [] /\ requests probe = [] /\
   (JS.truthy (JS.trim (input st)) = true -> isLoading st = false ->
    toastsShown turn
      = [("Chat Error",
          match geminiKey with
          | Some (String _ _) => keyEmpty
          | _ => keyNotFound
          end)])) /\
  (forall rq, In rq (requests turn) \/ In rq (requests probe) ->
              geminiKey = Some (fst rq) /\ usable geminiKey = true).
Proof.
  intros turn probe. subst turn probe. split.
  - intros Hkey. repeat apply conj.
    + unfold_send.
      destruct (negb (JS.truthy (JS.trim (input st))) || isLoading st); [reflexivity |].
      destruct geminiKey as [[| a k] |]; try reflexivity.
      simpl in Hkey. simpl. rewrite Hkey. reflexivity.
    + unfold_send. destruct geminiKey as [[| a k] |]; try reflexivity.
      simpl in Hkey. simpl. rewrite Hkey. reflexivity.
    + intros Hin Hload. unfold_send. rewrite Hin, Hload.
      destruct geminiKey as [[| a k] |]; try reflexivity.
      simpl in Hkey. simpl. rewrite Hkey. reflexivity.
  - intros rq [Hrq | Hrq]; revert Hrq; unfold_send.
    + destruct (negb (JS.truthy (JS.trim (input st))) || isLoading st); [intros [] |].
      destruct geminiKey as [[| a k] |]; try (intros []).
      simpl. destruct (JS.truthy (JS.trim (String a k))) eqn:Hk; [| intros []].
      run_send; intros [<- | []]; split; reflexivity || exact Hk.
    + destruct geminiKey as [[| a k] |]; try (intros []).
      simpl. destruct (JS.truthy (JS.trim (String a k))) eqn:Hk; [| intros []].
      run_send; intros [<- | []]; split; reflexivity || exact Hk.
Qed.

Lemma no_request_without_key_witness :
  usable (Some "   ") = false /\
  requests (sendMessage (fun _ _ => Net.Rejected "Failed to fetch")
              ControllerFacts.videoA (asking "what is said?" []) (Some "   ") "1" "2") = [] /\
  toastsShown (sendMessage (fun _ _ => Net.Rejected "Failed to fetch")
                 ControllerFacts.videoA (asking "what is said?" []) (Some "   ") "1" "2")
    = [("Chat Error", keyEmpty)].
Proof.
  split; [reflexivity |].
  destruct (no_request_without_key (fun _ _ => Net.Rejected "Failed to fetch")
              ControllerFacts.videoA (asking "what is said?" []) (Some "   ")
              "1" "2" "OK") as (Hnone & _).
  destruct (Hnone eq_refl) as (Hturn & _ & Htoast).
  split; [exact Hturn | exact (Htoast eq_refl eq_refl)].
Defined.

(** *** The reply *)

Definition noReply : string := "I couldn't generate a response. Please try again.".

(** X12.  When the endpoint answers 2xx with a body that parses as
    JSON, the turn ends by the value of the body.  For a value other than
    [null] it appends the text of the completion as the reply of the
    assistant, or, when the completion is missing or empty, the text "I
    couldn't generate a response. Please try again."; no toast is shown.
    For the value [null] reading the completion throws: the turn appends no
    reply and shows one "Chat Error" toast with the message of that
    error. *)
Theorem sendMessage_reply
    (generateContent : string -> RequestBody -> Net.Response Gemini.Data)
    (video : VideoData) (st : State) (geminiKey : option string) (key : string)
    (now now1 raw : string) (status : N) (data : Gemini.Data) :
  ready st geminiKey key ->
  generateContent key [[promptOf video st]]
    = Net.Resolved status (Net.Parsed raw data) ->
  Net.ok status = true ->
  let run := sendMessage generateContent video st geminiKey now now1 in
  match data with
  | Gemini.Value completion =>
      messages (settled run st)
        = (messages st ++
           [ question st now;
             {| mid := now1;
                content := match completion with
                           | Some (String a t) => String a t
                           | _ => noReply
                           end;
                sender := ai |} ])%list /\
      toastsShown run = []
  | Gemini.Null =>
      messages (settled run st) = (messages st ++ [question st now])%list /\
      toastsShown run
        = [("Chat Error", "Cannot read properties of null (reading 'candidates')")]
  end.
Proof.
  intros (Hin & Hload & -> & Hkey) Hresp Hok run. subst run.
  pose proof (trim_truthy _ Hkey) as Hkey'.
  unfold_send. rewrite Hin, Hload, Hkey, Hkey'. simpl.
  fold (promptOf video st). rewrite Hresp. simpl. rewrite Hok. simpl.
  unfold question. destruct data as [| [[| a t] |]]; simpl;
    rewrite <- ?List.app_assoc; split; reflexivity.
Qed.

Lemma sendMessage_reply_witness :
  (ready (asking "what is said?" []) (Some "gm") "gm" /\ Net.ok 200 = true) /\
  List.map content
    (messages (settled
       (sendMessage (fun _ _ => Net.Resolved 200 (Net.Parsed "{}" (Gemini.Value None)))
          ControllerFacts.videoA (asking "what is said?" []) (Some "gm") "1" "2")
       (asking "what is said?" [])))
    = [ content (welcome ControllerFacts.videoA []); "what is said?"; noReply ] /\
  toastsShown
    (sendMessage (fun _ _ => Net.Resolved 200 (Net.Parsed "null" Gemini.Null))
       ControllerFacts.videoA (asking "what is said?" []) (Some "gm") "1" "2")
    = [("Chat Error", "Cannot read properties of null (reading 'candidates')")].
Proof.
  assert (Hready : ready (asking "what is said?" []) (Some "gm") "gm")
    by (repeat split; reflexivity).
  split; [split; [exact Hready | reflexivity] |]. split.
  - pose proof (sendMessage_reply
                  (fun _ _ => Net.Resolved 200 (Net.Parsed "{}" (Gemini.Value None)))
                  ControllerFacts.videoA (asking "what is said?" []) (Some "gm") "gm"
                  "1" "2" "{}" 200%N (Gemini.Value None) Hready eq_refl eq_refl) as H.
    cbv zeta in H. destruct H as (Hmsgs & _). rewrite Hmsgs. reflexivity.
  - pose proof (sendMessage_reply
                  (fun _ _ => Net.Resolved 200 (Net.Parsed "null" Gemini.Null))
                  ControllerFacts.videoA (asking "what is said?" []) (Some "gm") "gm"
                  "1" "2" "null" 200%N Gemini.Null Hready eq_refl eq_refl) as H.
    cbv zeta in H. destruct H as (_ & Htoast). exact Htoast.
Defined.

Definition midTurn : State :=
  setMessages
    [ welcome ControllerFacts.videoA [];
      {| mid := "1700000000000"; content := "hi"; sender := user |} ]
    (initial ControllerFacts.videoA []).

(** *** The key test *)

(** X13.  The key test never touches the conversation: it leaves the
    messages, the input and the transcript as they are and ends with the
    loading flag off; what it sends is the fixed text "Hello, Gemini!";
    and it shows exactly one toast, "API Key Test Successful" when a
    usable key got a 2xx answer and "API Key Test Failed" otherwise. *)
Theorem testApiKey_probe
    (generateContent : string -> RequestBody -> Net.Response Gemini.Data)
    (st : State) (geminiKey : option string) (statusText : string) :
  let run := testApiKey generateContent geminiKey statusText in
  settled run st = setIsLoading false st /\
  (forall rq, In rq (requests run) -> snd rq = [["Hello, Gemini!"]]) /\
  List.map fst (toastsShown run)
    = [ match geminiKey with
        | Some k =>
            if JS.truthy (JS.trim k) then
              match generateContent k [["Hello, Gemini!"]] with
              | Net.Resolved status _ =>
                  if Net.ok status then "API Key Test Successful"
                  else "API Key Test Failed"
              | Net.Rejected _ => "API Key Test Failed"
              end
            else "API Key Test Failed"
        | None => "API Key Test Failed"
        end ].
Proof.
  intros run. subst run. repeat apply conj.
  - unfold_send. run_send; reflexivity.
  - intros rq. unfold_send. run_send; intros H;
      repeat (destruct H as [<- | H]; [reflexivity |]); contradiction.
  - unfold_send. destruct geminiKey as [[| a k] |]; try reflexivity.
    simpl. destruct (JS.truthy (JS.trim (String a k))); [| reflexivity].
    simpl. destruct (generateContent (String a k) [["Hello, Gemini!"]])
      as [msg | status body]; [reflexivity |].
    simpl. destruct (Net.ok status); [reflexivity |].
    destruct body; reflexivity.
Qed.

Lemma testApiKey_probe_witness :
  In ("gm", [["Hello, Gemini!"]])
     (requests (testApiKey (fun _ _ => Net.Resolved 403 (Net.Opaque "denied"))
                  (Some "gm") "Forbidden")) /\
  toastsShown (testApiKey (fun _ _ => Net.Resolved 403 (Net.Opaque "denied"))
                 (Some "gm") "Forbidden")
    = [("API Key Test Failed", "API Key Test Failed: 403 - Forbidden")] /\
  messages (settled (testApiKey (fun _ _ => Net.Resolved 403 (Net.Opaque "denied"))
                       (Some "gm") "Forbidden") midTurn)
    = messages midTurn.
Proof.
  destruct (testApiKey_probe (fun _ _ => Net.Resolved 403 (Net.Opaque "denied"))
              midTurn (Some "gm") "Forbidden") as (Hstate & _ & _).
  split; [left; reflexivity |]. split; [reflexivity |].
  rewrite Hstate. reflexivity.
Defined.

(** *** The welcome message *)

(** X14.  Taking over a transcript from the controller rewrites the
    welcome message and nothing else: the messages keep their number,
    their order, their identifiers and senders, every message other than
    the welcome message is unchanged, and the local transcript becomes
    the one passed; an empty transcript changes nothing (a transcript
    once taken over is not cleared); taking over twice is taking over
    once. *)
Theorem syncTranscript_keeps_conversation
    (video : VideoData) (transcript : list TranscriptEntry) (st : State) :
  let st' := syncTranscript video transcript st in
  (transcript = [] -> st' = st) /\
  (transcript <> [] ->
   currentTranscript st' = transcript /\
   input st' = input st /\ isLoading st' = isLoading st /\
   Forall2 (fun old new =>
              mid new = mid old /\ sender new = sender old /\
              content new = (if String.eqb (mid old) "welcome"
                             then welcomeWithTranscript video else content old))
           (messages st) (messages st')) /\
  syncTranscript video transcript st' = st'.
Proof.
  intros st'. subst st'. unfold syncTranscript.
  destruct transcript as [| e t].
  - cbn [List.length Nat.ltb Nat.leb].
    split; [reflexivity |]. split; [intros H; congruence | reflexivity].
  - change (0 <? List.length (e :: t))%nat with true. cbv iota.
    split; [discriminate |]. split.
    + intros _. cbn [currentTranscript input isLoading messages].
      repeat split. unfold rewriteWelcome.
      induction (messages st) as [| m ms IH]; cbn [List.map]; constructor; [| exact IH].
      destruct (String.eqb (mid m) "welcome"); repeat split; reflexivity.
    + cbn [currentTranscript input isLoading messages]. f_equal.
      unfold rewriteWelcome. rewrite List.map_map. apply List.map_ext.
      intros m. destruct (String.eqb (mid m) "welcome") eqn:Hm; cbn [mid];
        rewrite Hm; reflexivity.
Qed.

Lemma syncTranscript_keeps_conversation_witness :
  twoSegments <> [] /\
  currentTranscript (syncTranscript ControllerFacts.videoA twoSegments midTurn)
    = twoSegments /\
  List.map content (messages (syncTranscript ControllerFacts.videoA twoSegments midTurn))
    = [ welcomeWithTranscript ControllerFacts.videoA; "hi" ].
Proof.
  assert (Hsome : twoSegments <> []) by discriminate.
  split; [exact Hsome |].
  destruct (syncTranscript_keeps_conversation ControllerFacts.videoA twoSegments midTurn)
    as (_ & Hkeep & _).
  destruct (Hkeep Hsome) as (Hcurrent & _ & _ & _).
  split; [exact Hcurrent | reflexivity].
Defined.

End TurnFacts.

(** ** The controller: what holds in every reachable state *)

Module InvariantFacts.

Import Transcript Pipeline Index App.

Definition stored (c : Config) : gmap string string :=
  ApiKeySetup.localStorage (page c).

Definition keyed (t : Task) : Prop :=
  match t with
  | ChatAutoLoad _ youtube => exists k, youtube = Some k /\ JS.truthy k = true
  | PlayerFetch _ => True
  end.

(** The setup view is the view without keys; a video is selected exactly
    on the player and chat views; the keys of the controller are not empty
    and are the ones in local storage; every automatic load in flight was
    started with a key. *)
Definition Consistent (c : Config) : Prop :=
  (currentView (state c) = setup <-> apiKeys (state c) = None) /\
  (selectedVideo (state c) = None <->
   currentView (state c) = setup \/ currentView (state c) = search) /\
  (forall k, apiKeys (state c) = Some k ->
     JS.truthy (youtube k) = true /\ JS.truthy (gemini k) = true /\
     stored c !! "youtube_api_key" = Some (youtube k) /\
     stored c !! "gemini_api_key" = Some (gemini k)) /\
  Forall keyed (inflight c).

Section Reach.

Variable parseFromString : string -> Dom.Node.
Variable world : World.

(** A task that settles changes the transcript and nothing else. *)
Lemma deliver_frame (t : Task) (st : State) :
  currentView (deliver parseFromString world t st) = currentView st /\
  apiKeys (deliver parseFromString world t st) = apiKeys st /\
  videos (deliver parseFromString world t st) = videos st /\
  selectedVideo (deliver parseFromString world t st) = selectedVideo st /\
  isLoading (deliver parseFromString world t st) = isLoading st.
Proof.
  unfold deliver. destruct t as [video youtube | video].
  - generalize (Eff.log (autoLoadTranscript parseFromString world video youtube)).
    intros l. revert st. induction l as [| e l IH]; intros st; [auto |].
    cbn [fold_left]. destruct e; try apply IH.
    destruct (IH (setVideoTranscript t st)) as (H1 & H2 & H3 & H4 & H5).
    rewrite H1, H2, H3, H4, H5. auto.
  - generalize (Eff.log (fetchTranscript parseFromString world video true)).
    intros l. revert st. induction l as [| e l IH]; intros st; [auto |].
    cbn [fold_left]. destruct e; try apply IH.
    destruct (IH (handleTranscriptUpdate t st)) as (H1 & H2 & H3 & H4 & H5).
    rewrite H1, H2, H3, H4, H5. auto.
Qed.

Lemma initial_consistent (storage : gmap string string) (toasts : list ApiKeySetup.Notice) :
  Consistent {| page := {| ApiKeySetup.localStorage := storage;
                           ApiKeySetup.toasts := toasts;
                           ApiKeySetup.app := initial |};
                inflight := [] |}.
Proof.
  unfold Consistent, state, stored. cbn.
  split; [tauto |]. split; [split; [now left | reflexivity] |].
  split; [intros k H; discriminate H | constructor].
Qed.

Lemma boot_consistent (initialStorage : gmap string string) :
  Consistent (boot initialStorage).
Proof.
  unfold boot, ApiKeySetup.start, mount.
  destruct (initialStorage !! "youtube_api_key") as [y |] eqn:Hy;
    [| apply initial_consistent].
  destruct (initialStorage !! "gemini_api_key") as [g |] eqn:Hg;
    [| apply initial_consistent].
  destruct (JS.truthy y) eqn:Hty; [| apply initial_consistent].
  destruct (JS.truthy g) eqn:Htg; [| apply initial_consistent].
  unfold Consistent, state, stored. cbn.
  split; [split; discriminate |].
  split; [split; [intros _; now right | reflexivity] |].
  split; [| constructor].
  intros k [= <-]. cbn. auto.
Qed.

Lemma render_setup (st : State) : render st = SetupScreen -> currentView st = setup.
Proof.
  unfold render. destruct (currentView st), (selectedVideo st); congruence.
Qed.

Lemma render_search (st : State) (cards : list VideoData) :
  render st = SearchScreen cards -> currentView st <> setup.
Proof.
  unfold render. destruct (currentView st), (selectedVideo st); congruence.
Qed.

Lemma render_player (st : State) (video : VideoData) :
  render st = PlayerScreen video -> currentView st = player.
Proof.
  unfold render. destruct (currentView st), (selectedVideo st); congruence.
Qed.

Lemma render_chat (st : State) (video : VideoData) (t : list TranscriptEntry) :
  render st = ChatScreen video t -> currentView st = chat.
Proof.
  unfold render. destruct (currentView st), (selectedVideo st); congruence.
Qed.

(** The properties only depend on the view, the keys, the selection,
    local storage and the tasks. *)
Lemma consistent_same (c c' : Config) :
  currentView (state c') = currentView (state c) ->
  apiKeys (state c') = apiKeys (state c) ->
  selectedVideo (state c') = selectedVideo (state c) ->
  stored c' = stored c ->
  Forall keyed (inflight c') ->
  Consistent c -> Consistent c'.
Proof.
  unfold Consistent. intros -> -> -> -> Htasks (Hview & Hsel & Hkeys & _).
  auto.
Qed.

Lemma submit_consistent (c : Config) (y g : string) :
  currentView (state c) = setup ->
  Consistent c ->
  Consistent {| page := ApiKeySetup.handleSubmit y g (page c); inflight := inflight c |}.
Proof.
  intros Hsetup Hc. unfold ApiKeySetup.handleSubmit.
  destruct (negb (JS.truthy (JS.trim y)) || negb (JS.truthy (JS.trim g))) eqn:Hreject.
  - apply (consistent_same c); try reflexivity; [apply Hc | exact Hc].
  - apply orb_false_iff in Hreject as [Hy Hg].
    apply negb_false_iff in Hy, Hg.
    destruct Hc as (_ & Hsel & _ & Htasks).
    assert (Hnone : selectedVideo (state c) = None) by (apply Hsel; now left).
    unfold Consistent, state, stored, handleKeysSet in *. cbn in *.
    split; [split; discriminate |].
    split; [split; [intros _; now right | intros _; exact Hnone] |].
    split; [| exact Htasks].
    intros k [= <-]. cbn. repeat split; try assumption.
    + rewrite lookup_insert_ne by discriminate. apply lookup_insert_eq.
    + apply lookup_insert_eq.
Qed.

Lemma open_consistent (c : Config) (video : VideoData) (view : AppView) :
  view = player \/ view = chat ->
  currentView (state c) <> setup ->
  Consistent c ->
  Consistent (onPage (fun st => setCurrentView view (setSelectedVideo (Some video) st)) c).
Proof.
  intros Hopen Hrender (Hview & Hsel & Hkeys & Htasks).
  unfold Consistent, state, stored, onPage in *. cbn in *.
  split; [split; [intros ->; destruct Hopen; discriminate
                 | intros H; apply Hview in H; contradiction] |].
  split; [split; [discriminate | intros [-> | ->]; destruct Hopen; discriminate] |].
  split; assumption.
Qed.

Lemma step_consistent (c c' : Config) (ev : Event) :
  Consistent c -> step parseFromString world c ev = Some c' -> Consistent c'.
Proof.
  intros Hc. unfold step.
  destruct ev as [y g | results | video | video | | | i].
  - (* the keys are submitted *)
    destruct (render (state c)) eqn:Hrender; try discriminate.
    apply render_setup in Hrender. intros [= <-].
    now apply submit_consistent.
  - (* a search settles *)
    intros Hstep.
    assert (Hres : c' = onPage (setVideos results) c)
      by (destruct (render (state c)); destruct (apiKeys (state c)); congruence).
    subst c'. apply (consistent_same c); try reflexivity; [apply Hc | exact Hc].
  - (* play *)
    destruct (render (state c)) eqn:Hrender; try discriminate.
    apply render_search in Hrender.
    destruct (existsb (VideoData_eqb video) cards); [| discriminate].
    intros [= <-].
    apply (consistent_same (onPage (fun st => setCurrentView player
                                       (setSelectedVideo (Some video) st)) c));
      try reflexivity.
    + apply Hc.
    + apply open_consistent; [auto | exact Hrender | exact Hc].
  - (* chat *)
    destruct (render (state c)) eqn:Hrender; try discriminate.
    apply render_search in Hrender.
    destruct (existsb (VideoData_eqb video) cards); [| discriminate].
    intros [= <-].
    apply (consistent_same (onPage (fun st => setCurrentView chat
                                       (setSelectedVideo (Some video) st)) c));
      try reflexivity.
    + cbn. apply Forall_app. split; [apply Hc |]. constructor; [| constructor].
      destruct Hc as (Hview & _ & Hkeys & _).
      destruct (apiKeys (state c)) as [k |] eqn:Hk.
      * exists (youtube k). split; [reflexivity |]. now apply (Hkeys k).
      * exfalso. apply Hrender. now apply Hview.
    + apply open_consistent; auto.
  - (* back *)
    intros Hstep.
    assert (Hleft : currentView (state c) = player \/ currentView (state c) = chat).
    { destruct (render (state c)) eqn:Hrender; try discriminate;
        [left; now apply render_player in Hrender
        | right; now apply render_chat in Hrender]. }
    assert (Hres : c' = onPage handleBackToSearch c)
      by (destruct (render (state c)); congruence).
    subst c'. destruct Hc as (Hview & Hsel & Hkeys & Htasks).
    assert (Hsome : apiKeys (state c) <> None).
    { intros H. apply Hview in H. destruct Hleft; congruence. }
    unfold Consistent, state, stored, onPage in *. cbn in *.
    split; [split; [discriminate | intros H; contradiction] |].
    split; [split; [intros _; now right | reflexivity] |].
    split; assumption.
  - (* the transcript is asked for on the player screen *)
    destruct (render (state c)); try discriminate. intros [= <-].
    apply (consistent_same c); try reflexivity; [| exact Hc].
    cbn. apply Forall_app. split; [apply Hc |]. repeat constructor.
  - (* a task settles *)
    intros Hstep.
    assert (Hres : match nth_error (inflight c) i with
                   | Some t =>
                       c' = {| page := page (onPage (deliver parseFromString world t) c);
                               inflight := (firstn i (inflight c) ++
                                            skipn (S i) (inflight c))%list |}
                   | None => False
                   end).
    { destruct (render (state c)); destruct (nth_error (inflight c) i); congruence. }
    destruct (nth_error (inflight c) i) as [t |]; [| contradiction]. subst c'.
    destruct (deliver_frame t (state c)) as (H1 & H2 & _ & H4 & _).
    apply (consistent_same c); try assumption; try reflexivity.
    cbn. apply Forall_app. destruct Hc as (_ & _ & _ & Htasks).
    split; [now apply Forall_take | now apply Forall_drop].
Qed.

Lemma run_consistent (c c' : Config) (evs : list Event) :
  Consistent c -> run parseFromString world c evs = Some c' -> Consistent c'.
Proof.
  revert c. induction evs as [| ev evs IH]; intros c Hc; cbn [run].
  - now intros [= <-].
  - destruct (step parseFromString world c ev) as [c1 |] eqn:Hstep; [| discriminate].
    intros Hrun. apply (IH c1); [| exact Hrun].
    now apply (step_consistent c c1 ev).
Qed.

(** Only an accepted submission changes the keys and local storage. *)
Lemma step_storage (c c' : Config) (ev : Event) :
  step parseFromString world c ev = Some c' ->
  (apiKeys (state c') = apiKeys (state c) /\ stored c' = stored c) \/
  (exists y g,
     JS.truthy y = true /\ JS.truthy g = true /\
     apiKeys (state c') = Some (Keys y g) /\
     stored c' = <["gemini_api_key" := g]> (<["youtube_api_key" := y]> (stored c))).
Proof.
  unfold step. destruct ev as [y g | results | video | video | | | i].
  - destruct (render (state c)); try discriminate. intros [= <-].
    unfold ApiKeySetup.handleSubmit.
    destruct (negb (JS.truthy (JS.trim y)) || negb (JS.truthy (JS.trim g))) eqn:Hreject.
    + left. split; reflexivity.
    + apply orb_false_iff in Hreject as [Hy Hg].
      apply negb_false_iff in Hy, Hg.
      right. exists (JS.trim y), (JS.trim g). repeat split; assumption.
  - intros Hstep. left.
    assert (Hres : c' = onPage (setVideos results) c)
      by (destruct (render (state c)); destruct (apiKeys (state c)); congruence).
    subst c'. split; reflexivity.
  - destruct (render (state c)); try discriminate.
    destruct (existsb (VideoData_eqb video) cards); [| discriminate].
    intros [= <-]. left. split; reflexivity.
  - destruct (render (state c)); try discriminate.
    destruct (existsb (VideoData_eqb video) cards); [| discriminate].
    intros [= <-]. left. split; reflexivity.
  - intros Hstep. left.
    assert (Hres : c' = onPage handleBackToSearch c)
      by (destruct (render (state c)); congruence).
    subst c'. split; reflexivity.
  - destruct (render (state c)); try discriminate. intros [= <-].
    left. split; reflexivity.
  - intros Hstep. left.
    assert (Hres : match nth_error (inflight c) i with
                   | Some t =>
                       c' = {| page := page (onPage (deliver parseFromString world t) c);
                               inflight := (firstn i (inflight c) ++
                                            skipn (S i) (inflight c))%list |}
                   | None => False
                   end).
    { destruct (render (state c)); destruct (nth_error (inflight c) i); congruence. }
    destruct (nth_error (inflight c) i) as [t |]; [| contradiction]. subst c'.
    destruct (deliver_frame t (state c)) as (_ & H2 & _).
    split; [exact H2 | reflexivity].
Qed.

(** What the mount effect restores from local storage. *)
Definition restored (storage : gmap string string) : option ApiKeys :=
  apiKeys (mount storage initial).

Lemma restored_insert (storage : gmap string string) (y g : string) :
  JS.truthy y = true -> JS.truthy g = true ->
  restored (<["gemini_api_key" := g]> (<["youtube_api_key" := y]> storage)) =
  Some (Keys y g).
Proof.
  intros Hy Hg. unfold restored, mount.
  rewrite lookup_insert_ne by discriminate.
  rewrite !lookup_insert_eq. rewrite Hy, Hg. reflexivity.
Qed.

Lemma run_restorable (c c' : Config) (evs : list Event) :
  apiKeys (state c) = restored (stored c) ->
  run parseFromString world c evs = Some c' ->
  apiKeys (state c') = restored (stored c').
Proof.
  revert c. induction evs as [| ev evs IH]; intros c Hc; cbn [run].
  - now intros [= <-].
  - destruct (step parseFromString world c ev) as [c1 |] eqn:Hstep; [| discriminate].
    apply IH.
    destruct (step_storage c c1 ev Hstep) as [[Hk Hs] | (y & g & Hy & Hg & Hk & Hs)].
    + now rewrite Hk, Hs.
    + rewrite Hk, Hs. symmetry. now apply restored_insert.
Qed.

Lemma mount_initial (storage : gmap string string) :
  render (mount storage initial) =
  match restored storage with
  | Some _ => SearchScreen []
  | None => SetupScreen
  end.
Proof.
  unfold restored, mount.
  destruct (storage !! "youtube_api_key") as [y |]; [| reflexivity].
  destruct (storage !! "gemini_api_key") as [g |]; [| reflexivity].
  destruct (JS.truthy y && JS.truthy g); reflexivity.
Qed.

(** X15.  Whatever the user does and whenever the network answers, the
    controller stays consistent: it is on the setup view exactly when it
    has no keys; a video is selected exactly on the player and chat views;
    the keys it holds are not empty and are the two entries of local
    storage; every automatic transcript load in flight was started with a
    key.  Hence what is rendered is the screen of the current view: the
    player and chat screens never fall back to the search screen for want
    of a selected video. *)
Theorem reachable_consistent (initialStorage : gmap string string)
    (evs : list Event) (c : Config) :
  run parseFromString world (boot initialStorage) evs = Some c ->
  Consistent c /\
  match currentView (state c) with
  | setup => render (state c) = SetupScreen
  | search => render (state c) = SearchScreen (videos (state c))
  | player => exists video, render (state c) = PlayerScreen video
  | chat => exists video, render (state c) = ChatScreen video (videoTranscript (state c))
  end.
Proof.
  intros Hrun.
  assert (Hc : Consistent c)
    by (apply (run_consistent (boot initialStorage) c evs);
        [apply boot_consistent | exact Hrun]).
  split; [exact Hc |].
  destruct Hc as (_ & Hsel & _). unfold render.
  destruct (currentView (state c)) eqn:Hview.
  - reflexivity.
  - destruct (selectedVideo (state c)); reflexivity.
  - destruct (selectedVideo (state c)) as [video |]; [now exists video |].
    destruct Hsel as [Hsel _]. destruct (Hsel eq_refl); discriminate.
  - destruct (selectedVideo (state c)) as [video |]; [now exists video |].
    destruct Hsel as [Hsel _]. destruct (Hsel eq_refl); discriminate.
Qed.

(** X16.  Reloading the page, at any moment, keeps the keys and nothing
    else: the mount effect on the local storage of a reached configuration
    restores exactly the keys the controller held, on the search screen
    with no results when there are keys and on the setup screen when there
    are none, with nothing in flight. *)
Theorem reload_restores_keys (initialStorage : gmap string string)
    (evs : list Event) (c : Config) :
  run parseFromString world (boot initialStorage) evs = Some c ->
  apiKeys (state (boot (stored c))) = apiKeys (state c) /\
  render (state (boot (stored c))) =
    match apiKeys (state c) with
    | Some _ => SearchScreen []
    | None => SetupScreen
    end /\
  inflight (boot (stored c)) = [].
Proof.
  intros Hrun.
  assert (Hkeys : apiKeys (state c) = restored (stored c))
    by (apply (run_restorable (boot initialStorage) c evs); [reflexivity | exact Hrun]).
  split; [symmetry; exact Hkeys |]. split; [| reflexivity].
  rewrite Hkeys. apply mount_initial.
Qed.

End Reach.

Import ControllerFacts.

Lemma reachable_consistent_witness :
  run noDocument onlyA (boot ∅) lateArrival <> None /\
  exists c, run noDocument onlyA (boot ∅) lateArrival = Some c /\ Consistent c.
Proof.
  destruct (run noDocument onlyA (boot ∅) lateArrival) as [c |] eqn:Hrun.
  - split; [discriminate |]. exists c. split; [reflexivity |].
    apply (reachable_consistent noDocument onlyA ∅ lateArrival c Hrun).
  - exfalso. vm_compute in Hrun. discriminate Hrun.
Defined.

Lemma reload_restores_keys_witness :
  exists c, run noDocument onlyA (boot ∅) lateArrival = Some c /\
            apiKeys (state (boot (stored c))) = Some (Keys "yt" "gm").
Proof.
  destruct (run noDocument onlyA (boot ∅) lateArrival) as [c |] eqn:Hrun.
  - exists c. split; [reflexivity |].
    destruct (reload_restores_keys noDocument onlyA ∅ lateArrival c Hrun) as (Hk & _).
    rewrite Hk. vm_compute in Hrun. injection Hrun as <-. reflexivity.
  - exfalso. vm_compute in Hrun. discriminate Hrun.
Defined.

End InvariantFacts.

(** ** Notes kept in local storage *)

Module NotesStoreFacts.

Import Transcript Pipeline VideoPlayer.

Lemma notesKey_inj (v w : VideoData) : notesKey v = notesKey w -> id v = id w.
Proof. unfold notesKey. cbn. now intros [= H]. Qed.

Lemma notesKey_not_youtube (v : VideoData) : notesKey v <> "youtube_api_key".
Proof. unfold notesKey. cbn. discriminate. Qed.

Lemma notesKey_not_gemini (v : VideoData) : notesKey v <> "gemini_api_key".
Proof. unfold notesKey. cbn. discriminate. Qed.

(** The timer's callback writes no other entry than the notes of the
    video. *)
Lemma autoSave_other (video : VideoData) (notes : string)
    (localStorage : gmap string string) (key : string) :
  key <> notesKey video ->
  autoSave video notes localStorage !! key = localStorage !! key.
Proof.
  intros Hkey. unfold autoSave. destruct (JS.truthy (JS.trim notes)); [| reflexivity].
  now apply lookup_insert_ne.
Qed.

(** X17.  Notes that are not blank survive a reload: once the timer has
    fired, the load effect of the same video gives back the notes as
    typed, whatever was on screen; the notes shown for a video with another
    identifier are what they were; and the stored keys are untouched, so
    the application starts as it did. *)
Theorem saved_notes_round_trip (video : VideoData) (notes : string)
    (localStorage : gmap string string) :
  JS.truthy (JS.trim notes) = true ->
  (forall shown, loadNotes video (autoSave video notes localStorage) shown = notes) /\
  (forall other shown,
     id other <> id video ->
     loadNotes other (autoSave video notes localStorage) shown =
     loadNotes other localStorage shown) /\
  (forall st, Index.mount (autoSave video notes localStorage) st =
              Index.mount localStorage st).
Proof.
  intros Hnotes. split; [| split].
  - intros shown. unfold loadNotes, autoSave. rewrite Hnotes.
    rewrite lookup_insert_eq. now rewrite (ChatFacts.trim_truthy _ Hnotes).
  - intros other shown Hother. unfold loadNotes.
    rewrite autoSave_other; [reflexivity |].
    intros H. apply Hother. now apply notesKey_inj.
  - intros st. unfold Index.mount.
    rewrite !autoSave_other; [reflexivity | |];
      intros H; symmetry in H;
      [now apply notesKey_not_gemini in H | now apply notesKey_not_youtube in H].
Qed.

Lemma saved_notes_round_trip_witness :
  loadNotes ControllerFacts.videoA
    (autoSave ControllerFacts.videoA " remember 1:05 " ∅) EmptyString = " remember 1:05 ".
Proof.
  apply (saved_notes_round_trip ControllerFacts.videoA " remember 1:05 " ∅).
  reflexivity.
Defined.

(** X18.  Blank notes are never written, so erasing the notes does not
    erase the stored ones: when the notes on screen are empty or white
    space, the timer's callback leaves local storage as it is, and after
    notes that were saved the next load of the video brings the saved notes
    back. *)
Theorem blank_notes_keep_saved (video : VideoData) (notes : string)
    (localStorage : gmap string string) :
  JS.truthy (JS.trim notes) = false ->
  autoSave video notes localStorage = localStorage /\
  (forall saved shown,
     JS.truthy (JS.trim saved) = true ->
     loadNotes video (autoSave video notes (autoSave video saved localStorage)) shown =
     saved).
Proof.
  intros Hblank. split.
  - unfold autoSave. now rewrite Hblank.
  - intros saved shown Hsaved.
    replace (autoSave video notes (autoSave video saved localStorage))
      with (autoSave video saved localStorage)
      by (unfold autoSave at 2; now rewrite Hblank).
    unfold loadNotes, autoSave. rewrite Hsaved.
    rewrite lookup_insert_eq. now rewrite (ChatFacts.trim_truthy _ Hsaved).
Qed.

Lemma blank_notes_keep_saved_witness :
  loadNotes ControllerFacts.videoA
    (autoSave ControllerFacts.videoA "  "
       (autoSave ControllerFacts.videoA "first draft" ∅)) EmptyString = "first draft".
Proof.
  apply (blank_notes_keep_saved ControllerFacts.videoA "  " ∅); reflexivity.
Defined.

End NotesStoreFacts.

(** ** Downloading the notes *)

Module SaveFacts.

Import Transcript Pipeline VideoPlayer StringFacts.

Definition downloads (m : Eff.M SaveEffect unit) : list (string * string) :=
  flat_map (fun e => match e with Download n c => [(n, c)] | _ => [] end) (Eff.log m).

Definition saveToasts (m : Eff.M SaveEffect unit) : list (string * bool) :=
  flat_map (fun e => match e with SaveToast t _ d => [(t, d)] | _ => [] end) (Eff.log m).

(** [isSaving] once the handler is over. *)
Definition savingAfter (isSaving : bool) (m : Eff.M SaveEffect unit) : bool :=
  fold_left (fun b e => match e with SetIsSaving b' => b' | _ => b end) (Eff.log m) isSaving.

Definition notT (a : ascii) : bool := negb (Ascii.eqb a "T").

Lemma split_first (sep : ascii) (piece rest : string) :
  all (fun a => negb (Ascii.eqb a sep)) piece = true ->
  JS.split sep (piece ++ String sep rest) = piece :: JS.split sep rest.
Proof.
  induction piece as [| a piece IH]; cbn [all String.append JS.split].
  - intros _. now rewrite Ascii.eqb_refl.
  - intros [Ha Hpiece]%andb_true_iff. apply negb_true_iff in Ha.
    rewrite Ha, (IH Hpiece). reflexivity.
Qed.

Lemma isoDay_date (day time : string) :
  all notT day = true -> isoDay (day ++ "T" ++ time) = day.
Proof.
  intros Hday. unfold isoDay.
  change (day ++ "T" ++ time) with (day ++ String "T" time).
  now rewrite (split_first "T" day time Hday).
Qed.

(** X19.  The download handler never throws and shows one notification.
    With blank notes and no transcript it exports nothing and leaves
    [isSaving] alone.  Otherwise it ends with [isSaving] false, also when
    the browser fails, and when the browser does not fail it downloads one
    file: the content is [createNoteContent] and the name is [notes_], the
    identifier of the video, [_], the date part of the ISO time stamp and
    [.txt]. *)
Theorem handleSaveNotes_outcomes (video : VideoData) (notes : string)
    (transcript : list TranscriptEntry) (currentDate day time : string)
    (failure : option string) :
  all notT day = true ->
  let m := handleSaveNotes video notes transcript currentDate (day ++ "T" ++ time) failure in
  let nothing := negb (JS.truthy (JS.trim notes)) && (List.length transcript =? 0)%nat in
  Eff.returns m = true /\
  saveToasts m =
    [ if nothing then ("No Content", true)
      else match failure with
           | None => ("Notes Saved", false)
           | Some _ => ("Save Error", true)
           end ] /\
  downloads m =
    (if nothing then []
     else match failure with
          | None => [ ("notes_" ++ id video ++ "_" ++ day ++ ".txt",
                       createNoteContent video notes transcript currentDate) ]
          | Some _ => []
          end) /\
  (forall isSaving, savingAfter isSaving m = if nothing then isSaving else false).
Proof.
  intros Hday m nothing. subst m nothing. unfold handleSaveNotes.
  rewrite (isoDay_date day time Hday).
  destruct (negb (JS.truthy (JS.trim notes)) && (List.length transcript =? 0)%nat).
  - repeat split.
  - destruct failure as [message |]; repeat split.
Qed.

Lemma handleSaveNotes_outcomes_witness :
  downloads (handleSaveNotes ControllerFacts.videoA "my notes" [] "May 1, 2024"
               ("2024-05-01" ++ "T" ++ "10:20:30.000Z") None) =
  [ ("notes_vidA_2024-05-01.txt",
     createNoteContent ControllerFacts.videoA "my notes" [] "May 1, 2024") ].
Proof.
  pose proof (handleSaveNotes_outcomes ControllerFacts.videoA "my notes" []
                "May 1, 2024" "2024-05-01" "10:20:30.000Z" None eq_refl) as H.
  cbv zeta in H. destruct H as (_ & _ & H & _). exact H.
Defined.

End SaveFacts.

(** ** Searching *)

Module SearchFacts.

Import Transcript Pipeline Index.

Definition requests (m : Eff.M SearchEffect unit) : list SearchEffect :=
  List.filter (fun e => match e with AwaitSearch _ _ | AwaitSummary _ _ => true | _ => false end)
              (Eff.log m).

Definition searchToasts (m : Eff.M SearchEffect unit) : list (string * bool) :=
  flat_map (fun e => match e with SearchToast t _ d => [(t, d)] | _ => [] end) (Eff.log m).

(** The controller once the setters of the handler have run. *)
Definition after (st : State) (m : Eff.M SearchEffect unit) : State :=
  fold_left (fun s e => applySearch e s) (Eff.log m) st.

(** A search response the handler can use: an ok status and a body with
    items. *)
Definition usable (r : Net.Response (option (list SearchItem))) : bool :=
  match r with
  | Net.Resolved status (Net.Parsed _ (Some _)) => Net.ok status
  | _ => false
  end.

Definition summaryRequest (k : ApiKeys) (item : SearchItem) : SearchEffect :=
  AwaitSummary (gemini k) (summaryPrompt item).

Section Search.

Variable searchApi : string -> string -> Net.Response (option (list SearchItem)).
Variable summarize : string -> string -> Net.Response Gemini.Data.

Lemma summarized_item (k : ApiKeys) (item : SearchItem) :
  exists v,
    summarized summarize k item = ([summaryRequest k item], Eff.Return v) /\
    id v = videoId item /\ title v = itemTitle item /\
    description v = itemDescription item.
Proof.
  unfold summarized, summaryRequest, Net.fetch, Net.json, Gemini.candidateText, Eff.emit.
  destruct (summarize (gemini k) (summaryPrompt item)) as [message | status body].
  - eexists. split; [reflexivity | auto].
  - destruct (Net.ok status) eqn:Hok.
    + destruct body as [| raw | raw [| text]]; cbn; rewrite Hok; cbn;
        eexists; (split; [reflexivity | auto]).
    + cbn. rewrite Hok. cbn. eexists. split; [reflexivity | auto].
Qed.

Lemma allSummarized_items (k : ApiKeys) (items : list SearchItem) :
  exists vs,
    allSummarized summarize k items = (List.map (summaryRequest k) items, Eff.Return vs) /\
    List.map id vs = List.map videoId items /\
    List.map title vs = List.map itemTitle items /\
    List.map description vs = List.map itemDescription items.
Proof.
  induction items as [| item items (vs & Hall & Hid & Htitle & Hdesc)].
  - exists []. repeat split.
  - destruct (summarized_item k item) as (v & Hv & Hvid & Hvtitle & Hvdesc).
    exists (v :: vs). cbn [allSummarized List.map].
    rewrite Hv, Hall, Hid, Htitle, Hdesc, Hvid, Hvtitle, Hvdesc.
    split; [cbn; now rewrite List.app_nil_r |].
    repeat split.
Qed.

Lemma after_requests (st : State) (k : ApiKeys) (items : list SearchItem)
    (rest : list SearchEffect) :
  fold_left (fun s e => applySearch e s) (List.map (summaryRequest k) items ++ rest)%list st =
  fold_left (fun s e => applySearch e s) rest st.
Proof.
  induction items as [| item items IH]; [reflexivity | exact IH].
Qed.

(** X20.  When the search endpoint answers with items, the handler sets
    one video per item, in the order of the items, with the identifier,
    title and description of the item, whatever the summary endpoint
    does: a summary that fails is not an error.  It asks for the search
    and then for one summary per item, shows no notification, does not
    throw and leaves [isLoading] false. *)
Theorem search_results_in_item_order (query : string) (k : ApiKeys)
    (status : N) (raw : string) (items : list SearchItem) (st : State) :
  searchApi query (youtube k) = Net.Resolved status (Net.Parsed raw (Some items)) ->
  Net.ok status = true ->
  let m := searchVideos searchApi summarize query (Some k) in
  Eff.returns m = true /\
  requests m = AwaitSearch query (youtube k) :: List.map (summaryRequest k) items /\
  searchToasts m = [] /\
  List.map id (videos (after st m)) = List.map videoId items /\
  List.map title (videos (after st m)) = List.map itemTitle items /\
  List.map description (videos (after st m)) = List.map itemDescription items /\
  isLoading (after st m) = false /\
  currentView (after st m) = currentView st /\
  apiKeys (after st m) = apiKeys st.
Proof.
  intros Hresponse Hok m. subst m.
  destruct (allSummarized_items k items) as (vs & Hall & Hid & Htitle & Hdesc).
  assert (Hm : searchVideos searchApi summarize query (Some k) =
               (SetIsLoading true :: AwaitSearch query (youtube k) ::
                  (List.map (summaryRequest k) items ++
                   [SetVideos vs; SetIsLoading false])%list,
                Eff.Return tt)).
  { unfold searchVideos, Net.fetch, Net.json, Eff.emit. rewrite Hresponse.
    cbn. rewrite Hok. cbn. rewrite Hall. cbn.
    now rewrite <- ?List.app_assoc. }
  rewrite Hm. unfold requests, searchToasts, after, Eff.returns, Eff.result, Eff.log.
  cbn [fst snd fold_left applySearch List.filter flat_map List.app].
  rewrite after_requests. cbn [fold_left applySearch videos isLoading setVideos setIsLoading
                                 currentView apiKeys].
  rewrite List.filter_app, flat_map_app. cbn [List.filter flat_map List.app].
  split; [reflexivity |]. split.
  { f_equal. rewrite List.app_nil_r.
    clear. induction items as [| item items IH]; [reflexivity |].
    cbn [List.map List.filter summaryRequest]. now rewrite IH. }
  split.
  { clear. induction items as [| item items IH]; [reflexivity | exact IH]. }
  repeat split; assumption.
Qed.

(** X21.  A search that fails changes nothing on screen but the
    notification: when the search request is rejected, is answered with a
    status that is not ok, or with a body that cannot be read or has no
    items, the handler asks for no summary, leaves the results as they
    were, shows the one error notification, does not throw and leaves
    [isLoading] false.  Without keys the handler does nothing at all. *)
Theorem failed_search_keeps_results (query : string) (k : ApiKeys) (st : State) :
  usable (searchApi query (youtube k)) = false ->
  let m := searchVideos searchApi summarize query (Some k) in
  Eff.returns m = true /\
  requests m = [AwaitSearch query (youtube k)] /\
  searchToasts m = [("Search Error", true)] /\
  videos (after st m) = videos st /\
  isLoading (after st m) = false /\
  Eff.log (searchVideos searchApi summarize query None) = [].
Proof.
  intros Hunusable m. subst m. unfold usable in Hunusable.
  unfold searchVideos, Net.fetch, Net.json, Eff.emit, requests, searchToasts, after.
  destruct (searchApi query (youtube k)) as [message | status body].
  - repeat split.
  - destruct (Net.ok status) eqn:Hok.
    + destruct body as [| raw | raw [items |]]; try discriminate;
        cbn; rewrite Hok; repeat split.
    + cbn. rewrite Hok. repeat split.
Qed.

End Search.

Definition item1 : SearchItem :=
  {| videoId := "vidA"; itemTitle := "First video"; mediumUrl := None;
     defaultUrl := "a.jpg"; itemDescription := "About A" |}.

Definition searchUp (query key : string) : Net.Response (option (list SearchItem)) :=
  Net.Resolved 200 (Net.Parsed "{..}" (Some [item1])).

Definition searchDown (query key : string) : Net.Response (option (list SearchItem)) :=
  Net.Resolved 403 (Net.Opaque "quota").

Definition summaryDown (key prompt : string) : Net.Response Gemini.Data :=
  Net.Rejected "Failed to fetch".

Lemma search_results_in_item_order_witness :
  List.map id (videos (after initial
     (searchVideos searchUp summaryDown "cats" (Some (Keys "yt" "gm"))))) = ["vidA"].
Proof.
  pose proof (search_results_in_item_order searchUp summaryDown "cats" (Keys "yt" "gm")
                200%N "{..}" [item1] initial eq_refl eq_refl) as H.
  cbv zeta in H. destruct H as (_ & _ & _ & H & _). exact H.
Defined.

Lemma failed_search_keeps_results_witness :
  videos (after initial
     (searchVideos searchDown summaryDown "cats" (Some (Keys "yt" "gm")))) = [].
Proof.
  pose proof (failed_search_keeps_results searchDown summaryDown "cats" (Keys "yt" "gm")
                initial eq_refl) as H.
  cbv zeta in H. destruct H as (_ & _ & _ & H & _). exact H.
Defined.

End SearchFacts.

(** ** The service worker *)

Module WorkerFacts.

Import Pipeline Urls ServiceWorker.

(** X22.  The worker never answers a request of the application's own
    handlers: the caption listing, a caption track, the timed-text
    endpoint, the generative endpoint and the search, with any identifier,
    query and key, are left to the browser, whatever the method and
    whatever is cached; and so is every request whose method is not
    GET. *)
Theorem api_requests_pass_through {R : Type}
    (caches : list (string * gmap string R)) (method : string) :
  (forall rq url, requestUrl rq = Some url -> onFetch caches method url = NotHandled) /\
  (forall key, onFetch caches method (generateContentUrl key) = NotHandled) /\
  (forall encodedQuery key,
     onFetch caches method (searchUrl encodedQuery key) = NotHandled) /\
  (forall url, method <> "GET" -> onFetch caches method url = NotHandled).
Proof.
  unfold onFetch. split; [| split; [| split]].
  - intros rq url Hurl. destruct (negb (method =? "GET")); [reflexivity |].
    destruct rq as [videoId key | captionId key | videoId |];
      inversion Hurl as [Heq]; try reflexivity.
    match goal with
    | |- (if ?google || ?youtube then _ else _) = _ =>
        change youtube with true; now rewrite orb_true_r
    end.
  - intros key. destruct (negb (method =? "GET")); reflexivity.
  - intros encodedQuery key. destruct (negb (method =? "GET")); reflexivity.
  - intros url Hmethod. apply String.eqb_neq in Hmethod. now rewrite Hmethod.
Qed.

Lemma api_requests_pass_through_witness :
  onFetch [(CACHE_NAME, {[ "https://www.youtube.com/api/timedtext?v=vidA&lang=en" := "cached" ]})]
          "GET" "https://www.youtube.com/api/timedtext?v=vidA&lang=en" = NotHandled /\
  onFetch [(CACHE_NAME, {[ "/private-vid-ai/" := "cached" ]})]
          "POST" "/private-vid-ai/" = NotHandled.
Proof.
  split.
  - pose proof (api_requests_pass_through
                  [(CACHE_NAME, {[ "https://www.youtube.com/api/timedtext?v=vidA&lang=en" := "cached" ]})]
                  "GET") as (H & _).
    apply (H (GetTimedText "vidA")). reflexivity.
  - pose proof (api_requests_pass_through
                  [(CACHE_NAME, {[ "/private-vid-ai/" := "cached" ]})] "POST") as (_ & _ & _ & H).
    apply H. discriminate.
Defined.

Section Caches.

Context {R : Type}.

Implicit Types caches : list (string * gmap string R).

Lemma filter_all {A} (l : list A) : List.filter (fun _ => true) l = l.
Proof. induction l as [| a l IH]; cbn; [reflexivity | now rewrite IH]. Qed.

Lemma filter_twice {A} (f g : A -> bool) (l : list A) :
  List.filter f (List.filter g l) = List.filter (fun a => g a && f a) l.
Proof.
  induction l as [| a l IH]; cbn; [reflexivity |].
  destruct (g a); cbn; [destruct (f a) |]; now rewrite IH.
Qed.

(** Deleting caches one after the other keeps those with none of the
    names. *)
Lemma delete_each (names : list string) caches :
  fold_left (fun cs cacheName => delete cacheName cs) names caches =
  List.filter (fun entry => negb (existsb (String.eqb (fst entry)) names)) caches.
Proof.
  revert caches. induction names as [| name names IH]; intros caches.
  - cbn. now rewrite filter_all.
  - cbn [fold_left existsb]. rewrite IH. unfold delete. rewrite filter_twice.
    apply List.filter_ext. intros entry. now rewrite negb_orb.
Qed.

Lemma onActivate_filter caches :
  onActivate caches =
  List.filter (fun entry => String.eqb (fst entry) CACHE_NAME) caches.
Proof.
  unfold onActivate. rewrite delete_each.
  apply List.filter_ext_in. intros [name cache] Hentry. cbn [fst].
  destruct (String.eqb name CACHE_NAME) eqn:Hname.
  - apply negb_true_iff. apply not_true_is_false. intros Hex.
    apply List.existsb_exists in Hex as (other & Hother & Heq).
    apply List.filter_In in Hother as [_ Hother].
    apply String.eqb_eq in Heq. subst other.
    rewrite Hname in Hother. discriminate.
  - apply negb_false_iff. apply List.existsb_exists. exists name. split.
    + apply List.filter_In. split.
      * unfold keys. apply List.in_map_iff. now exists (name, cache).
      * now rewrite Hname.
    + apply String.eqb_refl.
Qed.

(** X23.  Activation keeps the caches called [CACHE_NAME], with what
    they hold and in their order, and deletes every other cache; so the
    worker then answers from what was stored under that name only. *)
Theorem activate_keeps_current_cache caches :
  onActivate caches =
    List.filter (fun entry => String.eqb (fst entry) CACHE_NAME) caches /\
  (forall name, In name (keys (onActivate caches)) -> name = CACHE_NAME) /\
  (forall cache, In (CACHE_NAME, cache) caches -> In (CACHE_NAME, cache) (onActivate caches)).
Proof.
  pose proof (onActivate_filter caches) as Hfilter.
  split; [exact Hfilter |]. rewrite Hfilter. split.
  - intros name Hname. unfold keys in Hname.
    apply List.in_map_iff in Hname as ([name' cache] & <- & Hentry).
    apply List.filter_In in Hentry as [_ Heq]. now apply String.eqb_eq in Heq.
  - intros cache Hcache. apply List.filter_In. split; [exact Hcache | reflexivity].
Qed.

(** [cache.addAll] fetched every address, and stored what it fetched. *)
Lemma fetchAll_entries (network : string -> option R) (urls : list string)
    (entries : list (string * R)) :
  fetchAll network urls = Some entries ->
  List.map fst entries = urls /\
  (forall url response, In (url, response) entries -> network url = Some response).
Proof.
  revert entries. induction urls as [| url urls IH]; intros entries; cbn [fetchAll].
  - intros [= <-]. split; [reflexivity | intros ? ? []].
  - destruct (network url) as [response |] eqn:Hurl; [| discriminate].
    destruct (fetchAll network urls) as [rest |]; [| discriminate].
    intros [= <-]. destruct (IH rest eq_refl) as [Hfst Hrest].
    split; [cbn; now rewrite Hfst |].
    intros url' response' [[= <- <-] | Hin]; [exact Hurl | now apply Hrest].
Qed.

Lemma put_each_kept (network : string -> option R) (entries : list (string * R))
    (cache : gmap string R) (url : string) :
  (forall u r, In (u, r) entries -> network u = Some r) ->
  cache !! url = network url ->
  fold_left (fun c kv => <[fst kv := snd kv]> c) entries cache !! url = network url.
Proof.
  revert cache. induction entries as [| [u r] entries IH]; intros cache Hall Hcache.
  - exact Hcache.
  - cbn [fold_left fst snd]. apply IH.
    + intros u' r' Hin. apply Hall. now right.
    + destruct (decide (u = url)) as [-> | Hne].
      * rewrite lookup_insert_eq. symmetry. apply Hall. now left.
      * now rewrite lookup_insert_ne.
Qed.

Lemma put_each_found (network : string -> option R) (entries : list (string * R))
    (cache : gmap string R) (url : string) :
  (forall u r, In (u, r) entries -> network u = Some r) ->
  In url (List.map fst entries) ->
  fold_left (fun c kv => <[fst kv := snd kv]> c) entries cache !! url = network url.
Proof.
  revert cache. induction entries as [| [u r] entries IH]; intros cache Hall Hin.
  - destruct Hin.
  - cbn [fold_left fst snd]. destruct (decide (u = url)) as [-> | Hne].
    + apply put_each_kept.
      * intros u' r' Hin'. apply Hall. now right.
      * rewrite lookup_insert_eq. symmetry. apply Hall. now left.
    + apply IH.
      * intros u' r' Hin'. apply Hall. now right.
      * destruct Hin as [Heq | Hin]; [cbn in Heq; contradiction | exact Hin].
Qed.

Lemma cachesMatch_all (url : string) (response : R) caches :
  caches <> [] ->
  (forall name cache, In (name, cache) caches -> cache !! url = Some response) ->
  cachesMatch url caches = Some response.
Proof.
  destruct caches as [| [name cache] rest]; [congruence |]. intros _ Hall.
  cbn [cachesMatch]. now rewrite (Hall name cache (or_introl eq_refl)).
Qed.

Lemma open_has (name : string) caches :
  exists cache, In (name, cache) (open name caches).
Proof.
  unfold open. destruct (existsb (String.eqb name) (keys caches)) eqn:Hex.
  - apply List.existsb_exists in Hex as (name' & Hin & Heq).
    apply String.eqb_eq in Heq. subst name'. unfold keys in Hin.
    apply List.in_map_iff in Hin as ([n cache] & Hn & Hin). cbn in Hn. subst n.
    now exists cache.
  - exists ∅. apply List.in_or_app. right. now left.
Qed.

(** X24.  Once the worker has been installed with every static asset
    fetched, and activated, a GET request for a static asset is answered
    from the cache with the response fetched at installation: whatever the
    caches held before, and without the network.  (The address of the
    asset must not contain the name of one of the two hosts the worker
    skips.) *)
Theorem installed_asset_served_from_cache
    (resolve : string -> string) (network : string -> option R) caches
    (entries : list (string * R)) (path : string) :
  fetchAll network (List.map resolve STATIC_ASSETS) = Some entries ->
  In path STATIC_ASSETS ->
  JS.includes "googleapis.com" (resolve path) = false ->
  JS.includes "youtube.com" (resolve path) = false ->
  exists response,
    network (resolve path) = Some response /\
    onFetch (onActivate (onInstall resolve network caches)) "GET" (resolve path) =
    FromCache response.
Proof.
  intros Hfetched Hpath Hgoogle Hyoutube.
  destruct (fetchAll_entries _ _ _ Hfetched) as [Hurls Hentries].
  assert (Hin : In (resolve path) (List.map fst entries))
    by (rewrite Hurls; now apply List.in_map).
  assert (Hsome : exists response, network (resolve path) = Some response).
  { apply List.in_map_iff in Hin as ([u r] & Hu & Hin). cbn in Hu. subst u.
    exists r. now apply Hentries. }
  destruct Hsome as [response Hresponse]. exists response.
  split; [exact Hresponse |].
  unfold onFetch. rewrite Hgoogle, Hyoutube. cbn [negb String.eqb orb].
  change (negb ("GET" =? "GET")) with false. cbv iota.
  rewrite onActivate_filter.
  unfold onInstall. rewrite Hfetched. cbv zeta.
  rewrite (cachesMatch_all (resolve path) response); [reflexivity | |].
  - destruct (open_has CACHE_NAME caches) as [cache Hcache].
    intros Hempty.
    assert (Hput : In (CACHE_NAME,
                       fold_left (fun c kv => <[fst kv := snd kv]> c) entries cache)
                     (List.filter (fun entry => String.eqb (fst entry) CACHE_NAME)
                        (putAll CACHE_NAME entries (open CACHE_NAME caches)))).
    { apply List.filter_In. split; [| reflexivity].
      unfold putAll. apply List.in_map_iff. exists (CACHE_NAME, cache).
      split; [| exact Hcache]. cbn [fst snd]. now rewrite String.eqb_refl. }
    rewrite Hempty in Hput. destruct Hput.
  - intros name cache Hcache.
    apply List.filter_In in Hcache as [Hcache Hname]. cbn [fst] in Hname.
    unfold putAll in Hcache.
    apply List.in_map_iff in Hcache as ([name' old] & Heq & _). cbn [fst snd] in Heq.
    destruct (String.eqb name' CACHE_NAME) eqn:Hname'.
    + injection Heq as _ <-. rewrite <- Hresponse.
      now apply put_each_found.
    + injection Heq as -> _. rewrite Hname in Hname'. discriminate.
Qed.

End Caches.

Definition staleCaches : list (string * gmap string string) :=
  [ ("private-tube-cache-v0", {[ "/private-vid-ai/" := "old page" ]});
    (CACHE_NAME, {[ "/private-vid-ai/" := "page" ]}) ].

Lemma activate_keeps_current_cache_witness :
  onActivate staleCaches = [(CACHE_NAME, {[ "/private-vid-ai/" := "page" ]})].
Proof.
  destruct (activate_keeps_current_cache staleCaches) as (H & _).
  rewrite H. reflexivity.
Defined.

Definition site (path : string) : string := "https://ogabamz.github.io" ++ path.

Definition online (url : string) : option string := Some ("body of " ++ url).

Lemma installed_asset_served_from_cache_witness :
  exists response,
    online (site "/private-vid-ai/index.html") = Some response /\
    onFetch (onActivate (onInstall site online [("old-cache", ∅)])) "GET"
            (site "/private-vid-ai/index.html") = FromCache response.
Proof.
  apply (installed_asset_served_from_cache site online [("old-cache", ∅)]
           (List.map (fun path => (site path, "body of " ++ site path)) STATIC_ASSETS)
           "/private-vid-ai/index.html").
  - reflexivity.
  - right. left. reflexivity.
  - reflexivity.
  - reflexivity.
Defined.

End WorkerFacts.
